(** * rss-telegram-feed: filter engine, ingestion, stores, monitor, command
      handlers and feed generation

    A shallow embedding of the Go sources of the repository (the flat
    [package main] variant and the modular [internal/...] variant) together
    with the properties stated about them.

    Go strings are byte sequences: they are embedded as [string], whose
    characters are the 256 byte values.  Go [int]/[int64]/[rune] values are
    embedded as [Z]. *)

From Stdlib Require Import ZArith String Ascii DecimalString DecimalZ DecimalPos Lia.
From stdpp Require Import base gmap strings list sorting.

Local Open Scope Z_scope.

#[local] Arguments String.append !s1 s2 : simpl nomatch.

(** ** Go runtime and standard-library primitives used by the sources *)

Module Go.

(** [s[i]] as a number. *)
Definition byte_val (c : ascii) : Z := Z.of_N (N_of_ascii c).

Definition byte_of (z : Z) : ascii := ascii_of_N (Z.to_N z).

(** [len(s)]. *)
Definition len (s : string) : Z := Z.of_nat (String.length s).

(** [s[lo:hi]] for in-range bounds. *)
Definition slice (s : string) (lo hi : nat) : string :=
  String.substring lo (hi - lo) s.

(** [s[:n]]. *)
Fixpoint take (n : nat) (s : string) : string :=
  match n, s with
  | S k, String c r => String c (take k r)
  | _, _ => EmptyString
  end.

(** [strings.HasPrefix]. *)
Fixpoint HasPrefix (s prefix : string) {struct prefix} : bool :=
  match prefix, s with
  | EmptyString, _ => true
  | String p ps, String c cs => if Ascii.eqb c p then HasPrefix cs ps else false
  | String _ _, EmptyString => false
  end.

(** [strings.Contains(s, substr)]: [substr] occurs at some offset of [s]. *)
Fixpoint Contains (s substr : string) : bool :=
  HasPrefix s substr ||
  match s with
  | EmptyString => false
  | String _ r => Contains r substr
  end.

(** *** UTF-8 ([unicode/utf8]) *)

Definition RuneError : Z := 0xFFFD.
Definition MaxRune : Z := 0x10FFFF.
Definition RuneSelf : Z := 0x80.

Definition in_range (lo hi b : Z) : bool := (lo <=? b) && (b <=? hi).

Definition is_cont (b : Z) : bool := in_range 0x80 0xBF b.

(** [utf8.DecodeRuneInString]: the rune at the head of a non-empty string
    and its width in bytes; an invalid or truncated encoding decodes to
    [(RuneError, 1)].  The accepted ranges of the second byte are those of
    the decoder's [acceptRanges] table. *)
Definition DecodeRuneInString (s : string) : Z * nat :=
  match s with
  | EmptyString => (RuneError, 0%nat)
  | String c0 r0 =>
    let b0 := byte_val c0 in
    if b0 <? RuneSelf then (b0, 1%nat)
    else if in_range 0xC2 0xDF b0 then
      match r0 with
      | String c1 _ =>
        let b1 := byte_val c1 in
        if is_cont b1
        then (Z.lor (Z.shiftl (Z.land b0 0x1F) 6) (Z.land b1 0x3F), 2%nat)
        else (RuneError, 1%nat)
      | _ => (RuneError, 1%nat)
      end
    else if in_range 0xE0 0xEF b0 then
      match r0 with
      | String c1 (String c2 _) =>
        let b1 := byte_val c1 in
        let b2 := byte_val c2 in
        let lo := if b0 =? 0xE0 then 0xA0 else 0x80 in
        let hi := if b0 =? 0xED then 0x9F else 0xBF in
        if in_range lo hi b1 && is_cont b2
        then (Z.lor (Z.shiftl (Z.land b0 0x0F) 12)
                (Z.lor (Z.shiftl (Z.land b1 0x3F) 6) (Z.land b2 0x3F)), 3%nat)
        else (RuneError, 1%nat)
      | _ => (RuneError, 1%nat)
      end
    else if in_range 0xF0 0xF4 b0 then
      match r0 with
      | String c1 (String c2 (String c3 _)) =>
        let b1 := byte_val c1 in
        let b2 := byte_val c2 in
        let b3 := byte_val c3 in
        let lo := if b0 =? 0xF0 then 0x90 else 0x80 in
        let hi := if b0 =? 0xF4 then 0x8F else 0xBF in
        if in_range lo hi b1 && is_cont b2 && is_cont b3
        then (Z.lor (Z.shiftl (Z.land b0 0x07) 18)
                (Z.lor (Z.shiftl (Z.land b1 0x3F) 12)
                   (Z.lor (Z.shiftl (Z.land b2 0x3F) 6) (Z.land b3 0x3F))), 4%nat)
        else (RuneError, 1%nat)
      | _ => (RuneError, 1%nat)
      end
    else (RuneError, 1%nat)
  end.

(** [for _, r := range s]: the runes of [s] in order.  [skip] counts the
    continuation bytes of the rune decoded last that are still ahead. *)
Fixpoint range_runes (skip : nat) (s : string) : list Z :=
  match s with
  | EmptyString => []
  | String _ r =>
    match skip with
    | S k => range_runes k r
    | O =>
      let '(rn, w) := DecodeRuneInString s in
      rn :: range_runes (pred w) r
    end
  end.

(** [[]rune(s)]. *)
Definition runes (s : string) : list Z := range_runes 0 s.

(** [utf8.AppendRune] on an empty buffer: the encoding of one rune.
    Surrogates and out-of-range values are written as [RuneError]. *)
Definition EncodeRune (r : Z) : string :=
  if (0 <=? r) && (r <? 0x80) then String (byte_of r) EmptyString
  else if (0 <=? r) && (r <? 0x800) then
    String (byte_of (Z.lor 0xC0 (Z.shiftr r 6)))
      (String (byte_of (Z.lor 0x80 (Z.land r 0x3F))) EmptyString)
  else if (r <? 0) || (MaxRune <? r) || in_range 0xD800 0xDFFF r then
    String (byte_of 0xEF) (String (byte_of 0xBF) (String (byte_of 0xBD) EmptyString))
  else if r <? 0x10000 then
    String (byte_of (Z.lor 0xE0 (Z.shiftr r 12)))
      (String (byte_of (Z.lor 0x80 (Z.land (Z.shiftr r 6) 0x3F)))
         (String (byte_of (Z.lor 0x80 (Z.land r 0x3F))) EmptyString))
  else
    String (byte_of (Z.lor 0xF0 (Z.shiftr r 18)))
      (String (byte_of (Z.lor 0x80 (Z.land (Z.shiftr r 12) 0x3F)))
         (String (byte_of (Z.lor 0x80 (Z.land (Z.shiftr r 6) 0x3F)))
            (String (byte_of (Z.lor 0x80 (Z.land r 0x3F))) EmptyString))).

(** [string(rs)] for [rs []rune]. *)
Fixpoint string_of_runes (rs : list Z) : string :=
  match rs with
  | [] => EmptyString
  | r :: rest => EncodeRune r +:+ string_of_runes rest
  end.

(** [fmt.Sprintf("%d", n)] (also [strconv.FormatInt(n, 10)]). *)
Definition itoa (n : Z) : string := NilZero.string_of_int (Z.to_int n).

(** *** Case mapping ([unicode], [strings]) *)

(** [unicode.CaseRange]; [Delta] holds the offsets to the upper, lower and
    title case.  [UpperLower] marks an alternating upper/lower run. *)
Record CaseRange := mkCaseRange
  { Lo : Z; Hi : Z; DeltaUpper : Z; DeltaLower : Z; DeltaTitle : Z }.

Definition UpperLower : Z := MaxRune + 1.
Definition MaxASCII : Z := 0x7F.

(** The binary search of [unicode.to] for the lower case ([_case = 1]);
    [fuel] bounds the number of halvings. *)
Fixpoint to_lower_search (fuel : nat) (caseRange : list CaseRange)
    (lo hi : nat) (r : Z) : Z :=
  match fuel with
  | O => r
  | S k =>
    if (lo <? hi)%nat then
      let m := ((lo + hi) / 2)%nat in
      match caseRange !! m with
      | None => r
      | Some cr =>
        if (Lo cr <=? r) && (r <=? Hi cr) then
          let delta := DeltaLower cr in
          if MaxRune <? delta
          then Lo cr + Z.lor (Z.land (r - Lo cr) (Z.lnot 1)) 1
          else r + delta
        else if r <? Lo cr then to_lower_search k caseRange lo m r
        else to_lower_search k caseRange (m + 1) hi r
      end
    else r
  end.

Section CaseTable.

(** [unicode.CaseRanges] is data of the Go distribution; the functions
    below take the table as a parameter. *)
Variable CaseRanges : list CaseRange.

(** [unicode.ToLower]. *)
Definition unicode_ToLower (r : Z) : Z :=
  if r <=? MaxASCII then
    if (65 <=? r) && (r <=? 90) then r + 32 else r
  else to_lower_search (S (List.length CaseRanges)) CaseRanges
         0 (List.length CaseRanges) r.

(** [strings.Map(mapping, s)]: every rune of [s] (an invalid byte reads
    as [RuneError]) is replaced by its image, negative images being
    dropped. *)
Fixpoint write_runes (mapping : Z -> Z) (rs : list Z) : string :=
  match rs with
  | [] => EmptyString
  | c :: rest =>
    let r := mapping c in
    if 0 <=? r then EncodeRune r +:+ write_runes mapping rest
    else write_runes mapping rest
  end.

Definition Map (mapping : Z -> Z) (s : string) : string :=
  write_runes mapping (runes s).

Fixpoint isASCII (s : string) : bool :=
  match s with
  | EmptyString => true
  | String c r => (byte_val c <? RuneSelf) && isASCII r
  end.

(** The ASCII branch of [strings.ToLower]. *)
Fixpoint lower_ascii (s : string) : string :=
  match s with
  | EmptyString => EmptyString
  | String c r =>
    let b := byte_val c in
    String (if (65 <=? b) && (b <=? 90) then byte_of (b + 32) else c)
           (lower_ascii r)
  end.

(** [strings.ToLower]. *)
Definition ToLower (s : string) : string :=
  if isASCII s then lower_ascii s else Map unicode_ToLower s.

End CaseTable.

(** The entries of [unicode.CaseRanges] for Basic Latin, Latin-1 and the
    Cyrillic letters U+0400..U+045F. *)
Definition CaseRanges_Latin_Cyrillic : list CaseRange :=
  [ mkCaseRange 0x0041 0x005A 0 32 0;
    mkCaseRange 0x0061 0x007A (-32) 0 (-32);
    mkCaseRange 0x00B5 0x00B5 743 0 743;
    mkCaseRange 0x00C0 0x00D6 0 32 0;
    mkCaseRange 0x00D8 0x00DE 0 32 0;
    mkCaseRange 0x00E0 0x00F6 (-32) 0 (-32);
    mkCaseRange 0x00F8 0x00FE (-32) 0 (-32);
    mkCaseRange 0x00FF 0x00FF 121 0 121;
    mkCaseRange 0x0400 0x040F 0 80 0;
    mkCaseRange 0x0410 0x042F 0 32 0;
    mkCaseRange 0x0430 0x044F (-32) 0 (-32);
    mkCaseRange 0x0450 0x045F (-80) 0 (-80) ].

End Go.

(** ** Domain types

    The flat package and the modular [domain] packages declare the same
    structs field for field. *)

Definition Time := Z.

(** [time.Unix(sec, 0)]. *)
Definition time_Unix (sec : Z) : Time := sec.

(** [FilterType] is a Go string type; its constants are generated from the
    annotation [ENUM(keywords,exclude_keywords,author)]. *)
Definition FilterType := string.
Definition FilterTypeKeywords : FilterType := "keywords".
Definition FilterTypeExcludeKeywords : FilterType := "exclude_keywords".
Definition FilterTypeAuthor : FilterType := "author".

(** [MediaType], from [ENUM(photo,video,document,audio)]. *)
Definition MediaType := string.
Definition MediaTypePhoto : MediaType := "photo".
Definition MediaTypeVideo : MediaType := "video".
Definition MediaTypeDocument : MediaType := "document".
Definition MediaTypeAudio : MediaType := "audio".

Record Filter := mkFilter
  { Type_ : FilterType; Keywords : list string; Enabled : bool }.

Record Channel := mkChannel
  { ID : string; Username : string; Title : string; AddedBy : Z;
    AddedAt : Time; Filters : list Filter; LastUpdate : Time;
    IsActive : bool }.

Record Media := mkMedia
  { MType : MediaType; FileID : string; URL : string; Thumbnail : string;
    MCaption : string }.

Record Message := mkMessage
  { MsgID : Z; ChannelID : string; ChannelName : string; Text : string;
    Date : Time; Author : string; MediaList : list Media; Link : string }.

(** The fields of the Telegram [models.Message] that the handlers read. *)
Record TgUser := mkTgUser { TgUsername : string; FirstName : string }.

Record TgMessage := mkTgMessage
  { TgID : Z; ChatID : Z; TgText : string; TgCaption : string; TgDate : Z;
    From : option TgUser; Photo : list string; Video : option string;
    Document : option string; Audio : option string }.

Global Instance Filter_eq_dec : EqDecision Filter.
Proof. solve_decision. Defined.

Global Instance Channel_eq_dec : EqDecision Channel.
Proof. solve_decision. Defined.

Global Instance Media_eq_dec : EqDecision Media.
Proof. solve_decision. Defined.

Global Instance Message_eq_dec : EqDecision Message.
Proof. solve_decision. Defined.

(** ** Filter evaluation *)

(** *** Flat variant: [BotHandler.passesFilters] and [containsKeyword] *)

Module BotHandler.
Section WithCaseTable.
Variable CaseRanges : list Go.CaseRange.

Definition containsKeyword (text keyword : string) : bool :=
  if Go.len keyword =? 0 then false
  else
    let textLower := Go.ToLower CaseRanges text in
    let keywordLower := Go.ToLower CaseRanges keyword in
    Go.Contains textLower keywordLower.

(** [lo.ContainsBy]. *)
Definition lo_ContainsBy {A} (collection : list A) (predicate : A -> bool) : bool :=
  existsb predicate collection.

(** The body of the [for _, filter := range channel.Filters] loop. *)
Fixpoint passesFilters_loop (filters : list Filter) (text : string) : bool :=
  match filters with
  | [] => true
  | filter :: rest =>
    if negb (Enabled filter) then passesFilters_loop rest text
    else if String.eqb (Type_ filter) FilterTypeKeywords then
      let matches :=
        lo_ContainsBy (Keywords filter) (fun keyword => containsKeyword text keyword) in
      if negb matches then false else passesFilters_loop rest text
    else if String.eqb (Type_ filter) FilterTypeExcludeKeywords then
      if lo_ContainsBy (Keywords filter) (fun keyword => containsKeyword text keyword)
      then false else passesFilters_loop rest text
    else passesFilters_loop rest text
  end.

(** The text the filters are matched against: [msg.Text], or the
    caption when the text is empty. *)
Definition filter_text (msg : TgMessage) : string :=
  if String.eqb (TgText msg) "" && negb (String.eqb (TgCaption msg) "")
  then TgCaption msg else TgText msg.

Definition passesFilters (channel : Channel) (msg : TgMessage) : bool :=
  if (List.length (Filters channel) =? 0)%nat then true
  else passesFilters_loop (Filters channel) (filter_text msg).

End WithCaseTable.
End BotHandler.

(** *** Modular variant: [Service.passesFilters], [contains],
        [containsSubstring] and [toLower] of the channel service *)

Module ChannelService.

Fixpoint toLower (s : string) : string :=
  match s with
  | EmptyString => EmptyString
  | String c r =>
    let b := Go.byte_val c in
    String (if (65 <=? b) && (b <=? 90) then Go.byte_of (b + 32) else c)
           (toLower r)
  end.

(** The loop [for i := 0; i <= len(textLower)-len(substrLower); i++];
    [iters] is the number of iterations still to run. *)
Fixpoint containsSubstring_loop (textLower substrLower : string)
    (i iters : nat) : bool :=
  match iters with
  | O => false
  | S k =>
    if String.eqb (Go.slice textLower i (i + String.length substrLower)) substrLower
    then true
    else containsSubstring_loop textLower substrLower (S i) k
  end.

Definition containsSubstring (text substr : string) : bool :=
  let textLower := toLower text in
  let substrLower := toLower substr in
  containsSubstring_loop textLower substrLower 0
    (Z.to_nat (Go.len textLower - Go.len substrLower + 1)).

Definition contains (text keyword : string) : bool :=
  (0 <? Go.len keyword) && (Go.len keyword <=? Go.len text) &&
  (String.eqb text keyword || containsSubstring text keyword).

(** The inner loop of the [keywords] case: [matches] becomes true at the
    first keyword contained in the text. *)
Fixpoint any_keyword (text : string) (keywords : list string) : bool :=
  match keywords with
  | [] => false
  | keyword :: rest => if contains text keyword then true else any_keyword text rest
  end.

Fixpoint passesFilters_loop (filters : list Filter) (text : string) : bool :=
  match filters with
  | [] => true
  | filter :: rest =>
    if negb (Enabled filter) then passesFilters_loop rest text
    else if String.eqb (Type_ filter) FilterTypeKeywords then
      let matches := any_keyword text (Keywords filter) in
      if negb matches then false else passesFilters_loop rest text
    else if String.eqb (Type_ filter) FilterTypeExcludeKeywords then
      if any_keyword text (Keywords filter) then false
      else passesFilters_loop rest text
    else passesFilters_loop rest text
  end.

Definition passesFilters (channel : Channel) (text : string) : bool :=
  if (List.length (Filters channel) =? 0)%nat then true
  else passesFilters_loop (Filters channel) text.

End ChannelService.

(** ** Persistence: the file-backed stores

    [FileStorage] of the flat package and the three [FileStorage]
    repositories of the modular packages run the same code; they differ in
    how the base path is split and in how errors are wrapped. *)

Inductive error :=
  | ErrChannelNotFound
  | ErrOS (op path : string)
  | ErrJSON (what : string)
  | ErrWrap (context : string) (cause : error).

Inductive result (A : Type) :=
  | Ok (a : A)
  | Err (e : error).
Arguments Ok {A} a.
Arguments Err {A} e.

(** A directory entry.  A regular file is represented by what
    [json.Unmarshal] makes of its bytes: [Some v] when they are the JSON
    written by [json.MarshalIndent] for [v], [None] when they do not parse. *)
Inductive DirEntry (A : Type) :=
  | RegularFile (decoded : option A)
  | Directory.
Arguments RegularFile {A} decoded.
Arguments Directory {A}.

(** The storage directory: [channels/<id>.json] and
    [messages/<channelID>/<id>.json].  Channel ids are the decimal chat ids
    that the handlers print with [%d], so a channel id is one path element
    and names one directory. *)
Record Disk := mkDisk
  { channels_dir : gmap string (DirEntry Channel);
    messages_dir : gmap string (gmap string (DirEntry Message)) }.

(** Where a failing [os.WriteFile] fails.  It opens the file with
    [O_CREATE|O_TRUNC], writes, and closes: a failure of the open leaves
    the directory as it was; a failure of the write leaves the file
    created or truncated, holding a strict prefix of the data, which does
    not parse as JSON; a failure of the close is reported although the data
    is in the file. *)
Inductive WriteFault := FailsAtOpen | FailsAtWrite | FailsAtClose.

(** What the environment decides during one operation: the clock and the
    failures of the operating system and of the JSON encoder.
    [write_fault] says where a write that fails does so. *)
Record Env := mkEnv
  { time_Now : Time;
    mkdir_fails : string -> bool;
    write_fails : string -> bool;
    read_fails : string -> bool;
    readdir_fails : string -> bool;
    marshal_message_fails : Message -> bool;
    marshal_channel_fails : Channel -> bool;
    write_fault : string -> WriteFault }.

(** A file or directory name that is one path element: not empty, not
    [.] or [..], and without a separator. *)
Definition path_element (name : string) : bool :=
  negb (String.eqb name "") && negb (String.eqb name ".") &&
  negb (String.eqb name "..") &&
  negb (existsb (Ascii.eqb "/"%char) (list_ascii_of_string name)).

(** [filepath.Join] of a directory and one path element: on such a name
    the cleaning that [filepath.Join] does has nothing to remove, and the
    result names an entry of the directory.  The directories of the store
    are keyed by these names.  A channel id that is not a path element
    (one with a separator, say) makes [filepath.Join] name a file
    elsewhere; the properties of the store that depend on where a file
    lies are stated for ids that are path elements. *)
Definition filepath_Join (dir name : string) : string := dir +:+ "/" +:+ name.

(** [filepath.Ext]: the suffix starting at the last dot of the last path
    element, empty when there is none. *)
Fixpoint filepath_Ext (path : string) : string :=
  match path with
  | EmptyString => EmptyString
  | String c r =>
    let e := filepath_Ext r in
    if String.eqb e "" then
      if existsb (Ascii.eqb "/"%char) (list_ascii_of_string r) then EmptyString
      else if Ascii.eqb c "."%char then path else EmptyString
    else e
  end.

Definition message_file (id : Z) : string := Go.itoa id +:+ ".json".
Definition channel_file (channelID : string) : string := channelID +:+ ".json".

(** [os.WriteFile] into a directory listing.  The open fails on an entry
    that is a directory.  Otherwise the write goes through, creating or
    replacing the entry, unless the environment makes it fail: at the
    open, with the listing as it was; at the write, with the entry left
    as a file that does not parse; or at the close, with the entry
    written all the same. *)
Definition WriteFile {A} (env : Env) (path name : string) (v : A)
    (dir : gmap string (DirEntry A)) : option error * gmap string (DirEntry A) :=
  match dir !! name with
  | Some Directory => (Some (ErrOS "open" path), dir)
  | _ =>
    if write_fails env path then
      match write_fault env path with
      | FailsAtOpen => (Some (ErrOS "open" path), dir)
      | FailsAtWrite => (Some (ErrOS "write" path), <[name := RegularFile None]> dir)
      | FailsAtClose => (Some (ErrOS "close" path), <[name := RegularFile (Some v)]> dir)
      end
    else (None, <[name := RegularFile (Some v)]> dir)
  end.

Definition name_le {A} (x y : string * A) : Prop := String.leb (fst x) (fst y).

Global Instance name_le_dec {A} (x y : string * A) : Decision (name_le x y).
Proof. unfold name_le. apply _. Defined.

(** [os.ReadDir]: the entries of a directory sorted by file name. *)
Definition ReadDir {A} (dir : gmap string (DirEntry A)) : list (string * DirEntry A) :=
  merge_sort name_le (map_to_list dir).

Module MessageStore.

(** [FileStorage.SaveMessage]. *)
Definition SaveMessage (env : Env) (d : Disk) (message : Message)
    : option error * Disk :=
  let msgDir := filepath_Join "messages" (ChannelID message) in
  if mkdir_fails env msgDir then
    (Some (ErrWrap "failed to create message directory" (ErrOS "mkdir" msgDir)), d)
  else
    let files := default ∅ (messages_dir d !! ChannelID message) in
    let d1 := mkDisk (channels_dir d) (<[ChannelID message := files]> (messages_dir d)) in
    let path := filepath_Join msgDir (message_file (MsgID message)) in
    if marshal_message_fails env message then
      (Some (ErrWrap "failed to marshal message" (ErrJSON "message")), d1)
    else
      let '(err, files') := WriteFile env path (message_file (MsgID message)) message files in
      (err, mkDisk (channels_dir d) (<[ChannelID message := files']> (messages_dir d))).

(** The loop [for i := len(entries) - 1; i >= 0 && count < limit; i--] of
    [GetMessages], over the entries from the last one down. *)
Fixpoint GetMessages_loop (env : Env) (msgDir : string)
    (entries_down : list (string * DirEntry Message))
    (count limit : Z) (messages : list Message) : list Message :=
  match entries_down with
  | [] => messages
  | (name, entry) :: rest =>
    if count <? limit then
      match entry with
      | Directory => GetMessages_loop env msgDir rest count limit messages
      | RegularFile decoded =>
        if negb (String.eqb (filepath_Ext name) ".json") then
          GetMessages_loop env msgDir rest count limit messages
        else if read_fails env (filepath_Join msgDir name) then
          GetMessages_loop env msgDir rest count limit messages
        else
          match decoded with
          | None => GetMessages_loop env msgDir rest count limit messages
          | Some message =>
            GetMessages_loop env msgDir rest (count + 1) limit (messages ++ [message])
          end
      end
    else messages
  end.

(** [FileStorage.GetMessages]. *)
Definition GetMessages (env : Env) (d : Disk) (channelID : string) (limit : Z)
    : result (list Message) :=
  let msgDir := filepath_Join "messages" channelID in
  match messages_dir d !! channelID with
  | None => Ok []
  | Some files =>
    if readdir_fails env msgDir then
      Err (ErrWrap "failed to read messages directory" (ErrOS "readdir" msgDir))
    else Ok (GetMessages_loop env msgDir (rev (ReadDir files)) 0 limit [])
  end.

End MessageStore.

Module ChannelStore.

(** [FileStorage.SaveChannel]. *)
Definition SaveChannel (env : Env) (d : Disk) (channel : Channel)
    : option error * Disk :=
  let path := filepath_Join "channels" (channel_file (ID channel)) in
  if marshal_channel_fails env channel then
    (Some (ErrWrap "failed to marshal channel" (ErrJSON "channel")), d)
  else
    let '(err, files') := WriteFile env path (channel_file (ID channel)) channel (channels_dir d) in
    (err, mkDisk files' (messages_dir d)).

(** [FileStorage.GetChannel]. *)
Definition GetChannel (env : Env) (d : Disk) (channelID : string) : result Channel :=
  let path := filepath_Join "channels" (channel_file channelID) in
  match channels_dir d !! channel_file channelID with
  | None => Err ErrChannelNotFound
  | Some Directory => Err (ErrWrap "failed to read channel" (ErrOS "read" path))
  | Some (RegularFile decoded) =>
    if read_fails env path then
      Err (ErrWrap "failed to read channel" (ErrOS "read" path))
    else
      match decoded with
      | None => Err (ErrWrap "failed to unmarshal channel" (ErrJSON "channel"))
      | Some channel => Ok channel
      end
  end.

End ChannelStore.

(** ** Ingestion *)

Inductive LogLevel := LevelDebug | LevelInfo | LevelError.

(** A [slog] record: level and message. *)
Definition LogRecord : Type := LogLevel * string.

(** The state the handlers act on: the storage directory and the log
    written so far. *)
Record World := mkWorld { disk : Disk; log : list LogRecord }.

Definition slog (level : LogLevel) (msg : string) (w : World) : World :=
  mkWorld (disk w) (log w ++ [(level, msg)]).

Definition getAuthorName (msg : TgMessage) : string :=
  match From msg with
  | Some from =>
    if negb (String.eqb (TgUsername from) "") then "@" +:+ TgUsername from
    else if negb (String.eqb (FirstName from) "") then FirstName from
    else "Unknown"
  | None => "Unknown"
  end.

Definition extractMedia (msg : TgMessage) : list Media :=
  let media := [] in
  let media :=
    match last (Photo msg) with
    | Some photo => media ++ [mkMedia MediaTypePhoto photo "" "" ""]
    | None => media
    end in
  let media :=
    match Video msg with
    | Some f => media ++ [mkMedia MediaTypeVideo f "" "" ""]
    | None => media
    end in
  let media :=
    match Document msg with
    | Some f => media ++ [mkMedia MediaTypeDocument f "" "" ""]
    | None => media
    end in
  match Audio msg with
  | Some f => media ++ [mkMedia MediaTypeAudio f "" "" ""]
  | None => media
  end.

Definition post_link (channel : Channel) (msg : TgMessage) : string :=
  "https://t.me/" +:+ Username channel +:+ "/" +:+ Go.itoa (TgID msg).

(** *** Modular variant: [Service.ProcessMessage] and
        [Handler.processChannelPost] *)

Module Modular.

Definition set_LastUpdate (channel : Channel) (t : Time) : Channel :=
  mkChannel (ID channel) (Username channel) (Title channel) (AddedBy channel)
    (AddedAt channel) (Filters channel) t (IsActive channel).

(** [Service.ProcessMessage]; the result is the returned error and the
    world after the call. *)
Definition ProcessMessage (env : Env) (w : World) (channel : Channel)
    (msgText : string) (msgDate msgID : Z) (author : string)
    (media : list Media) (link : string) : option error * World :=
  if negb (ChannelService.passesFilters channel msgText) then (None, w)
  else
    let message :=
      mkMessage msgID (ID channel) (Title channel) msgText (time_Unix msgDate)
        author media link in
    match MessageStore.SaveMessage env (disk w) message with
    | (Some err, d1) =>
      (Some (ErrWrap "failed to save message" err), mkWorld d1 (log w))
    | (None, d1) =>
      let channel' := set_LastUpdate channel (time_Now env) in
      match ChannelStore.SaveChannel env d1 channel' with
      | (Some _, d2) =>
        (None, slog LevelError "Failed to update channel last update time"
                 (mkWorld d2 (log w)))
      | (None, d2) => (None, mkWorld d2 (log w))
      end
    end.

(** [Handler.processChannelPost]; [msg] is [None] for a nil pointer. *)
Definition processChannelPost (env : Env) (w : World) (msg : option TgMessage)
    : World :=
  match msg with
  | None => w
  | Some msg =>
    let channelID := Go.itoa (ChatID msg) in
    match ChannelStore.GetChannel env (disk w) channelID with
    | Err _ => w
    | Ok channel =>
      if negb (IsActive channel) then w
      else
        let text :=
          if String.eqb (TgText msg) "" && negb (String.eqb (TgCaption msg) "")
          then TgCaption msg else TgText msg in
        let media := extractMedia msg in
        let author := getAuthorName msg in
        let link := post_link channel msg in
        match ProcessMessage env w channel text (TgDate msg) (TgID msg)
                author media link with
        | (Some _, w1) => slog LevelError "Error processing message" w1
        | (None, w1) => slog LevelInfo "New message from channel" w1
        end
    end
  end.

End Modular.

(** *** Flat variant: [BotHandler.processChannelPost] *)

Module Flat.

(** [FeedService.UpdateFeed]: a placeholder that only logs. *)
Definition UpdateFeed (w : World) (channelID : string) : option error * World :=
  (None, slog LevelDebug "Feed update requested" w).

Section WithCaseTable.
Variable CaseRanges : list Go.CaseRange.

(** [has_monitor] and [has_feed] say whether the handler's
    [channelMonitor] and [feedService] pointers are set. *)
Definition processChannelPost (has_monitor has_feed : bool) (env : Env)
    (w : World) (msg : option TgMessage) : World :=
  match msg with
  | None => w
  | Some msg =>
    let channelID := Go.itoa (ChatID msg) in
    match ChannelStore.GetChannel env (disk w) channelID with
    | Err _ => w
    | Ok channel =>
      if negb (IsActive channel) then w
      else if has_monitor then
        let message :=
          mkMessage (TgID msg) channelID (Title channel) (TgText msg)
            (time_Unix (TgDate msg)) (getAuthorName msg) (extractMedia msg)
            (post_link channel msg) in
        if negb (BotHandler.passesFilters CaseRanges channel msg) then w
        else
          match MessageStore.SaveMessage env (disk w) message with
          | (Some _, d1) => slog LevelError "Error saving message" (mkWorld d1 (log w))
          | (None, d1) =>
            let w1 := mkWorld d1 (log w) in
            let w2 :=
              if has_feed then
                match UpdateFeed w1 channelID with
                | (Some _, w') => slog LevelError "Error updating feed" w'
                | (None, w') => w'
                end
              else w1 in
            slog LevelInfo "New message from channel" w2
          end
      else w
    end
  end.

End WithCaseTable.
End Flat.

(** ** Feed generation ([FeedService] / feed [Service]) *)

Record FeedItem := mkFeedItem
  { ItemTitle : string; ItemLink : string; ItemDescription : string;
    ItemContent : string; ItemAuthor : string; ItemCreated : Time;
    ItemId : string }.

Record Feed := mkFeed
  { FeedTitle : string; FeedLink : string; FeedDescription : string;
    FeedAuthor : string; FeedCreated : Time; FeedUpdated : Time;
    Items : list FeedItem }.

Module FeedService.

Definition nl : string := String (ascii_of_nat 10) EmptyString.

(** [truncate(s, maxLen)]; [maxLen] is 100 at the only call. *)
Definition truncate (s : string) (maxLen : nat) : string :=
  if Go.len s <=? Z.of_nat maxLen then s
  else Go.take maxLen s +:+ "...".

(** One step of the [switch r] in [escapeHTML]. *)
Definition escape_rune (result : list Z) (r : Z) : list Z :=
  if r =? 60 then result ++ Go.runes "&lt;"
  else if r =? 62 then result ++ Go.runes "&gt;"
  else if r =? 38 then result ++ Go.runes "&amp;"
  else if r =? 34 then result ++ Go.runes "&quot;"
  else if r =? 39 then result ++ Go.runes "&#39;"
  else result ++ [r].

Definition escapeHTML (s : string) : string :=
  Go.string_of_runes (fold_left escape_rune (Go.runes s) []).

(** The first loop over [msg.Media]: the plain-text listing. *)
Fixpoint media_description (description : string) (media : list Media) : string :=
  match media with
  | [] => description
  | m :: rest =>
    let description := description +:+ "- " +:+ MType m +:+ ": " +:+ FileID m +:+ nl in
    let description :=
      if negb (String.eqb (MCaption m) "")
      then description +:+ "  Caption: " +:+ MCaption m +:+ nl
      else description in
    media_description description rest
  end.

(** The second loop over [msg.Media]: the HTML list items. *)
Fixpoint media_content (content : string) (media : list Media) : string :=
  match media with
  | [] => content
  | m :: rest =>
    media_content (content +:+ "<li>" +:+ MType m +:+ ": " +:+ FileID m +:+ "</li>") rest
  end.

Definition item_description (msg : Message) : string :=
  let description := Text msg in
  let description :=
    if String.eqb description "" then "No text content" else description in
  if (0 <? List.length (MediaList msg))%nat
  then media_description (description +:+ nl +:+ nl +:+ "Media:" +:+ nl) (MediaList msg)
  else description.

Definition messageToFeedItem (msg : Message) (baseURL : string) : FeedItem :=
  let description := item_description msg in
  let content := "<p>" +:+ escapeHTML description +:+ "</p>" in
  let content :=
    if (0 <? List.length (MediaList msg))%nat
    then media_content (content +:+ "<p><strong>Media attachments:</strong></p><ul>")
           (MediaList msg) +:+ "</ul>"
    else content in
  mkFeedItem (truncate (Text msg) 100) (Link msg) description content
    (Author msg) (Date msg) (ChannelID msg +:+ "-" +:+ Go.itoa (MsgID msg)).

(** [GenerateFeed]. *)
Definition GenerateFeed (env : Env) (d : Disk) (channelID baseURL : string)
    : result Feed :=
  match ChannelStore.GetChannel env d channelID with
  | Err err => Err (ErrWrap "channel not found" err)
  | Ok channel =>
    match MessageStore.GetMessages env d channelID 50 with
    | Err err => Err (ErrWrap "failed to get messages" err)
    | Ok messages =>
      Ok (mkFeed (Title channel +:+ " - RSS Feed")
            (baseURL +:+ "/rss/" +:+ ID channel)
            ("RSS feed for Telegram channel: " +:+ Title channel)
            (Username channel) (AddedAt channel) (LastUpdate channel)
            (map (fun msg => messageToFeedItem msg baseURL) messages))
    end
  end.

End FeedService.

(** ** Reference definition of filter evaluation

    Written after the specification of the filter engine, independently of
    the code: substring matching is stated by existence of a decomposition,
    evaluation as a relation that walks the filters in sequence order. *)

Module FilterSpec.
Section WithCaseTable.
Variable CaseRanges : list Go.CaseRange.

(** [keyword] is a case-insensitive substring of [text]. *)
Definition ci_substring (keyword text : string) : Prop :=
  exists pre suf,
    Go.ToLower CaseRanges text = pre +:+ Go.ToLower CaseRanges keyword +:+ suf.

(** A keyword matches; the empty keyword never does. *)
Definition keyword_matches (text keyword : string) : Prop :=
  keyword <> "" /\ ci_substring keyword text.

Definition some_keyword_matches (text : string) (f : Filter) : Prop :=
  exists keyword, In keyword (Keywords f) /\ keyword_matches text keyword.

Inductive evaluates (text : string) : list Filter -> bool -> Prop :=
| ev_empty : evaluates text [] true
| ev_disabled f rest b :
    Enabled f = false -> evaluates text rest b -> evaluates text (f :: rest) b
| ev_include_reject f rest :
    Enabled f = true -> Type_ f = FilterTypeKeywords ->
    ~ some_keyword_matches text f -> evaluates text (f :: rest) false
| ev_include_pass f rest b :
    Enabled f = true -> Type_ f = FilterTypeKeywords ->
    some_keyword_matches text f -> evaluates text rest b ->
    evaluates text (f :: rest) b
| ev_exclude_reject f rest :
    Enabled f = true -> Type_ f = FilterTypeExcludeKeywords ->
    some_keyword_matches text f -> evaluates text (f :: rest) false
| ev_exclude_pass f rest b :
    Enabled f = true -> Type_ f = FilterTypeExcludeKeywords ->
    ~ some_keyword_matches text f -> evaluates text rest b ->
    evaluates text (f :: rest) b
| ev_other_kind f rest b :
    Enabled f = true -> Type_ f <> FilterTypeKeywords ->
    Type_ f <> FilterTypeExcludeKeywords -> evaluates text rest b ->
    evaluates text (f :: rest) b.

End WithCaseTable.
End FilterSpec.

(** ** Reference definition of HTML escaping

    Each of the five characters is replaced by its entity; every other
    character stands for itself. *)

Module EscapeSpec.

Definition entity (r : Z) : list Z :=
  if r =? 60 then Go.runes "&lt;"
  else if r =? 62 then Go.runes "&gt;"
  else if r =? 38 then Go.runes "&amp;"
  else if r =? 34 then Go.runes "&quot;"
  else if r =? 39 then Go.runes "&#39;"
  else [r].

Definition escaped (rs : list Z) : list Z := flat_map entity rs.

(** The HTML list that follows the paragraph when a message has media. *)
Definition media_list (msg : Message) : string :=
  match MediaList msg with
  | [] => ""
  | _ =>
    FeedService.media_content "<p><strong>Media attachments:</strong></p><ul>"
      (MediaList msg) +:+ "</ul>"
  end.

End EscapeSpec.

(** ** Environments and sample data used by the examples *)

(** An environment in which nothing fails. *)
Definition no_faults (now : Time) : Env :=
  mkEnv now (fun _ => false) (fun _ => false) (fun _ => false) (fun _ => false)
    (fun _ => false) (fun _ => false) (fun _ => FailsAtOpen).

Definition test_channel : Channel :=
  mkChannel "42" "testchannel" "Test Channel" 1 0 [] 0 true.

Definition test_message : Message :=
  mkMessage 1 "42" "Test Channel" "Hello <world>" 0 "Unknown" []
    "https://t.me/testchannel/1".

Definition test_disk : Disk :=
  mkDisk {[ "42.json" := RegularFile (Some test_channel) ]}
         {[ "42" := {[ "1.json" := RegularFile (Some test_message) ]} ]}.

(** ** Views of the message store used in the statements *)

(** The files of a channel's message directory (none when it is absent). *)
Definition message_files (d : Disk) (channelID : string)
    : gmap string (DirEntry Message) :=
  default ∅ (messages_dir d !! channelID).

(** The record stored under the key [(channelID, id)]. *)
Definition stored_message (d : Disk) (channelID : string) (id : Z)
    : option (DirEntry Message) :=
  message_files d channelID !! message_file id.

(** The number of directory entries listed under a file name. *)
Definition records_named {A} (name : string) (entries : list (string * DirEntry A)) : nat :=
  List.length (filter (fun e => e.1 = name) entries).

(** The disk after [os.MkdirAll] of a channel's message directory. *)
Definition with_message_dir (d : Disk) (channelID : string) : Disk :=
  mkDisk (channels_dir d)
    (<[channelID := message_files d channelID]> (messages_dir d)).

(** The disk after a message file has been written. *)
Definition with_message (d : Disk) (m : Message) : Disk :=
  mkDisk (channels_dir d)
    (<[ChannelID m := <[message_file (MsgID m) := RegularFile (Some m)]>
                        (message_files d (ChannelID m))]> (messages_dir d)).

(** The disk after a write of a message file has failed half-way, leaving
    a file that does not parse. *)
Definition with_damaged_message (d : Disk) (m : Message) : Disk :=
  mkDisk (channels_dir d)
    (<[ChannelID m := <[message_file (MsgID m) := RegularFile None]>
                        (message_files d (ChannelID m))]> (messages_dir d)).

(** The conditions under which [SaveMessage] goes through. *)
Definition save_message_succeeds (env : Env) (d : Disk) (m : Message) : Prop :=
  let msgDir := filepath_Join "messages" (ChannelID m) in
  mkdir_fails env msgDir = false /\
  marshal_message_fails env m = false /\
  write_fails env (filepath_Join msgDir (message_file (MsgID m))) = false /\
  stored_message d (ChannelID m) (MsgID m) <> Some Directory.

(** Two versions of the post with sequence id 7 of channel 42. *)
Definition post7_first : Message :=
  mkMessage 7 "42" "Test Channel" "first text" 100 "Unknown" []
    "https://t.me/testchannel/7".

Definition post7_second : Message :=
  mkMessage 7 "42" "Test Channel" "second text" 100 "Unknown" []
    "https://t.me/testchannel/7".

(** A store with the sample channel and no message directory. *)
Definition channel_only_disk : Disk :=
  mkDisk {[ "42.json" := RegularFile (Some test_channel) ]} ∅.

(** The sample channel switched off. *)
Definition paused_channel : Channel :=
  mkChannel "42" "testchannel" "Test Channel" 1 0 [] 0 false.

Definition paused_disk : Disk :=
  mkDisk {[ "42.json" := RegularFile (Some paused_channel) ]} ∅.

(** A post delivered for chat 42. *)
Definition sample_post : TgMessage :=
  mkTgMessage 8 42 "hello" "" 1700000000 None [] None None None.

(** The message the handlers build from [sample_post]. *)
Definition sample_post_message : Message :=
  mkMessage 8 "42" "Test Channel" "hello" 1700000000 "Unknown" []
    "https://t.me/testchannel/8".

(** An environment in which every write below [channels/] fails, after
    the file has been truncated. *)
Definition channel_writes_fail (now : Time) : Env :=
  mkEnv now (fun _ => false) (fun path => Go.HasPrefix path "channels/")
    (fun _ => false) (fun _ => false) (fun _ => false) (fun _ => false)
    (fun _ => FailsAtWrite).

(** The message with sequence id [id] of channel 42. *)
Definition numbered_post (id : Z) : Message :=
  mkMessage id "42" "Test Channel" ("post " +:+ Go.itoa id) id "Unknown" []
    ("https://t.me/testchannel/" +:+ Go.itoa id).

(** The store after the posts 50, 51, ..., 100 of channel 42 have been
    saved in this order. *)
Definition disk_posts_50_to_100 : Disk :=
  fold_left
    (fun d id => (MessageStore.SaveMessage (no_faults 0) d (numbered_post id)).2)
    (map Z.of_nat (seq 50 51)) channel_only_disk.

(** What the listing loop reads from one directory entry. *)
Definition readable (env : Env) (msgDir : string) (e : string * DirEntry Message)
    : option Message :=
  match e.2 with
  | Directory => None
  | RegularFile decoded =>
    if negb (String.eqb (filepath_Ext e.1) ".json") then None
    else if read_fails env (filepath_Join msgDir e.1) then None
    else decoded
  end.

(** A channel that lets through posts mentioning the news ("новости"). *)
Definition news_filter : Filter := mkFilter FilterTypeKeywords ["новости"] true.

Definition news_channel : Channel :=
  mkChannel "42" "testchannel" "Test Channel" 1 0 [news_filter] 0 true.

(** A post whose text starts with the capitalised keyword. *)
Definition news_post : TgMessage :=
  mkTgMessage 9 42 "Новости дня" "" 1700000000 None [] None None None.

(** A filter list all of whose keywords are ASCII. *)
Definition ascii_keywords (filters : list Filter) : Prop :=
  Forall (fun f => Forall (fun keyword => Go.isASCII keyword = true) (Keywords f)) filters.

(** The characters that escaping must not leave in its output. *)
Definition is_markup (b : Z) : Prop := b = 60 \/ b = 62 \/ b = 34 \/ b = 39.

(** ** Declarative reading of a filter list

    A filter admits a text, given the test that tells which keywords match
    it: a disabled filter always does; an enabled include filter needs a
    matching keyword; an enabled exclude filter must have none. *)
Definition filter_admits (matches : string -> bool) (f : Filter) : Prop :=
  Enabled f = true ->
  (Type_ f = FilterTypeKeywords ->
     exists keyword, In keyword (Keywords f) /\ matches keyword = true) /\
  (Type_ f = FilterTypeExcludeKeywords ->
     forall keyword, In keyword (Keywords f) -> matches keyword = false).


(** [channel.Filters = filters]. *)
Definition set_Filters (channel : Channel) (filters : list Filter) : Channel :=
  mkChannel (ID channel) (Username channel) (Title channel) (AddedBy channel)
    (AddedAt channel) filters (LastUpdate channel) (IsActive channel).


(** ** The rest of the channel store *)

(** [lo.FilterMap]: the images of the elements the callback keeps, in
    order; the callback also receives the index. *)
Fixpoint lo_FilterMap_from {A B} (i : nat) (callback : A -> nat -> option B)
    (collection : list A) : list B :=
  match collection with
  | [] => []
  | item :: rest =>
    match callback item i with
    | Some r => r :: lo_FilterMap_from (S i) callback rest
    | None => lo_FilterMap_from (S i) callback rest
    end
  end.

Definition lo_FilterMap {A B} (collection : list A) (callback : A -> nat -> option B)
    : list B :=
  lo_FilterMap_from 0 callback collection.

Module ChannelRepo.

(** The callback of [GetAllChannels]: directories, files that are not
    [.json], unreadable files and files that do not parse are left out. *)
Definition load_entry (env : Env) (entry : string * DirEntry Channel) (_ : nat)
    : option Channel :=
  match entry.2 with
  | Directory => None
  | RegularFile decoded =>
    if negb (String.eqb (filepath_Ext entry.1) ".json") then None
    else if read_fails env (filepath_Join "channels" entry.1) then None
    else decoded
  end.

(** [FileStorage.GetAllChannels]. *)
Definition GetAllChannels (env : Env) (d : Disk) : result (list Channel) :=
  if readdir_fails env "channels" then
    Err (ErrWrap "failed to read channels directory" (ErrOS "readdir" "channels"))
  else Ok (lo_FilterMap (ReadDir (channels_dir d)) (load_entry env)).

(** [FileStorage.DeleteChannel]: [os.Remove] of the channel file, for a
    channel id that is a path element (the path then names an entry of
    the channels directory).  [remove_fails] is the environment's say on a
    removal that could go through; removing a path that does not exist
    always fails. *)
Definition DeleteChannel (remove_fails : string -> bool) (d : Disk) (channelID : string)
    : option error * Disk :=
  let path := filepath_Join "channels" (channel_file channelID) in
  match channels_dir d !! channel_file channelID with
  | None => (Some (ErrOS "remove" path), d)
  | Some _ =>
    if remove_fails path then (Some (ErrOS "remove" path), d)
    else (None, mkDisk (delete (channel_file channelID) (channels_dir d)) (messages_dir d))
  end.

End ChannelRepo.

(** ** The channel monitor ([Service] of the channel module and the flat
       [ChannelMonitor], which run the same code)

    The monitor's [channels map[string]bool] only ever holds [true]: it is
    the set of its keys. *)

Module Monitor.

Definition AddChannel (channels : gset string) (channelID : string) : gset string :=
  {[channelID]} ∪ channels.

Definition RemoveChannel (channels : gset string) (channelID : string) : gset string :=
  channels ∖ {[channelID]}.

(** The loop of [Start] over the stored channels. *)
Fixpoint Start_loop (channels : gset string) (stored : list Channel) : gset string :=
  match stored with
  | [] => channels
  | ch :: rest =>
    if IsActive ch then Start_loop (AddChannel channels (ID ch)) rest
    else Start_loop channels rest
  end.

(** What [Start] leaves running when it returns. *)
Inductive Goroutine := monitorLoop.

(** [Start]: the stored channels are loaded into the active set, then the
    monitoring loop is launched with [go]; [Start] returns without waiting
    for it.  The result is the world and the active set at that point and
    the goroutines launched.  The loop then sweeps the active set, one
    [fetchChannelMessages] per id, at once and at every tick. *)
Definition Start (env : Env) (w : World) (channels : gset string)
    : World * gset string * list Goroutine :=
  let '(w', channels') :=
    match ChannelRepo.GetAllChannels env (disk w) with
    | Err _ => (slog LevelError "Failed to load channels" w, channels)
    | Ok stored => (w, Start_loop channels stored)
    end in
  (w', channels', [monitorLoop]).

(** [Service.DeleteChannel]: the channel leaves the active set first, then
    its file is removed. *)
Definition DeleteChannel (remove_fails : string -> bool) (d : Disk)
    (channels : gset string) (channelID : string) : option error * Disk * gset string :=
  let channels' := RemoveChannel channels channelID in
  let '(err, d') := ChannelRepo.DeleteChannel remove_fails d channelID in
  (err, d', channels').

(** The errors of [fetchChannelMessages]. *)
Inductive SweepError :=
  | BotNotInitialized
  | GetChannelFailed (cause : error).

(** [fetchChannelMessages]: the unit of work of one sweep for one channel
    id; [has_bot] says whether the bot pointer is set. *)
Definition fetchChannelMessages (has_bot : bool) (env : Env) (w : World)
    (channelID : string) : option SweepError * World :=
  if negb has_bot then (Some BotNotInitialized, w)
  else
    match ChannelStore.GetChannel env (disk w) channelID with
    | Err err => (Some (GetChannelFailed err), w)
    | Ok channel =>
      if negb (IsActive channel) then (None, w)
      else
        let w1 := slog LevelDebug "Channel monitoring check" w in
        let channel' := Modular.set_LastUpdate channel (time_Now env) in
        match ChannelStore.SaveChannel env (disk w1) channel' with
        | (Some _, d2) =>
          (None, slog LevelError "Failed to update channel last update time"
                   (mkWorld d2 (log w1)))
        | (None, d2) => (None, mkWorld d2 (log w1))
        end
    end.

End Monitor.


(** ** The rest of the message store *)

Module MessageRepo.

(** The loop of [GetRecentMessages] over the entries in listing order:
    the readable messages dated after [since]. *)
Fixpoint GetRecentMessages_loop (env : Env) (msgDir : string)
    (entries : list (string * DirEntry Message)) (since : Time)
    (messages : list Message) : list Message :=
  match entries with
  | [] => messages
  | (name, entry) :: rest =>
    match entry with
    | Directory => GetRecentMessages_loop env msgDir rest since messages
    | RegularFile decoded =>
      if negb (String.eqb (filepath_Ext name) ".json") then
        GetRecentMessages_loop env msgDir rest since messages
      else if read_fails env (filepath_Join msgDir name) then
        GetRecentMessages_loop env msgDir rest since messages
      else
        match decoded with
        | None => GetRecentMessages_loop env msgDir rest since messages
        | Some message =>
          if since <? Date message then
            GetRecentMessages_loop env msgDir rest since (messages ++ [message])
          else GetRecentMessages_loop env msgDir rest since messages
        end
    end
  end.

(** [FileStorage.GetRecentMessages]. *)
Definition GetRecentMessages (env : Env) (d : Disk) (channelID : string) (since : Time)
    : result (list Message) :=
  let msgDir := filepath_Join "messages" channelID in
  match messages_dir d !! channelID with
  | None => Ok []
  | Some files =>
    if readdir_fails env msgDir then
      Err (ErrWrap "failed to read messages directory" (ErrOS "readdir" msgDir))
    else Ok (GetRecentMessages_loop env msgDir (ReadDir files) since [])
  end.

End MessageRepo.

(** ** Consistency of the message store

    Every message file sits in the directory of the channel it names and
    under the file name of its own sequence id. *)
Definition well_keyed (d : Disk) : Prop :=
  forall channelID files name message,
    messages_dir d !! channelID = Some files ->
    files !! name = Some (RegularFile (Some message)) ->
    ChannelID message = channelID /\ name = message_file (MsgID message).


(** ** The message each handler builds from a post *)

(** [Handler.processChannelPost] of the modular code hands the text, or the
    caption of a post without text, to [ProcessMessage], which files the
    message under [channel.ID]. *)
Definition modular_message (channel : Channel) (msg : TgMessage) : Message :=
  mkMessage (TgID msg) (ID channel) (Title channel) (BotHandler.filter_text msg)
    (time_Unix (TgDate msg)) (getAuthorName msg) (extractMedia msg)
    (post_link channel msg).

(** [BotHandler.processChannelPost] of the flat code stores [msg.Text]
    under the chat id. *)
Definition flat_message (channel : Channel) (msg : TgMessage) : Message :=
  mkMessage (TgID msg) (Go.itoa (ChatID msg)) (Title channel) (TgText msg)
    (time_Unix (TgDate msg)) (getAuthorName msg) (extractMedia msg)
    (post_link channel msg).

(** A photo post with a caption and no text. *)
Definition captioned_photo : TgMessage :=
  mkTgMessage 9 42 "" "Sunset over the bay" 1700000000 None ["small"; "large"]
    None None None.


(** ** More of the Go library: what the command handlers use *)

Module GoStrings.

(** The table [asciiSpace] of package [strings]. *)
Definition asciiSpace (c : ascii) : bool :=
  let b := Go.byte_val c in Go.in_range 9 13 b || (b =? 32).

(** [unicode.IsSpace]: the Latin-1 cases, then the [White_Space] table. *)
Definition IsSpace (r : Z) : bool :=
  if (0 <=? r) && (r <=? 0xFF) then
    Go.in_range 9 13 r || (r =? 32) || (r =? 0x85) || (r =? 0xA0)
  else
    (r =? 0x1680) || Go.in_range 0x2000 0x200A r || Go.in_range 0x2028 0x2029 r ||
    (r =? 0x202F) || (r =? 0x205F) || (r =? 0x3000).

(** The ASCII path of [strings.Fields]; [field] is [s[fieldStart:i]], the
    bytes read since the last white space. *)
Fixpoint Fields_ascii (field : string) (s : string) : list string :=
  match s with
  | EmptyString => if String.eqb field "" then [] else [field]
  | String c r =>
    if asciiSpace c then
      if String.eqb field "" then Fields_ascii "" r
      else field :: Fields_ascii "" r
    else Fields_ascii (field +:+ String c "") r
  end.

(** [strings.FieldsFunc]: the loop [for end, rune := range s]; [field] is
    [s[start:end]] while [start >= 0] and [None] otherwise, [skip] counts
    the bytes of the current rune that are still ahead. *)
Fixpoint FieldsFunc_from (f : Z -> bool) (skip : nat) (field : option string)
    (s : string) : list string :=
  match s with
  | EmptyString =>
    match field with
    | Some fld => [fld]
    | None => []
    end
  | String c r =>
    match skip with
    | S k =>
      FieldsFunc_from f k (option_map (fun fld => fld +:+ String c "") field) r
    | O =>
      let '(rn, w) := Go.DecodeRuneInString s in
      if f rn then
        match field with
        | Some fld => fld :: FieldsFunc_from f (pred w) None r
        | None => FieldsFunc_from f (pred w) None r
        end
      else
        FieldsFunc_from f (pred w) (Some (default "" field +:+ String c "")) r
    end
  end.

Definition FieldsFunc (s : string) (f : Z -> bool) : list string :=
  FieldsFunc_from f 0 None s.

(** [strings.Fields]. *)
Definition Fields (s : string) : list string :=
  if Go.isASCII s then Fields_ascii "" s else FieldsFunc s IsSpace.

(** The loop of [strings.Split] for a non-empty separator: [field] is the
    part of [s] since the last separator, [skip] counts the bytes of the
    separator found last that are still ahead. *)
Fixpoint Split_from (skip : nat) (field : string) (s sep : string) : list string :=
  match s with
  | EmptyString => [field]
  | String c r =>
    match skip with
    | S k => Split_from k field r sep
    | O =>
      if Go.HasPrefix s sep then field :: Split_from (pred (String.length sep)) "" r sep
      else Split_from 0 (field +:+ String c "") r sep
    end
  end.

(** [strings.Split(s, sep)] for a non-empty [sep]; it is the comma at the
    only call. *)
Definition Split (s sep : string) : list string := Split_from 0 "" s sep.

(** [strings.TrimPrefix]. *)
Definition TrimPrefix (s prefix : string) : string :=
  if Go.HasPrefix s prefix then Go.slice s (String.length prefix) (String.length s)
  else s.

(** [strings.Join]. *)
Fixpoint Join (elems : list string) (sep : string) : string :=
  match elems with
  | [] => ""
  | [e] => e
  | e :: rest => e +:+ sep +:+ Join rest sep
  end.

Definition digit (c : ascii) : option Z :=
  let b := Go.byte_val c in
  if Go.in_range 48 57 b then Some (b - 48) else None.

Fixpoint digits_value (n : Z) (s : string) : option Z :=
  match s with
  | EmptyString => Some n
  | String c r =>
    match digit c with
    | Some v => digits_value (n * 10 + v) r
    | None => None
    end
  end.

(** [strconv.Atoi] with a 64-bit [int]: an optional sign, then decimal
    digits, the value within the range of [int].  [None] stands for the
    [*NumError] it returns otherwise (syntax or range). *)
Definition Atoi (s : string) : option Z :=
  let '(neg, digits) :=
    match s with
    | String "-" r => (true, r)
    | String "+" r => (false, r)
    | _ => (false, s)
    end in
  if String.eqb digits "" then None
  else
    match digits_value 0 digits with
    | None => None
    | Some n =>
      let v := if neg : bool then - n else n in
      if (- 2 ^ 63 <=? v) && (v <=? 2 ^ 63 - 1) then Some v else None
    end.

End GoStrings.

(** ** The bot's command handlers

    The handlers of the flat [BotHandler] and of the modular [Handler]
    have the same text up to the service through which the store is
    reached; they differ in [checkAuthorization], in [handleStart] and in
    the order of the two steps of [handleRemoveChannel]. *)

Record User := mkUser
  { UserID : Z; UserUsername : string; UserAddedAt : Time; IsAdmin : bool }.

(** What [GetChat] returns of a chat. *)
Record TgChat := mkTgChat { TgChatID : Z; TgChatTitle : string }.

(** A text message sent to the bot by a user: [update.Message] with its
    [From] set. *)
Record Update := mkUpdate
  { FromID : Z; FromUsername : string; UpdateChatID : Z; UpdateText : string }.

(** The text of a [SendMessage] call.  Where the source formats an error
    with [%v], the text of the error is left out: [WithError before after]
    stands for [before], the error, then [after]. *)
Inductive Reply :=
  | Plain (text : string)
  | WithError (before after : string).

(** What a handler can reach: the storage directory and the log, the
    [users/] directory, the monitor's set of channel ids, and the messages
    sent so far, each with the chat it went to. *)
Record Bot := mkBot
  { world : World;
    users_dir : gmap string (DirEntry User);
    monitored : gset string;
    sent : list (Z * Reply) }.

(** What the surroundings decide during one handler call, beyond [Env]:
    the answer of Telegram to [GetChat] ([None] for an error), the failures
    of [os.Remove] and of the JSON encoder on a user, and the second
    reading of the clock where a handler reads it twice. *)
Record Host := mkHost
  { host_env : Env;
    GetChat : string -> option TgChat;
    remove_fails : string -> bool;
    marshal_user_fails : User -> bool;
    time_Now_again : Time }.

Definition SendMessage (chatID : Z) (text : Reply) (b : Bot) : Bot :=
  mkBot (world b) (users_dir b) (monitored b) (sent b ++ [(chatID, text)]).

Definition with_disk (b : Bot) (d : Disk) : Bot :=
  mkBot (mkWorld d (log (world b))) (users_dir b) (monitored b) (sent b).

Definition with_monitored (b : Bot) (channels : gset string) : Bot :=
  mkBot (world b) (users_dir b) channels (sent b).

(** *** The user store of the flat [FileStorage] *)

Module UserStore.

Definition user_file (userID : Z) : string := Go.itoa userID +:+ ".json".

Inductive user_error :=
  | ErrUserNotFound
  | ErrUserRead (path : string)
  | ErrUserUnmarshal.

(** [FileStorage.SaveUser]. *)
Definition SaveUser (h : Host) (users : gmap string (DirEntry User)) (user : User)
    : option error * gmap string (DirEntry User) :=
  let path := filepath_Join "users" (user_file (UserID user)) in
  if marshal_user_fails h user then
    (Some (ErrWrap "failed to marshal user" (ErrJSON "user")), users)
  else WriteFile (host_env h) path (user_file (UserID user)) user users.

(** [FileStorage.GetUser]. *)
Definition GetUser (h : Host) (users : gmap string (DirEntry User)) (userID : Z)
    : user_error + User :=
  let path := filepath_Join "users" (user_file userID) in
  match users !! user_file userID with
  | None => inl ErrUserNotFound
  | Some Directory => inl (ErrUserRead path)
  | Some (RegularFile decoded) =>
    if read_fails (host_env h) path then inl (ErrUserRead path)
    else
      match decoded with
      | None => inl ErrUserUnmarshal
      | Some user => inr user
      end
  end.

End UserStore.

(** *** The texts the handlers send *)

Definition welcome_text : string :=
"👋 Welcome to RSS Telegram Feed Bot!

I help you create RSS feeds from Telegram channels.

Available commands:
/help - Show this help message
/addchannel <channel_username> - Add a channel to monitor
/removechannel <channel_id> - Remove a channel
/listchannels - List all monitored channels
/addfilter <channel_id> <keyword1,keyword2> - Add keyword filter
/removefilter <channel_id> <filter_index> - Remove a filter
/rsslink <channel_id> - Get RSS feed link
/status - Show bot status

Example:
/addchannel @example_channel".

Definition unauthorized : Reply := Plain "❌ Unauthorized".

(** [fmt.Sprintf("%v", keywords)] for a slice of strings. *)
Definition Sprint_strings (l : list string) : string :=
  "[" +:+ GoStrings.Join l " " +:+ "]".

(** *** The handlers both packages share *)

Module Commands.
Section WithAuthorization.

(** [h.checkAuthorization] of the package at hand. *)
Variable checkAuthorization : Host -> Bot -> Z -> bool.

(** [handleAddChannel]. *)
Definition handleAddChannel (h : Host) (b : Bot) (update : Update) : Bot :=
  let chat := UpdateChatID update in
  if negb (checkAuthorization h b (FromID update)) then SendMessage chat unauthorized b
  else
    let parts := GoStrings.Fields (UpdateText update) in
    if (List.length parts <? 2)%nat then
      SendMessage chat
        (Plain ("Usage: /addchannel <channel_username>" +:+ FeedService.nl +:+
                "Example: /addchannel @example_channel")) b
    else
      let channelUsername := GoStrings.TrimPrefix (nth 1 parts "") "@" in
      match GetChat h channelUsername with
      | None =>
        SendMessage chat
          (WithError "❌ Failed to get channel info: "
             (FeedService.nl +:+
              "Make sure the bot is added to the channel as an administrator.")) b
      | Some info =>
        let channel :=
          mkChannel (Go.itoa (TgChatID info)) channelUsername (TgChatTitle info)
            (FromID update) (time_Now (host_env h)) [] (time_Now_again h) true in
        match ChannelStore.SaveChannel (host_env h) (disk (world b)) channel with
        | (Some _, d') =>
          SendMessage chat (WithError "❌ Failed to save channel: " "") (with_disk b d')
        | (None, d') =>
          let b' := with_disk b d' in
          let b' := with_monitored b' (Monitor.AddChannel (monitored b') (ID channel)) in
          SendMessage chat
            (Plain ("✅ Channel @" +:+ channelUsername +:+ " added successfully!" +:+
                    FeedService.nl +:+ "Channel ID: " +:+ ID channel)) b'
        end
      end.

(** [handleAddFilter]. *)
Definition handleAddFilter (h : Host) (b : Bot) (update : Update) : Bot :=
  let chat := UpdateChatID update in
  if negb (checkAuthorization h b (FromID update)) then SendMessage chat unauthorized b
  else
    let parts := GoStrings.Fields (UpdateText update) in
    if (List.length parts <? 3)%nat then
      SendMessage chat
        (Plain ("Usage: /addfilter <channel_id> <keyword1,keyword2,...>" +:+
                FeedService.nl +:+ "Example: /addfilter 123456789 tech,programming")) b
    else
      let channelID := nth 1 parts "" in
      let keywords := GoStrings.Split (nth 2 parts "") "," in
      match ChannelStore.GetChannel (host_env h) (disk (world b)) channelID with
      | Err _ => SendMessage chat (Plain ("❌ Channel not found: " +:+ channelID)) b
      | Ok channel =>
        let filter := mkFilter FilterTypeKeywords keywords true in
        let channel := set_Filters channel (Filters channel ++ [filter]) in
        match ChannelStore.SaveChannel (host_env h) (disk (world b)) channel with
        | (Some _, d') =>
          SendMessage chat (WithError "❌ Failed to save filter: " "") (with_disk b d')
        | (None, d') =>
          SendMessage chat
            (Plain ("✅ Filter added to channel " +:+ channelID +:+ FeedService.nl +:+
                    "Keywords: " +:+ Sprint_strings keywords)) (with_disk b d')
        end
      end.

(** [handleRemoveFilter]. *)
Definition handleRemoveFilter (h : Host) (b : Bot) (update : Update) : Bot :=
  let chat := UpdateChatID update in
  if negb (checkAuthorization h b (FromID update)) then SendMessage chat unauthorized b
  else
    let parts := GoStrings.Fields (UpdateText update) in
    if (List.length parts <? 3)%nat then
      SendMessage chat (Plain "Usage: /removefilter <channel_id> <filter_index>") b
    else
      let channelID := nth 1 parts "" in
      match GoStrings.Atoi (nth 2 parts "") with
      | None => SendMessage chat (Plain "❌ Invalid filter index") b
      | Some index =>
        if index <? 1 then SendMessage chat (Plain "❌ Invalid filter index") b
        else
          match ChannelStore.GetChannel (host_env h) (disk (world b)) channelID with
          | Err _ => SendMessage chat (Plain ("❌ Channel not found: " +:+ channelID)) b
          | Ok channel =>
            if Z.of_nat (List.length (Filters channel)) <? index then
              SendMessage chat (Plain "❌ Filter index out of range") b
            else
              let filters :=
                take (Z.to_nat (index - 1)) (Filters channel) ++
                drop (Z.to_nat index) (Filters channel) in
              let channel := set_Filters channel filters in
              match ChannelStore.SaveChannel (host_env h) (disk (world b)) channel with
              | (Some _, d') =>
                SendMessage chat (WithError "❌ Failed to remove filter: " "")
                  (with_disk b d')
              | (None, d') =>
                SendMessage chat
                  (Plain ("✅ Filter " +:+ Go.itoa index +:+ " removed from channel " +:+
                          channelID)) (with_disk b d')
              end
          end
      end.

End WithAuthorization.
End Commands.

(** *** The flat package *)

Module FlatBot.
Section WithConfig.

(** [cfg.AllowedUsers]. *)
Variable AllowedUsers : list Z.

(** [BotHandler.checkAuthorization]. *)
Definition checkAuthorization (h : Host) (b : Bot) (userID : Z) : bool :=
  if (0 <? List.length AllowedUsers)%nat then existsb (fun id => id =? userID) AllowedUsers
  else
    match UserStore.GetUser h (users_dir b) userID with
    | inr _ => true
    | inl _ => false
    end.

(** [BotHandler.handleStart]. *)
Definition handleStart (h : Host) (b : Bot) (update : Update) : Bot :=
  let userID := FromID update in
  let chat := UpdateChatID update in
  if negb (checkAuthorization h b userID) then
    if (List.length AllowedUsers =? 0)%nat then
      let user := mkUser userID (FromUsername update) (time_Now (host_env h)) true in
      let b1 :=
        match UserStore.SaveUser h (users_dir b) user with
        | (Some _, users') =>
          mkBot (slog LevelError "Failed to save user" (world b)) users'
            (monitored b) (sent b)
        | (None, users') => mkBot (world b) users' (monitored b) (sent b)
        end in
      SendMessage chat (Plain welcome_text) b1
    else SendMessage chat (Plain "❌ You are not authorized to use this bot.") b
  else SendMessage chat (Plain welcome_text) b.

(** [BotHandler.handleRemoveChannel]: the file is removed first; the
    channel leaves the monitor only when that went through. *)
Definition handleRemoveChannel (h : Host) (b : Bot) (update : Update) : Bot :=
  let chat := UpdateChatID update in
  if negb (checkAuthorization h b (FromID update)) then SendMessage chat unauthorized b
  else
    let parts := GoStrings.Fields (UpdateText update) in
    if (List.length parts <? 2)%nat then
      SendMessage chat (Plain "Usage: /removechannel <channel_id>") b
    else
      let channelID := nth 1 parts "" in
      match ChannelRepo.DeleteChannel (remove_fails h) (disk (world b)) channelID with
      | (Some _, d') =>
        SendMessage chat (WithError "❌ Failed to remove channel: " "") (with_disk b d')
      | (None, d') =>
        let b' := with_disk b d' in
        let b' := with_monitored b' (Monitor.RemoveChannel (monitored b') channelID) in
        SendMessage chat
          (Plain ("✅ Channel " +:+ channelID +:+ " removed successfully!")) b'
      end.

Definition handleAddChannel := Commands.handleAddChannel checkAuthorization.
Definition handleAddFilter := Commands.handleAddFilter checkAuthorization.
Definition handleRemoveFilter := Commands.handleRemoveFilter checkAuthorization.

End WithConfig.
End FlatBot.

(** *** The modular package *)

Module ModularBot.
Section WithConfig.

(** [cfg.AllowedUsers]. *)
Variable AllowedUsers : list Z.

(** [SaveUser] of the user repository, whose implementation is not part
    of the sources at hand. *)
Variable SaveUser :
  Host -> gmap string (DirEntry User) -> User -> option error * gmap string (DirEntry User).

(** [Service.IsAuthorized] of the user module. *)
Definition IsAuthorized (userID : Z) (allowedUsers : list Z) : bool :=
  if (List.length allowedUsers =? 0)%nat then true
  else existsb (fun id => id =? userID) allowedUsers.

(** [Handler.checkAuthorization]. *)
Definition checkAuthorization (h : Host) (b : Bot) (userID : Z) : bool :=
  IsAuthorized userID AllowedUsers.

(** [Handler.handleStart]. *)
Definition handleStart (h : Host) (b : Bot) (update : Update) : Bot :=
  let userID := FromID update in
  let chat := UpdateChatID update in
  if negb (checkAuthorization h b userID) then
    if (List.length AllowedUsers =? 0)%nat then
      let user := mkUser userID (FromUsername update) (time_Now (host_env h)) true in
      let b1 :=
        match SaveUser h (users_dir b) user with
        | (Some _, users') =>
          mkBot (slog LevelError "Failed to save user" (world b)) users'
            (monitored b) (sent b)
        | (None, users') => mkBot (world b) users' (monitored b) (sent b)
        end in
      SendMessage chat (Plain welcome_text) b1
    else SendMessage chat (Plain "❌ You are not authorized to use this bot.") b
  else SendMessage chat (Plain welcome_text) b.

(** [Handler.handleRemoveChannel], through [Service.DeleteChannel]: the
    channel leaves the monitor before the file is removed. *)
Definition handleRemoveChannel (h : Host) (b : Bot) (update : Update) : Bot :=
  let chat := UpdateChatID update in
  if negb (checkAuthorization h b (FromID update)) then SendMessage chat unauthorized b
  else
    let parts := GoStrings.Fields (UpdateText update) in
    if (List.length parts <? 2)%nat then
      SendMessage chat (Plain "Usage: /removechannel <channel_id>") b
    else
      let channelID := nth 1 parts "" in
      match Monitor.DeleteChannel (remove_fails h) (disk (world b)) (monitored b) channelID with
      | (Some _, d', channels') =>
        SendMessage chat (WithError "❌ Failed to remove channel: " "")
          (with_monitored (with_disk b d') channels')
      | (None, d', channels') =>
        SendMessage chat
          (Plain ("✅ Channel " +:+ channelID +:+ " removed successfully!"))
          (with_monitored (with_disk b d') channels')
      end.

Definition handleAddChannel := Commands.handleAddChannel checkAuthorization.
Definition handleAddFilter := Commands.handleAddFilter checkAuthorization.
Definition handleRemoveFilter := Commands.handleRemoveFilter checkAuthorization.

End WithConfig.
End ModularBot.

(** ** Sample data for the command handlers *)

(** A host on which nothing fails and Telegram knows the sample channel. *)
Definition test_host (now : Time) : Host :=
  mkHost (no_faults now)
    (fun name => if String.eqb name "testchannel"
                 then Some (mkTgChat 42 "Test Channel") else None)
    (fun _ => false) (fun _ => false) now.

(** The bot over the sample store, with no user registered, nothing
    monitored and nothing sent. *)
Definition test_bot : Bot := mkBot (mkWorld test_disk []) ∅ ∅ [].

(** A user directory in which nobody can be saved. *)
Definition SaveUser_refused (h : Host) (users : gmap string (DirEntry User)) (user : User)
    : option error * gmap string (DirEntry User) :=
  (Some (ErrOS "write" "users"), users).


(** ** The HTTP endpoint of the feed ([Server.handleRSSFeed] and
       [RSSServer.handleRSSFeed], which have the same text) *)

(** What the handler reads of a request: the [channelID] path value,
    whether the connection is TLS, the first [X-Forwarded-Proto] header
    (empty when absent) and the [Host]. *)
Record Request := mkRequest
  { PathValue_channelID : string; TLS : bool; X_Forwarded_Proto : string;
    RequestHost : string }.

Record Response := mkResponse
  { StatusCode : Z; Header : list (string * string); Body : string }.

Definition StatusOK : Z := 200.
Definition StatusBadRequest : Z := 400.
Definition StatusInternalServerError : Z := 500.

Module HTTPServer.
Section WithFeedLibrary.

(** [feed.ToRss] of the feeds library, [None] for its error. *)
Variable ToRss : Feed -> option string.

Definition getScheme (r : Request) : string :=
  if TLS r then "https"
  else if negb (String.eqb (X_Forwarded_Proto r) "") then X_Forwarded_Proto r
  else "http".

(** [http.Error]. *)
Definition http_Error (error : string) (code : Z) : Response :=
  mkResponse code
    [("Content-Type", "text/plain; charset=utf-8"); ("X-Content-Type-Options", "nosniff")]
    (error +:+ FeedService.nl).

(** [handleRSSFeed]: the response written and the world after the call. *)
Definition handleRSSFeed (env : Env) (w : World) (r : Request) : Response * World :=
  let channelID := PathValue_channelID r in
  if String.eqb channelID "" then
    (http_Error "Channel ID is required" StatusBadRequest, w)
  else
    let baseURL := getScheme r +:+ "://" +:+ RequestHost r in
    match FeedService.GenerateFeed env (disk w) channelID baseURL with
    | Err _ =>
      (http_Error "Failed to generate feed" StatusInternalServerError,
       slog LevelError "Error generating feed" w)
    | Ok feed =>
      match ToRss feed with
      | None =>
        (http_Error "Failed to generate RSS" StatusInternalServerError,
         slog LevelError "Error converting feed to RSS" w)
      | Some rss =>
        (mkResponse StatusOK
           [("Content-Type", "application/rss+xml; charset=utf-8");
            ("Cache-Control", "public, max-age=300")] rss, w)
      end
    end.

End WithFeedLibrary.
End HTTPServer.

(** A stand-in for the feeds library that renders a feed as its link. *)
Definition ToRss_link (feed : Feed) : option string := Some (FeedLink feed).

(** ** Plain text for [escapeHTML] *)

(** The five characters [escapeHTML] replaces. *)
Definition special (c : ascii) : bool :=
  let b := Go.byte_val c in
  (b =? 60) || (b =? 62) || (b =? 38) || (b =? 34) || (b =? 39).

Fixpoint has_special (s : string) : bool :=
  match s with
  | EmptyString => false
  | String c r => special c || has_special r
  end.




(** The sample store with a second channel, 43, that has one message. *)
Definition second_channel : Channel :=
  mkChannel "43" "otherchannel" "Other Channel" 1 0 [] 0 true.

Definition second_channel_message : Message :=
  mkMessage 5 "43" "Other Channel" "Elsewhere" 0 "Unknown" []
    "https://t.me/otherchannel/5".

Definition two_channel_disk : Disk :=
  mkDisk {[ "42.json" := RegularFile (Some test_channel);
            "43.json" := RegularFile (Some second_channel) ]}
         {[ "42" := {[ "1.json" := RegularFile (Some test_message) ]};
            "43" := {[ "5.json" := RegularFile (Some second_channel_message) ]} ]}.


(** * Properties *)

(** ** Strings *)

Example runes_hello : Go.runes "hi" = [104; 105].
Proof. reflexivity. Qed.

Example itoa_ex : Go.itoa (-42) = "-42" /\ Go.itoa 0 = "0" /\ Go.itoa 100 = "100".
Proof. repeat split; reflexivity. Qed.

Example filepath_Ext_ex :
  filepath_Ext "7.json" = ".json" /\ filepath_Ext "a.b.json" = ".json" /\
  filepath_Ext "json" = "" /\ filepath_Ext "x." = ".".
Proof. repeat split; reflexivity. Qed.

Lemma ascii_eqb_true (a b : ascii) : Ascii.eqb a b = true <-> a = b.
Proof. apply Ascii.eqb_eq. Qed.

Lemma HasPrefix_spec (s p : string) :
  Go.HasPrefix s p = true <-> exists suf, s = p +:+ suf.
Proof.
  revert s. induction p as [|c p IH]; intros s; simpl.
  - split; [intros _; by exists s | done].
  - destruct s as [|d s].
    + split; [done | intros [suf H]; discriminate].
    + destruct (Ascii.eqb d c) eqn:E.
      * apply Ascii.eqb_eq in E as ->. rewrite IH.
        split; intros [suf H]; exists suf; [by rewrite H | by inversion H].
      * split; [done|]. intros [suf H]. inversion H; subst.
        rewrite Ascii.eqb_refl in E. discriminate.
Qed.

Lemma string_app_assoc (a b c : string) : (a +:+ b) +:+ c = a +:+ (b +:+ c).
Proof. induction a as [|x a IH]; simpl; [done | by rewrite IH]. Qed.

Lemma Contains_spec (s sub : string) :
  Go.Contains s sub = true <-> exists pre suf, s = pre +:+ sub +:+ suf.
Proof.
  induction s as [|c s IH]; simpl.
  - rewrite orb_false_r, HasPrefix_spec. split.
    + intros [suf H]. by exists "", suf.
    + intros [pre [suf H]]. destruct pre; [by exists suf | discriminate].
  - rewrite orb_true_iff, HasPrefix_spec, IH. split.
    + intros [[suf H] | [pre [suf H]]].
      * by exists "", suf.
      * exists (String c pre), suf. simpl. by rewrite H.
    + intros [pre [suf H]]. destruct pre as [|d pre]; simpl in H.
      * left. by exists suf.
      * right. inversion H. by exists pre, suf.
Qed.

(** The fuel of the case-table search is never used up: with more than
    [hi - lo] units, one more unit changes nothing. *)
Lemma to_lower_search_fuel (table : list Go.CaseRange) (r : Z) (k lo hi : nat) :
  (hi - lo < k)%nat ->
  Go.to_lower_search (S k) table lo hi r = Go.to_lower_search k table lo hi r.
Proof.
  revert lo hi. induction k as [|k IH]; intros lo hi Hk; [lia|].
  cbn [Go.to_lower_search].
  destruct (Nat.ltb_spec lo hi) as [Hlt|Hge]; [|done].
  assert (Hm : (lo <= (lo + hi) / 2 < hi)%nat).
  { pose proof (Nat.div_mod_eq (lo + hi) 2).
    pose proof (Nat.mod_upper_bound (lo + hi) 2). lia. }
  destruct (table !! ((lo + hi) / 2)%nat) as [cr|]; [|done].
  destruct ((Go.Lo cr <=? r) && (r <=? Go.Hi cr)); [done|].
  destruct (r <? Go.Lo cr); apply IH; lia.
Qed.

(** ** Filter evaluation of the flat handler against the reference *)

Section FlatFilters.
Variable CaseRanges : list Go.CaseRange.

Lemma len_zero (s : string) : (Go.len s =? 0) = true <-> s = "".
Proof.
  unfold Go.len. destruct s; simpl; [done|]. split; intros H; discriminate.
Qed.

Lemma containsKeyword_spec (text keyword : string) :
  BotHandler.containsKeyword CaseRanges text keyword = true <->
  FilterSpec.keyword_matches CaseRanges text keyword.
Proof.
  unfold BotHandler.containsKeyword, FilterSpec.keyword_matches,
    FilterSpec.ci_substring.
  destruct (Go.len keyword =? 0) eqn:E.
  - apply len_zero in E. split; [done | by intros [H _]].
  - rewrite Contains_spec. split.
    + intros H. split; [|done]. intros ->. by compute in E.
    + by intros [_ H].
Qed.

Lemma ContainsBy_spec (text : string) (f : Filter) :
  BotHandler.lo_ContainsBy (Keywords f)
    (fun keyword => BotHandler.containsKeyword CaseRanges text keyword) = true <->
  FilterSpec.some_keyword_matches CaseRanges text f.
Proof.
  unfold BotHandler.lo_ContainsBy, FilterSpec.some_keyword_matches.
  rewrite existsb_exists.
  split; intros [k [Hin Hk]]; exists k; split; try done;
    by apply containsKeyword_spec.
Qed.

(** The reference relation determines its result. *)
Lemma evaluates_functional (text : string) (filters : list Filter) (b1 b2 : bool) :
  FilterSpec.evaluates CaseRanges text filters b1 ->
  FilterSpec.evaluates CaseRanges text filters b2 -> b1 = b2.
Proof.
  intros Hev. revert b2.
  induction Hev; intros b2 Hev2; inversion Hev2; subst;
    unfold FilterTypeKeywords, FilterTypeExcludeKeywords in *;
    first [done | congruence | contradiction | by auto].
Qed.

Lemma passesFilters_loop_evaluates (text : string) (filters : list Filter) :
  FilterSpec.evaluates CaseRanges text filters
    (BotHandler.passesFilters_loop CaseRanges filters text).
Proof.
  induction filters as [|f rest IH]; simpl; [constructor|].
  destruct (Enabled f) eqn:En; simpl; [|by apply FilterSpec.ev_disabled].
  destruct (String.eqb (Type_ f) FilterTypeKeywords) eqn:Ek.
  { apply String.eqb_eq in Ek.
    destruct (BotHandler.lo_ContainsBy _ _) eqn:Em; simpl.
    - apply FilterSpec.ev_include_pass; try done. by apply ContainsBy_spec.
    - apply FilterSpec.ev_include_reject; try done.
      intros Hm. apply ContainsBy_spec in Hm. congruence. }
  apply String.eqb_neq in Ek.
  destruct (String.eqb (Type_ f) FilterTypeExcludeKeywords) eqn:Ex.
  { apply String.eqb_eq in Ex.
    destruct (BotHandler.lo_ContainsBy _ _) eqn:Em; simpl.
    - apply FilterSpec.ev_exclude_reject; try done. by apply ContainsBy_spec.
    - apply FilterSpec.ev_exclude_pass; try done.
      intros Hm. apply ContainsBy_spec in Hm. congruence. }
  apply String.eqb_neq in Ex.
  by apply FilterSpec.ev_other_kind.
Qed.

Lemma passesFilters_evaluates (channel : Channel) (msg : TgMessage) :
  FilterSpec.evaluates CaseRanges (BotHandler.filter_text msg) (Filters channel)
    (BotHandler.passesFilters CaseRanges channel msg).
Proof.
  unfold BotHandler.passesFilters.
  destruct (Filters channel) as [|f rest]; [constructor|].
  change ((List.length (f :: rest) =? 0)%nat) with false.
  apply passesFilters_loop_evaluates.
Qed.

End FlatFilters.

(** The examples of the specification, on both implementations. *)
Example include_tech_examples :
  let channel := mkChannel "42" "c" "T" 1 0 [mkFilter FilterTypeKeywords ["tech"] true] 0 true in
  let post text := mkTgMessage 1 42 text "" 0 None [] None None None in
  BotHandler.passesFilters Go.CaseRanges_Latin_Cyrillic channel (post "new tech release") = true /\
  BotHandler.passesFilters Go.CaseRanges_Latin_Cyrillic channel (post "cooking tips") = false /\
  ChannelService.passesFilters channel "new tech release" = true /\
  ChannelService.passesFilters channel "cooking tips" = false.
Proof. repeat split; reflexivity. Qed.

Example exclude_spam_examples :
  let channel :=
    mkChannel "42" "c" "T" 1 0 [mkFilter FilterTypeExcludeKeywords ["spam"] true] 0 true in
  let post text := mkTgMessage 1 42 text "" 0 None [] None None None in
  BotHandler.passesFilters Go.CaseRanges_Latin_Cyrillic channel (post "this is spam content") = false /\
  BotHandler.passesFilters Go.CaseRanges_Latin_Cyrillic channel (post "clean content") = true /\
  ChannelService.passesFilters channel "this is spam content" = false /\
  ChannelService.passesFilters channel "clean content" = true.
Proof. repeat split; reflexivity. Qed.

(** An include filter whose only keyword is empty rejects every text; a
    caption stands in for an empty text. *)
Example empty_keyword_and_caption_examples :
  let channel := mkChannel "42" "c" "T" 1 0 [mkFilter FilterTypeKeywords [""] true] 0 true in
  let tech := mkChannel "42" "c" "T" 1 0 [mkFilter FilterTypeKeywords ["tech"] true] 0 true in
  BotHandler.passesFilters Go.CaseRanges_Latin_Cyrillic channel
    (mkTgMessage 1 42 "anything" "" 0 None [] None None None) = false /\
  BotHandler.passesFilters Go.CaseRanges_Latin_Cyrillic tech
    (mkTgMessage 1 42 "" "Tech photo" 0 None [] None None None) = true.
Proof. split; reflexivity. Qed.

(** C1. For every filter list and every message, [BotHandler.passesFilters]
    returns exactly the verdict of the reference evaluation on the text the
    handler matches against (the message text, or its caption when the text
    is empty): filters are walked in sequence order, disabled filters and
    filters of other kinds (by-author) pass, an enabled include filter
    rejects unless one of its non-empty keywords is a case-insensitive
    substring of the text, an enabled exclude filter rejects if one is, and
    the result is true when nothing rejects. *)
Theorem C1_passesFilters_refines_reference
    (CaseRanges : list Go.CaseRange) (channel : Channel) (msg : TgMessage) (b : bool) :
  FilterSpec.evaluates CaseRanges (BotHandler.filter_text msg) (Filters channel) b <->
  BotHandler.passesFilters CaseRanges channel msg = b.
Proof.
  split.
  - intros H. symmetry.
    eapply evaluates_functional; [exact H | apply passesFilters_evaluates].
  - intros <-. apply passesFilters_evaluates.
Qed.

(** ** Feed entries: titles *)

Lemma take_length (n : nat) (s : string) :
  (n <= String.length s)%nat -> String.length (Go.take n s) = n.
Proof.
  revert s. induction n as [|n IH]; intros s H; [done|].
  destruct s as [|c s]; simpl in *; [lia|]. rewrite IH; [done | lia].
Qed.

Lemma take_is_prefix (n : nat) (s : string) :
  exists rest, s = Go.take n s +:+ rest.
Proof.
  revert s. induction n as [|n IH]; intros s; [by exists s|].
  destruct s as [|c s]; [by exists ""|].
  destruct (IH s) as [rest Hr]. exists rest. simpl. by rewrite <- Hr.
Qed.

Lemma length_app_string (a b : string) :
  String.length (a +:+ b) = (String.length a + String.length b)%nat.
Proof. induction a as [|c a IH]; simpl; [done | by rewrite IH]. Qed.

(** C8. Entry titles are [truncate(text, 100)]: a text of at most 100 bytes
    is returned as it is; a longer one is cut to its first 100 bytes and
    gets the three-byte marker appended, so that a text of 150 bytes gives
    a title of 103 bytes. *)
Theorem C8_truncate_at_100 (s : string) :
  (Go.len s <= 100 -> FeedService.truncate s 100 = s) /\
  (100 < Go.len s ->
     FeedService.truncate s 100 = Go.take 100 s +:+ "..." /\
     Go.len (Go.take 100 s) = 100 /\
     (exists rest, s = Go.take 100 s +:+ rest) /\
     Go.len (FeedService.truncate s 100) = 103) /\
  (Go.len s = 150 -> Go.len (FeedService.truncate s 100) = 103) /\
  (forall msg baseURL,
     Text msg = s ->
     ItemTitle (FeedService.messageToFeedItem msg baseURL) = FeedService.truncate s 100).
Proof.
  assert (Hlong : 100 < Go.len s ->
     FeedService.truncate s 100 = Go.take 100 s +:+ "..." /\
     Go.len (Go.take 100 s) = 100 /\
     (exists rest, s = Go.take 100 s +:+ rest) /\
     Go.len (FeedService.truncate s 100) = 103).
  { intros H. unfold FeedService.truncate.
    destruct (Z.leb_spec (Go.len s) (Z.of_nat 100)) as [Hle|_]; [lia|].
    assert (Hl : String.length (Go.take 100 s) = 100%nat).
    { apply take_length. unfold Go.len in H. lia. }
    split; [done|]. split; [|split].
    - unfold Go.len. by rewrite Hl.
    - apply take_is_prefix.
    - unfold Go.len. rewrite length_app_string, Hl. reflexivity. }
  split; [|split; [exact Hlong|split]].
  - intros H. unfold FeedService.truncate.
    destruct (Z.leb_spec (Go.len s) (Z.of_nat 100)) as [_|Hgt]; [done | lia].
  - intros H. apply Hlong. lia.
  - intros msg baseURL <-. reflexivity.
Qed.

Lemma C8_truncate_witness :
  Go.len (FeedService.truncate
            (string_of_list_ascii (repeat "a"%char 150)) 100) = 103.
Proof.
  apply (proj1 (proj2 (proj2 (C8_truncate_at_100
           (string_of_list_ascii (repeat "a"%char 150)))))).
  reflexivity.
Defined.

(** ** Feed entries: escaped content *)

Lemma fold_escape_rune (rs acc : list Z) :
  fold_left FeedService.escape_rune rs acc = acc ++ EscapeSpec.escaped rs.
Proof.
  revert acc. induction rs as [|r rs IH]; intros acc; simpl.
  - by rewrite app_nil_r.
  - rewrite IH. unfold FeedService.escape_rune, EscapeSpec.entity.
    repeat case_match; by rewrite <- app_assoc.
Qed.

Lemma escapeHTML_spec (s : string) :
  FeedService.escapeHTML s = Go.string_of_runes (EscapeSpec.escaped (Go.runes s)).
Proof. unfold FeedService.escapeHTML. by rewrite fold_escape_rune. Qed.

Lemma string_app_empty_r (s : string) : s +:+ "" = s.
Proof. induction s as [|c s IH]; simpl; [done | by rewrite IH]. Qed.

Lemma media_content_app (a b : string) (media : list Media) :
  FeedService.media_content (a +:+ b) media = a +:+ FeedService.media_content b media.
Proof.
  revert b. induction media as [|m ms IH]; intros b; simpl; [done|].
  by rewrite <- IH, !string_app_assoc.
Qed.

Lemma item_content_shape (msg : Message) (baseURL : string) :
  ItemContent (FeedService.messageToFeedItem msg baseURL) =
  ("<p>" +:+ FeedService.escapeHTML (FeedService.item_description msg) +:+ "</p>")
    +:+ EscapeSpec.media_list msg.
Proof.
  unfold FeedService.messageToFeedItem, EscapeSpec.media_list.
  cbn [ItemContent].
  destruct (MediaList msg) as [|m ms] eqn:E.
  - cbn [List.length Nat.ltb Nat.leb]. by rewrite string_app_empty_r.
  - cbn [List.length Nat.ltb Nat.leb].
    by rewrite media_content_app, !string_app_assoc.
Qed.

Lemma item_content_hello (msg : Message) (baseURL : string) :
  Text msg = "Hello <world>" -> MediaList msg = [] ->
  ItemContent (FeedService.messageToFeedItem msg baseURL) = "<p>Hello &lt;world&gt;</p>".
Proof.
  intros Ht Hm. rewrite item_content_shape.
  unfold EscapeSpec.media_list, FeedService.item_description.
  rewrite Hm, Ht. reflexivity.
Qed.

(** ** No markup character survives escaping *)

Lemma byte_val_of (z : Z) : 0 <= z < 256 -> Go.byte_val (Go.byte_of z) = z.
Proof.
  intros H. unfold Go.byte_val, Go.byte_of.
  rewrite N_ascii_embedding by lia. lia.
Qed.

Lemma lor_high_byte (k x : Z) :
  128 <= k < 256 -> 0 <= x < 256 -> 128 <= Z.lor k x < 256.
Proof.
  intros Hk Hx.
  assert (Hlk : Z.log2 k = 7) by (apply Z.log2_unique; lia).
  assert (Hlx : Z.log2 x <= 7).
  { destruct (Z.eq_dec x 0) as [->|Hne]; [done|].
    assert (Z.log2 x < 8) by (apply Z.log2_lt_pow2; lia). lia. }
  assert (Hl : Z.log2 (Z.lor k x) = 7) by (rewrite Z.log2_lor; lia).
  assert (Hpos : 0 < Z.lor k x).
  { assert (0 <= Z.lor k x) by (apply Z.lor_nonneg; lia).
    destruct (Z.eq_dec (Z.lor k x) 0) as [E|E]; [|lia].
    apply Z.lor_eq_0_iff in E. lia. }
  pose proof (Z.log2_spec _ Hpos) as Hs. rewrite Hl in Hs.
  change (2 ^ 7) with 128 in Hs. change (2 ^ Z.succ 7) with 256 in Hs. lia.
Qed.

Lemma land_low6 (y : Z) : 0 <= Z.land y 0x3F < 256.
Proof.
  change 0x3F with (Z.ones 6). rewrite Z.land_ones by lia.
  pose proof (Z.mod_pos_bound y (2 ^ 6)). lia.
Qed.

Lemma shiftr_bound (r n b : Z) :
  0 <= n -> 0 <= r < b * 2 ^ n -> 0 <= Z.shiftr r n < b.
Proof.
  intros Hn Hr. rewrite Z.shiftr_div_pow2 by done.
  assert (0 < 2 ^ n) by (apply Z.pow_pos_nonneg; lia).
  split; [apply Z.div_pos; lia | apply Z.div_lt_upper_bound; lia].
Qed.

(** The bytes of an encoded rune: the rune itself when it is ASCII, bytes
    with the high bit set otherwise. *)
Ltac high_byte :=
  right;
  match goal with
  | |- context [Go.byte_of (Z.lor ?k ?x)] =>
    let Hh := fresh "Hh" in
    assert (Hh : 128 <= Z.lor k x < 256) by (apply lor_high_byte; lia);
    rewrite byte_val_of; lia
  end.

Lemma EncodeRune_bytes (r : Z) (c : ascii) :
  In c (list_ascii_of_string (Go.EncodeRune r)) ->
  Go.byte_val c = r \/ 128 <= Go.byte_val c.
Proof.
  unfold Go.EncodeRune, Go.in_range, Go.MaxRune.
  pose proof (land_low6 r) as La. pose proof (land_low6 (Z.shiftr r 6)) as Lb.
  pose proof (land_low6 (Z.shiftr r 12)) as Lc.
  destruct (Z.leb_spec 0 r) as [H0|H0]; cbn [andb orb].
  - destruct (Z.ltb_spec r 0x80) as [H1|H1].
    { simpl. intros [<-|[]]. left. apply byte_val_of. lia. }
    destruct (Z.ltb_spec r 0x800) as [H2|H2].
    { pose proof (shiftr_bound r 6 32).
      simpl. intros [<-|[<-|[]]]; high_byte. }
    destruct (Z.ltb_spec r 0) as [H3|H3]; [lia|]. cbn [orb].
    destruct (Z.ltb_spec 0x10FFFF r) as [H4|H4]; cbn [orb].
    { simpl. intros [<-|[<-|[<-|[]]]]; right; by vm_compute. }
    destruct ((0xD800 <=? r) && (r <=? 0xDFFF)).
    { simpl. intros [<-|[<-|[<-|[]]]]; right; by vm_compute. }
    destruct (Z.ltb_spec r 0x10000) as [H5|H5].
    { pose proof (shiftr_bound r 12 16).
      simpl. intros [<-|[<-|[<-|[]]]]; high_byte. }
    pose proof (shiftr_bound r 18 8).
    simpl. intros [<-|[<-|[<-|[<-|[]]]]]; high_byte.
  - destruct (Z.ltb_spec r 0) as [H3|H3]; [|lia]. cbn [orb].
    simpl. intros [<-|[<-|[<-|[]]]]; right; by vm_compute.
Qed.

Lemma string_of_runes_bytes (rs : list Z) (c : ascii) :
  In c (list_ascii_of_string (Go.string_of_runes rs)) ->
  exists r, In r rs /\ (Go.byte_val c = r \/ 128 <= Go.byte_val c).
Proof.
  induction rs as [|r rs IH]; simpl; [done|].
  intros Hin.
  assert (Hsplit : In c (list_ascii_of_string (Go.EncodeRune r)) \/
                   In c (list_ascii_of_string (Go.string_of_runes rs))).
  { revert Hin. generalize (Go.EncodeRune r) as e.
    induction e as [|x e IHe]; simpl; [by right|].
    intros [<-|Hin]; [by left; left|]. destruct (IHe Hin); auto. }
  destruct Hsplit as [He|Hr].
  - exists r. split; [by left | by apply EncodeRune_bytes].
  - destruct (IH Hr) as (r' & Hr' & Hb). exists r'. split; [by right | done].
Qed.

Lemma entity_no_markup (r r' : Z) : In r' (EscapeSpec.entity r) -> ~ is_markup r'.
Proof.
  unfold EscapeSpec.entity, is_markup.
  destruct (Z.eqb_spec r 60) as [->|?];
    [|destruct (Z.eqb_spec r 62) as [->|?];
      [|destruct (Z.eqb_spec r 38) as [->|?];
        [|destruct (Z.eqb_spec r 34) as [->|?];
          [|destruct (Z.eqb_spec r 39) as [->|?]]]]];
    simpl; intros Hin; repeat (destruct Hin as [<-|Hin]); try done;
    first [lia | vm_compute; intuition discriminate].
Qed.

(** The output of [escapeHTML] contains no less-than sign, no greater-than
    sign, no double quote and no single quote. *)
Lemma escapeHTML_no_markup (s : string) (c : ascii) :
  In c (list_ascii_of_string (FeedService.escapeHTML s)) ->
  ~ is_markup (Go.byte_val c).
Proof.
  rewrite escapeHTML_spec. intros Hin.
  apply string_of_runes_bytes in Hin as (r' & Hr' & Hb).
  unfold EscapeSpec.escaped in Hr'. apply in_flat_map in Hr' as (r & _ & Hr').
  apply entity_no_markup in Hr'.
  destruct Hb as [->|Hhigh]; [done|]. unfold is_markup. lia.
Qed.

(** C9. A channel titled "Test Channel" with id "42" that holds one message
    with text "Hello <world>" (and no media) yields a feed titled
    "Test Channel - RSS Feed" whose single entry has the content
    "<p>Hello &lt;world&gt;</p>", which contains "Hello &lt;world&gt;".  In
    general the content of an entry is the escaped body inside a paragraph
    tag, followed by the media list when the message has media; escaping
    replaces each of the five characters by its entity and keeps every
    other character, so that its output contains no less-than sign, no
    greater-than sign and no quote. *)
Theorem C9_feed_content_escaped :
  (forall env d channel message baseURL,
     ChannelStore.GetChannel env d "42" = Ok channel ->
     Title channel = "Test Channel" ->
     MessageStore.GetMessages env d "42" 50 = Ok [message] ->
     Text message = "Hello <world>" -> MediaList message = [] ->
     exists feed item,
       FeedService.GenerateFeed env d "42" baseURL = Ok feed /\
       FeedTitle feed = "Test Channel - RSS Feed" /\
       Items feed = [item] /\
       ItemContent item = "<p>Hello &lt;world&gt;</p>" /\
       Go.Contains (ItemContent item) "Hello &lt;world&gt;" = true) /\
  (forall msg baseURL,
     ItemContent (FeedService.messageToFeedItem msg baseURL) =
     ("<p>" +:+ FeedService.escapeHTML (FeedService.item_description msg) +:+ "</p>")
       +:+ EscapeSpec.media_list msg) /\
  (forall msg, MediaList msg = [] -> EscapeSpec.media_list msg = "") /\
  (forall s,
     FeedService.escapeHTML s = Go.string_of_runes (EscapeSpec.escaped (Go.runes s))) /\
  (forall s c,
     In c (list_ascii_of_string (FeedService.escapeHTML s)) ->
     ~ is_markup (Go.byte_val c)).
Proof.
  split; [|split; [|split; [|split]]].
  - intros env d channel message baseURL Hc Ht Hm Htext Hmedia.
    unfold FeedService.GenerateFeed. rewrite Hc, Hm. simpl.
    eexists _, _. split; [reflexivity|]. simpl.
    split; [by rewrite Ht|]. split; [reflexivity|].
    rewrite (item_content_hello _ _ Htext Hmedia). by split.
  - apply item_content_shape.
  - intros msg Hm. unfold EscapeSpec.media_list. by rewrite Hm.
  - apply escapeHTML_spec.
  - apply escapeHTML_no_markup.
Qed.

Lemma C9_feed_content_witness :
  exists feed item,
    FeedService.GenerateFeed (no_faults 0) test_disk "42" "http://localhost:8080" = Ok feed /\
    FeedTitle feed = "Test Channel - RSS Feed" /\
    Items feed = [item] /\
    ItemContent item = "<p>Hello &lt;world&gt;</p>" /\
    Go.Contains (ItemContent item) "Hello &lt;world&gt;" = true.
Proof.
  apply (proj1 C9_feed_content_escaped (no_faults 0) test_disk test_channel
           test_message "http://localhost:8080").
  - vm_compute. reflexivity.
  - reflexivity.
  - vm_compute. reflexivity.
  - reflexivity.
  - reflexivity.
Defined.

(** ** The message store *)

Lemma WriteFile_ok {A} (env : Env) (path name : string) (v : A)
    (dir dir' : gmap string (DirEntry A)) :
  WriteFile env path name v dir = (None, dir') ->
  dir' = <[name := RegularFile (Some v)]> dir.
Proof.
  unfold WriteFile. intros H.
  destruct (dir !! name) as [[o|]|]; try discriminate;
    destruct (write_fails env path); try (by inversion H);
    destruct (write_fault env path); discriminate.
Qed.

(** A write that fails leaves the listing as it was, or leaves the entry
    as a file that does not parse, or has written the entry. *)
Lemma WriteFile_err {A} (env : Env) (path name : string) (v : A)
    (dir dir' : gmap string (DirEntry A)) (e : error) :
  WriteFile env path name v dir = (Some e, dir') ->
  dir' = dir \/
  (dir !! name <> Some Directory /\
   (dir' = <[name := RegularFile None]> dir \/
    dir' = <[name := RegularFile (Some v)]> dir)).
Proof.
  unfold WriteFile. intros H.
  destruct (dir !! name) as [[o|]|] eqn:L; try (left; by inversion H);
    (destruct (write_fails env path); [|discriminate]);
    destruct (write_fault env path); inversion H; subst; auto.
Qed.

(** Whatever happens, a write changes no other entry of the listing. *)
Lemma WriteFile_other {A} (env : Env) (path name other : string) (v : A)
    (dir : gmap string (DirEntry A)) :
  other <> name -> (WriteFile env path name v dir).2 !! other = dir !! other.
Proof.
  intros Hne. unfold WriteFile.
  destruct (dir !! name) as [[o|]|]; simpl; try done;
    (destruct (write_fails env path); [destruct (write_fault env path)|]); simpl;
    try done; by rewrite lookup_insert_ne.
Qed.

Lemma SaveMessage_ok (env : Env) (d d' : Disk) (m : Message) :
  MessageStore.SaveMessage env d m = (None, d') ->
  d' = mkDisk (channels_dir d)
         (<[ChannelID m := <[message_file (MsgID m) := RegularFile (Some m)]>
                             (message_files d (ChannelID m))]> (messages_dir d)).
Proof.
  unfold MessageStore.SaveMessage, message_files. intros H.
  destruct (mkdir_fails env _); [discriminate|].
  destruct (marshal_message_fails env m); [discriminate|].
  destruct (WriteFile _ _ _ _ _) as [err files'] eqn:W.
  inversion H; subst. by apply WriteFile_ok in W as ->.
Qed.

Lemma SaveMessage_channels (env : Env) (d : Disk) (m : Message) :
  channels_dir (MessageStore.SaveMessage env d m).2 = channels_dir d.
Proof.
  unfold MessageStore.SaveMessage.
  destruct (mkdir_fails env _); [done|].
  destruct (marshal_message_fails env m); [done|].
  by destruct (WriteFile _ _ _ _ _).
Qed.

(** Whatever happens, a save leaves the other files of the directory as
    they were. *)
Lemma SaveMessage_files (env : Env) (d : Disk) (m : Message) (name : string) :
  name <> message_file (MsgID m) ->
  message_files (MessageStore.SaveMessage env d m).2 (ChannelID m) !! name =
    message_files d (ChannelID m) !! name.
Proof.
  intros Hne. unfold MessageStore.SaveMessage, message_files.
  destruct (mkdir_fails env _); [done|].
  destruct (marshal_message_fails env m); simpl.
  { by rewrite lookup_insert_eq. }
  match goal with
  | |- context [WriteFile ?e ?p ?n ?v ?f] =>
    pose proof (WriteFile_other e p n name v f Hne) as Ho;
    destruct (WriteFile e p n v f) as [err files']
  end; simpl in *. by rewrite lookup_insert_eq.
Qed.

Lemma records_named_unique {A} (name : string) (v : DirEntry A)
    (entries : list (string * DirEntry A)) :
  NoDup entries.*1 -> (name, v) ∈ entries -> records_named name entries = 1%nat.
Proof.
  unfold records_named.
  induction entries as [|[k x] l IH]; intros Hnd Hin; [by apply elem_of_nil in Hin|].
  simpl in Hnd. apply NoDup_cons in Hnd as [Hk Hnd].
  rewrite filter_cons. simpl. case_decide as Hkn.
  - subst k. simpl. f_equal.
    destruct (filter _ l) as [|[k' x'] f'] eqn:F; [done|].
    exfalso. assert (Hin' : (k', x') ∈ filter (λ e : string * DirEntry A, e.1 = name) l)
      by (rewrite F; left).
    apply list_elem_of_filter in Hin' as [Hk' Hl]. simpl in Hk'. subst k'.
    apply Hk. apply list_elem_of_fmap. by exists (name, x').
  - apply IH; [done|]. apply elem_of_cons in Hin as [Heq|Hin]; [|done].
    inversion Heq; subst. done.
Qed.

Lemma records_named_ReadDir {A} (name : string) (v : DirEntry A)
    (files : gmap string (DirEntry A)) :
  files !! name = Some v -> records_named name (ReadDir files) = 1%nat.
Proof.
  intros H. apply (records_named_unique name v).
  - unfold ReadDir. rewrite merge_sort_Permutation. apply NoDup_fst_map_to_list.
  - unfold ReadDir. rewrite merge_sort_Permutation. by apply elem_of_map_to_list.
Qed.

Lemma SaveMessage_succeeds_iff (env : Env) (d : Disk) (m : Message) :
  (MessageStore.SaveMessage env d m).1 = None <-> save_message_succeeds env d m.
Proof.
  unfold MessageStore.SaveMessage, WriteFile, save_message_succeeds,
    stored_message, message_files.
  destruct (mkdir_fails env _); simpl; [intuition congruence|].
  destruct (marshal_message_fails env m); simpl; [intuition congruence|].
  destruct (default ∅ (messages_dir d !! ChannelID m) !! message_file (MsgID m))
    as [[o|]|]; simpl; try (intuition congruence);
    (destruct (write_fails env _); [destruct (write_fault env _)|]);
    simpl; intuition congruence.
Qed.

Lemma SaveMessage_success (env : Env) (d : Disk) (m : Message) :
  save_message_succeeds env d m ->
  MessageStore.SaveMessage env d m = (None, with_message d m).
Proof.
  intros (Hd & Hj & Hw & Hs).
  unfold MessageStore.SaveMessage, WriteFile, with_message.
  unfold stored_message in Hs. fold (message_files d (ChannelID m)).
  rewrite Hd, Hj, Hw.
  by destruct (message_files d (ChannelID m) !! message_file (MsgID m)) as [[o|]|].
Qed.

(** A save that fails leaves the store as it was, or with the channel's
    directory created, or (when the write itself went wrong) with the
    message's file left unparsable or written. *)
Lemma SaveMessage_failure (env : Env) (d : Disk) (m : Message) :
  ~ save_message_succeeds env d m ->
  (MessageStore.SaveMessage env d m).2 = d \/
  (MessageStore.SaveMessage env d m).2 = with_message_dir d (ChannelID m) \/
  (stored_message d (ChannelID m) (MsgID m) <> Some Directory /\
   ((MessageStore.SaveMessage env d m).2 = with_damaged_message d m \/
    (MessageStore.SaveMessage env d m).2 = with_message d m)).
Proof.
  intros Hn. rewrite <- SaveMessage_succeeds_iff in Hn. revert Hn.
  unfold MessageStore.SaveMessage, WriteFile, with_message_dir, with_damaged_message,
    with_message, stored_message.
  fold (message_files d (ChannelID m)).
  destruct (mkdir_fails env _); simpl; [by left|].
  destruct (marshal_message_fails env m); simpl; [by right; left|].
  destruct (message_files d (ChannelID m) !! message_file (MsgID m)) as [[o|]|];
    simpl; try (by right; left);
    (destruct (write_fails env _); [destruct (write_fault env _)|]); simpl;
    try (by right; left); try done; intros _; right; right; (split; [done|]); auto.
Qed.

Lemma message_files_with_dir (d : Disk) (c : string) :
  message_files (with_message_dir d c) c = message_files d c.
Proof. unfold message_files, with_message_dir. simpl. by rewrite lookup_insert_eq. Qed.

Lemma message_files_with_message (d : Disk) (m : Message) :
  message_files (with_message d m) (ChannelID m) =
  <[message_file (MsgID m) := RegularFile (Some m)]> (message_files d (ChannelID m)).
Proof. unfold message_files at 1, with_message. simpl. by rewrite lookup_insert_eq. Qed.

Lemma SaveMessage_stored (env : Env) (d : Disk) (m : Message) :
  save_message_succeeds env d m ->
  stored_message (MessageStore.SaveMessage env d m).2 (ChannelID m) (MsgID m)
    = Some (RegularFile (Some m)).
Proof.
  intros H. rewrite (SaveMessage_success _ _ _ H). simpl.
  unfold stored_message. rewrite message_files_with_message.
  by rewrite lookup_insert_eq.
Qed.

Lemma with_message_twice (d : Disk) (m1 m2 : Message) :
  ChannelID m1 = ChannelID m2 -> MsgID m1 = MsgID m2 ->
  with_message (with_message d m1) m2 = with_message d m2.
Proof.
  intros Hc Hi. unfold with_message, message_files. simpl.
  rewrite Hc, Hi, lookup_insert_eq. simpl. by rewrite !insert_insert_eq.
Qed.

Lemma with_message_after_damage (d : Disk) (m1 m2 : Message) :
  ChannelID m1 = ChannelID m2 -> MsgID m1 = MsgID m2 ->
  with_message (with_damaged_message d m1) m2 = with_message d m2.
Proof.
  intros Hc Hi. unfold with_message, with_damaged_message, message_files. simpl.
  rewrite Hc, Hi, lookup_insert_eq. simpl. by rewrite !insert_insert_eq.
Qed.

(** A save that goes through after another save under the same key ends in
    the state it reaches without the earlier one. *)
Lemma SaveMessage_overwrites (env1 env2 : Env) (d : Disk) (m1 m2 : Message) :
  ChannelID m1 = ChannelID m2 -> MsgID m1 = MsgID m2 ->
  save_message_succeeds env2 (MessageStore.SaveMessage env1 d m1).2 m2 ->
  save_message_succeeds env2 d m2 /\
  with_message (MessageStore.SaveMessage env1 d m1).2 m2 = with_message d m2.
Proof.
  intros Hc Hi H2.
  assert (Hcases :
    (MessageStore.SaveMessage env1 d m1).2 = d \/
    (MessageStore.SaveMessage env1 d m1).2 = with_message_dir d (ChannelID m1) \/
    (stored_message d (ChannelID m1) (MsgID m1) <> Some Directory /\
     ((MessageStore.SaveMessage env1 d m1).2 = with_damaged_message d m1 \/
      (MessageStore.SaveMessage env1 d m1).2 = with_message d m1))).
  { destruct ((MessageStore.SaveMessage env1 d m1).1) as [e|] eqn:E.
    - assert (Hn : ~ save_message_succeeds env1 d m1).
      { rewrite <- SaveMessage_succeeds_iff. congruence. }
      apply (SaveMessage_failure _ _ _ Hn).
    - apply SaveMessage_succeeds_iff in E.
      right; right. split; [apply E|]. right. by rewrite (SaveMessage_success _ _ _ E). }
  destruct H2 as (Hd & Hj & Hw & Hs).
  destruct Hcases as [Hsame | [Hdir | [Hfree [Hdamaged | Hwritten]]]].
  - rewrite Hsame in Hs |- *. by repeat split.
  - rewrite Hdir in Hs |- *. rewrite Hc in *.
    unfold stored_message in Hs. rewrite message_files_with_dir in Hs.
    split; [by repeat split|].
    unfold with_message. rewrite message_files_with_dir.
    unfold with_message_dir. simpl. by rewrite insert_insert_eq.
  - rewrite Hdamaged. rewrite Hc, Hi in Hfree.
    split; [by repeat split|].
    by apply with_message_after_damage.
  - rewrite Hwritten. rewrite Hc, Hi in Hfree.
    split; [by repeat split|].
    by apply with_message_twice.
Qed.

(** Different sequence ids are stored under different file names. *)
Lemma itoa_inj (n m : Z) : Go.itoa n = Go.itoa m -> n = m.
Proof.
  unfold Go.itoa. intros H.
  assert (Hnil : forall z, Z.to_int z <> Decimal.Pos Decimal.Nil /\
                           Z.to_int z <> Decimal.Neg Decimal.Nil).
  { intros [|p|p]; simpl; split; try discriminate;
      intros E; inversion E as [E']; by apply Unsigned.to_uint_nonnil in E'. }
  pose proof (NilZero.isi (Z.to_int n) (proj1 (Hnil n)) (proj2 (Hnil n))) as Hn.
  pose proof (NilZero.isi (Z.to_int m) (proj1 (Hnil m)) (proj2 (Hnil m))) as Hm.
  rewrite H in Hn. rewrite Hn in Hm. inversion Hm as [E].
  by apply DecimalZ.to_int_inj.
Qed.

Lemma string_app_inj_r (a b suffix : string) : a +:+ suffix = b +:+ suffix -> a = b.
Proof.
  revert b. induction a as [|x a IH]; intros b H.
  - destruct b as [|y b]; [done|]. exfalso.
    apply (f_equal String.length) in H. simpl in H.
    rewrite length_app_string in H. lia.
  - destruct b as [|y b].
    + exfalso. apply (f_equal String.length) in H. simpl in H.
      rewrite length_app_string in H. lia.
    + simpl in H. inversion H; subst. f_equal. by apply IH.
Qed.

Lemma message_file_inj (n m : Z) : message_file n = message_file m -> n = m.
Proof. unfold message_file. intros H. by apply itoa_inj, (string_app_inj_r _ _ ".json"). Qed.

(** A save touches nothing but the record under its own key. *)
Lemma SaveMessage_other_keys (env : Env) (d : Disk) (m : Message)
    (channelID : string) (id : Z) :
  (channelID, id) <> (ChannelID m, MsgID m) ->
  stored_message (MessageStore.SaveMessage env d m).2 channelID id =
  stored_message d channelID id.
Proof.
  intros Hne. unfold stored_message.
  destruct (decide (channelID = ChannelID m)) as [->|Hc].
  - assert (Hid : message_file id <> message_file (MsgID m)).
    { intros E. apply message_file_inj in E. congruence. }
    by apply SaveMessage_files.
  - assert (Hd : messages_dir (MessageStore.SaveMessage env d m).2 !! channelID
                 = messages_dir d !! channelID).
    { unfold MessageStore.SaveMessage.
      destruct (mkdir_fails env _); [done|].
      destruct (marshal_message_fails env m); simpl.
      - by rewrite lookup_insert_ne.
      - destruct (WriteFile _ _ _ _ _); simpl. by rewrite lookup_insert_ne. }
    unfold message_files. by rewrite Hd.
Qed.

(** C3. [SaveMessage] is an upsert keyed by (channel id, message id): when
    a save of [m2] goes through after a save of [m1] with the same key
    (whatever became of that first save), the directory listing shows
    exactly one entry under the key's file name, it holds [m2], and the
    whole store is the one reached by saving [m2] alone; saving a message a
    second time gives the result and the store of saving it once. *)
Theorem C3_SaveMessage_upsert (env1 env2 : Env) (d : Disk) (m1 m2 : Message) :
  ChannelID m1 = ChannelID m2 -> MsgID m1 = MsgID m2 ->
  (MessageStore.SaveMessage env2 (MessageStore.SaveMessage env1 d m1).2 m2).1 = None ->
  let d2 := (MessageStore.SaveMessage env2 (MessageStore.SaveMessage env1 d m1).2 m2).2 in
  stored_message d2 (ChannelID m2) (MsgID m2) = Some (RegularFile (Some m2)) /\
  records_named (message_file (MsgID m2)) (ReadDir (message_files d2 (ChannelID m2))) = 1%nat /\
  d2 = (MessageStore.SaveMessage env2 d m2).2 /\
  MessageStore.SaveMessage env2 d2 m2 = MessageStore.SaveMessage env2 d m2.
Proof.
  intros Hc Hi Hok d2.
  apply SaveMessage_succeeds_iff in Hok.
  assert (Hst : stored_message d2 (ChannelID m2) (MsgID m2) = Some (RegularFile (Some m2)))
    by (by apply SaveMessage_stored).
  destruct (SaveMessage_overwrites _ _ _ _ _ Hc Hi Hok) as [Hok' Heq].
  assert (Hd2 : d2 = with_message d m2).
  { unfold d2. by rewrite (SaveMessage_success _ _ _ Hok). }
  split; [done|]. split; [by eapply records_named_ReadDir|].
  split; [by rewrite (SaveMessage_success _ _ _ Hok')|].
  rewrite (SaveMessage_success _ _ _ Hok').
  assert (Hok2 : save_message_succeeds env2 d2 m2).
  { destruct Hok' as (Hd & Hj & Hw & Hs). repeat split; try done.
    rewrite Hst. done. }
  rewrite (SaveMessage_success _ _ _ Hok2). f_equal.
  rewrite Hd2. by apply with_message_twice.
Qed.

(** Saving twice in the same environment is saving once, also when the
    save fails. *)
Lemma SaveMessage_idempotent (env : Env) (d : Disk) (m : Message) :
  MessageStore.SaveMessage env (MessageStore.SaveMessage env d m).2 m =
  MessageStore.SaveMessage env d m.
Proof.
  destruct ((MessageStore.SaveMessage env d m).1) as [e|] eqn:E.
  - revert E. unfold MessageStore.SaveMessage, WriteFile.
    destruct (mkdir_fails env _) eqn:M; simpl; [done|].
    destruct (marshal_message_fails env m) eqn:J; simpl.
    { rewrite lookup_insert_eq. simpl. by rewrite insert_insert_eq. }
    destruct (default ∅ (messages_dir d !! ChannelID m) !! message_file (MsgID m))
      as [[o|]|] eqn:L; simpl;
      try (destruct (write_fails env _) eqn:W; [destruct (write_fault env _) eqn:F|]);
      simpl; try done; intros _;
      rewrite lookup_insert_eq; simpl; rewrite ?lookup_insert_eq, ?L, ?W, ?F;
      by rewrite ?insert_insert_eq.
  - assert (Hok : save_message_succeeds env d m) by (by apply SaveMessage_succeeds_iff).
    rewrite (SaveMessage_success _ _ _ Hok). simpl.
    assert (Hok2 : save_message_succeeds env (with_message d m) m).
    { destruct Hok as (Hd & Hj & Hw & Hs). repeat split; try done.
      unfold stored_message. rewrite message_files_with_message, lookup_insert_eq. done. }
    rewrite (SaveMessage_success _ _ _ Hok2). f_equal.
    by apply with_message_twice.
Qed.

Lemma C3_SaveMessage_upsert_witness :
  stored_message
    (MessageStore.SaveMessage (no_faults 0)
       (MessageStore.SaveMessage (no_faults 0) test_disk post7_first).2
       post7_second).2 "42" 7
  = Some (RegularFile (Some post7_second)).
Proof.
  apply (C3_SaveMessage_upsert (no_faults 0) (no_faults 0) test_disk
           post7_first post7_second).
  - reflexivity.
  - reflexivity.
  - vm_compute. reflexivity.
Defined.

(** ** Listing messages *)

Lemma GetMessages_loop_length (env : Env) (msgDir : string)
    (entries : list (string * DirEntry Message)) (count limit : Z)
    (messages : list Message) :
  Z.of_nat (List.length (MessageStore.GetMessages_loop env msgDir entries count limit messages))
    <= Z.of_nat (List.length messages) + Z.max 0 (limit - count).
Proof.
  revert count messages.
  induction entries as [|[name entry] rest IH]; intros count messages; simpl; [lia|].
  destruct (Z.ltb_spec count limit) as [Hlt|Hge]; [|lia].
  destruct entry as [decoded|]; [|specialize (IH count messages); lia].
  destruct (negb _); [specialize (IH count messages); lia|].
  destruct (read_fails env _); [specialize (IH count messages); lia|].
  destruct decoded as [message|]; [|specialize (IH count messages); lia].
  specialize (IH (count + 1) (messages ++ [message])).
  rewrite length_app in IH. simpl in IH. lia.
Qed.

(** The listing never returns more than [limit] messages. *)
Lemma GetMessages_at_most_limit (env : Env) (d : Disk) (channelID : string)
    (limit : Z) (messages : list Message) :
  MessageStore.GetMessages env d channelID limit = Ok messages ->
  Z.of_nat (List.length messages) <= Z.max 0 limit.
Proof.
  unfold MessageStore.GetMessages.
  destruct (messages_dir d !! channelID) as [files|].
  - destruct (readdir_fails env _); [discriminate|].
    intros H. inversion H; subst.
    pose proof (GetMessages_loop_length env (filepath_Join "messages" channelID)
                  (rev (ReadDir files)) 0 limit []) as Hl.
    simpl in Hl. rewrite Z.sub_0_r in Hl. lia.
  - intros H. inversion H. simpl. lia.
Qed.

(** The feed has one entry per listed message, in the order of the
    listing, and so at most 50. *)
Lemma GenerateFeed_items (env : Env) (d : Disk) (channelID baseURL : string) (feed : Feed) :
  FeedService.GenerateFeed env d channelID baseURL = Ok feed ->
  exists messages,
    MessageStore.GetMessages env d channelID 50 = Ok messages /\
    Items feed = map (fun msg => FeedService.messageToFeedItem msg baseURL) messages /\
    (List.length (Items feed) <= 50)%nat.
Proof.
  unfold FeedService.GenerateFeed.
  destruct (ChannelStore.GetChannel env d channelID) as [channel|e]; [|discriminate].
  destruct (MessageStore.GetMessages env d channelID 50) as [messages|e] eqn:G;
    [|discriminate].
  intros H. inversion H; subst. simpl. exists messages.
  split; [done|]. split; [done|].
  rewrite length_map. apply GetMessages_at_most_limit in G. lia.
Qed.

(** C10. A channel that is in the channel store but has no message
    directory: the listing returns the empty sequence without an error, for
    any limit, and feed generation succeeds with a feed of no entries. *)
Theorem C10_missing_directory_gives_empty_feed
    (env : Env) (d : Disk) (channelID baseURL : string) (limit : Z) (channel : Channel) :
  ChannelStore.GetChannel env d channelID = Ok channel ->
  messages_dir d !! channelID = None ->
  MessageStore.GetMessages env d channelID limit = Ok [] /\
  exists feed,
    FeedService.GenerateFeed env d channelID baseURL = Ok feed /\
    Items feed = [] /\
    FeedTitle feed = Title channel +:+ " - RSS Feed".
Proof.
  intros Hc Hm.
  assert (Hg : forall l, MessageStore.GetMessages env d channelID l = Ok []).
  { intros l. unfold MessageStore.GetMessages. by rewrite Hm. }
  split; [apply Hg|].
  unfold FeedService.GenerateFeed. rewrite Hc, Hg. simpl.
  eexists. split; [reflexivity|]. by split.
Qed.

Lemma C10_missing_directory_witness :
  MessageStore.GetMessages (no_faults 0) channel_only_disk "42" 50 = Ok [] /\
  exists feed,
    FeedService.GenerateFeed (no_faults 0) channel_only_disk "42" "http://localhost:8080"
      = Ok feed /\
    Items feed = [] /\
    FeedTitle feed = Title test_channel +:+ " - RSS Feed".
Proof.
  apply (C10_missing_directory_gives_empty_feed (no_faults 0) channel_only_disk
           "42" "http://localhost:8080" 50 test_channel).
  - vm_compute. reflexivity.
  - reflexivity.
Defined.

Global Instance name_le_total {A} : Total (@name_le A).
Proof.
  intros x y. unfold name_le.
  destruct (String.leb_total x.1 y.1) as [H|H]; rewrite H; [by left | by right].
Qed.

(** [ReadDir] lists every entry of the directory once, in ascending order
    of the file names compared as byte strings. *)
Lemma ReadDir_sorted {A} (dir : gmap string (DirEntry A)) :
  Sorted name_le (ReadDir dir) /\ ReadDir dir ≡ₚ map_to_list dir.
Proof.
  split; [apply Sorted_merge_sort, _ | apply merge_sort_Permutation].
Qed.

Example file_name_order :
  String.leb "100.json" "50.json" = true /\ String.leb "50.json" "100.json" = false /\
  String.leb "50.json" "99.json" = true.
Proof. repeat split; reflexivity. Qed.

Lemma GetMessages_loop_spec (env : Env) (msgDir : string)
    (entries : list (string * DirEntry Message)) (count limit : Z)
    (messages : list Message) :
  MessageStore.GetMessages_loop env msgDir entries count limit messages =
  messages ++ take (Z.to_nat (limit - count)) (omap (readable env msgDir) entries).
Proof.
  revert count messages.
  induction entries as [|[name entry] rest IH]; intros count messages; simpl.
  - by rewrite take_nil, app_nil_r.
  - destruct (Z.ltb_spec count limit) as [Hlt|Hge].
    + unfold readable at 1. simpl.
      destruct entry as [decoded|]; [|apply IH].
      destruct (negb _); [apply IH|].
      destruct (read_fails env _); [apply IH|].
      destruct decoded as [message|]; [|apply IH].
      rewrite IH. replace (Z.to_nat (limit - count)) with (S (Z.to_nat (limit - (count + 1)))) by lia.
      simpl. by rewrite <- app_assoc.
    + replace (Z.to_nat (limit - count)) with 0%nat by lia.
      by rewrite take_0, app_nil_r.
Qed.

(** The listing is the first [limit] readable entries of the directory
    taken from the greatest file name downwards. *)
Lemma GetMessages_by_file_name (env : Env) (d : Disk) (channelID : string)
    (limit : Z) (files : gmap string (DirEntry Message)) :
  messages_dir d !! channelID = Some files ->
  readdir_fails env (filepath_Join "messages" channelID) = false ->
  MessageStore.GetMessages env d channelID limit =
  Ok (take (Z.to_nat limit)
        (omap (readable env (filepath_Join "messages" channelID)) (rev (ReadDir files)))).
Proof.
  intros Hf Hr. unfold MessageStore.GetMessages. rewrite Hf, Hr.
  rewrite GetMessages_loop_spec. simpl. by rewrite Z.sub_0_r.
Qed.

(** C6 (evaluation at the failing input). After the posts 50..100 of a
    channel have been saved, post 100 is stored, yet the listing with limit
    50 returns the posts 99, 98, ..., 50: file names are compared as
    strings, and "100.json" sorts before "50.json". *)
Theorem C6_listing_misses_latest_post :
  stored_message disk_posts_50_to_100 "42" 100
    = Some (RegularFile (Some (numbered_post 100))) /\
  exists messages,
    MessageStore.GetMessages (no_faults 0) disk_posts_50_to_100 "42" 50 = Ok messages /\
    map MsgID messages = map Z.of_nat (rev (seq 50 50)) /\
    (numbered_post 100 ∉ messages) /\
    (numbered_post 50 ∈ messages).
Proof.
  split; [vm_compute; reflexivity|].
  eexists. split; [vm_compute; reflexivity|].
  split; [vm_compute; reflexivity|].
  split.
  - intros Hin. apply list_elem_of_fmap_2 with (f := MsgID) in Hin.
    revert Hin. vm_compute. intros Hin.
    repeat (apply elem_of_cons in Hin as [Hin|Hin]; [discriminate|]).
    by apply elem_of_nil in Hin.
  - apply list_elem_of_In. vm_compute. do 49 right. by left.
Qed.

(** ** Ingestion *)

Lemma SaveChannel_messages (env : Env) (d : Disk) (channel : Channel) :
  messages_dir (ChannelStore.SaveChannel env d channel).2 = messages_dir d.
Proof.
  unfold ChannelStore.SaveChannel.
  destruct (marshal_channel_fails env channel); [done|].
  by destruct (WriteFile _ _ _ _ _).
Qed.

(** A channel save that fails leaves the store as it was, or (when the
    write itself went wrong) leaves the channel's file unparsable or
    written. *)
Lemma SaveChannel_failure (env : Env) (d : Disk) (channel : Channel) (e : error) :
  (ChannelStore.SaveChannel env d channel).1 = Some e ->
  (ChannelStore.SaveChannel env d channel).2 = d \/
  (channels_dir d !! channel_file (ID channel) <> Some Directory /\
   ((ChannelStore.SaveChannel env d channel).2 =
      mkDisk (<[channel_file (ID channel) := RegularFile None]> (channels_dir d))
             (messages_dir d) \/
    (ChannelStore.SaveChannel env d channel).2 =
      mkDisk (<[channel_file (ID channel) := RegularFile (Some channel)]> (channels_dir d))
             (messages_dir d))).
Proof.
  unfold ChannelStore.SaveChannel.
  destruct (marshal_channel_fails env channel); [by left|].
  destruct (WriteFile _ _ _ _ _) as [[e'|] files'] eqn:W; simpl; [|done].
  intros _. apply WriteFile_err in W as [-> | [Hd [-> | ->]]]; auto.
  left. by destruct d.
Qed.

Lemma SaveChannel_success (env : Env) (d : Disk) (channel : Channel) :
  (ChannelStore.SaveChannel env d channel).1 = None ->
  (ChannelStore.SaveChannel env d channel).2 =
  mkDisk (<[channel_file (ID channel) := RegularFile (Some channel)]> (channels_dir d))
         (messages_dir d).
Proof.
  unfold ChannelStore.SaveChannel.
  destruct (marshal_channel_fails env channel); [done|].
  destruct (WriteFile _ _ _ _ _) as [[e'|] files'] eqn:W; simpl; [done|].
  intros _. by apply WriteFile_ok in W as ->.
Qed.

(** C2. [ProcessMessage] returns an error exactly when the filters pass and
    saving the message fails.  When the filters reject, it returns no error
    and leaves the world (store and log) as it was.  When the message is
    saved and saving the channel then fails, it returns no error, the
    failure is logged, and the message stays in the store. *)
Theorem C2_ProcessMessage_error_iff_message_save_fails
    (env : Env) (w : World) (channel : Channel) (msgText : string)
    (msgDate msgID : Z) (author : string) (media : list Media) (link : string) :
  let message :=
    mkMessage msgID (ID channel) (Title channel) msgText (time_Unix msgDate)
      author media link in
  let saved := MessageStore.SaveMessage env (disk w) message in
  let r := Modular.ProcessMessage env w channel msgText msgDate msgID author media link in
  (is_Some r.1 <->
     ChannelService.passesFilters channel msgText = true /\ is_Some saved.1) /\
  (ChannelService.passesFilters channel msgText = false -> r = (None, w)) /\
  (ChannelService.passesFilters channel msgText = true ->
   saved.1 = None ->
   is_Some (ChannelStore.SaveChannel env saved.2
              (Modular.set_LastUpdate channel (time_Now env))).1 ->
   r.1 = None /\
   messages_dir (disk r.2) = messages_dir saved.2 /\
   stored_message (disk r.2) (ID channel) msgID = Some (RegularFile (Some message)) /\
   log r.2 = log w ++ [(LevelError, "Failed to update channel last update time")]).
Proof.
  intros message saved r. subst r. unfold Modular.ProcessMessage.
  fold message. fold saved.
  destruct (ChannelService.passesFilters channel msgText) eqn:P; simpl.
  2:{ split; [|split; [done|done]].
      split; [by intros [? ?] | by intros [? _]]. }
  destruct saved as [[e|] d1] eqn:S; simpl.
  { split; [|split; [done|done]]. split; [by intros _|by eexists]. }
  destruct (ChannelStore.SaveChannel env d1 _) as [[e|] d2] eqn:C; simpl.
  - split; [|split; [done|]].
    { split; [by intros [? ?] | by intros [_ [? ?]]]. }
    intros _ _ _.
    pose proof (SaveChannel_messages env d1
                  (Modular.set_LastUpdate channel (time_Now env))) as Hd.
    rewrite C in Hd. simpl in Hd.
    split; [done|]. split; [done|]. split; [|done].
    assert (Hok : save_message_succeeds env (disk w) message).
    { apply SaveMessage_succeeds_iff. fold saved. by rewrite S. }
    pose proof (SaveMessage_stored env (disk w) message Hok) as Hst.
    fold saved in Hst. rewrite S in Hst.
    unfold stored_message, message_files in *. by rewrite Hd.
  - split; [|split; [done|]].
    { split; [by intros [? ?] | by intros [_ [? ?]]]. }
    intros _ _ [? ?]. done.
Qed.

Lemma C2_ProcessMessage_witness :
  let r := Modular.ProcessMessage (channel_writes_fail 1000) (mkWorld test_disk [])
             test_channel "hello" 1700000000 8 "Unknown" [] "https://t.me/testchannel/8" in
  r.1 = None /\
  messages_dir (disk r.2) =
    messages_dir (MessageStore.SaveMessage (channel_writes_fail 1000) test_disk
                    sample_post_message).2 /\
  stored_message (disk r.2) "42" 8 = Some (RegularFile (Some sample_post_message)) /\
  log r.2 = [(LevelError, "Failed to update channel last update time")].
Proof.
  apply (proj2 (proj2 (C2_ProcessMessage_error_iff_message_save_fails
           (channel_writes_fail 1000) (mkWorld test_disk []) test_channel "hello"
           1700000000 8 "Unknown" [] "https://t.me/testchannel/8"))).
  - reflexivity.
  - vm_compute. reflexivity.
  - vm_compute. by eexists.
Defined.

Lemma GetChannel_absent (env : Env) (d : Disk) (channelID : string) :
  channels_dir d !! channel_file channelID = None ->
  ChannelStore.GetChannel env d channelID = Err ErrChannelNotFound.
Proof. unfold ChannelStore.GetChannel. by intros ->. Qed.

(** Both handlers drop a post whenever the channel lookup fails, whatever
    the reason. *)
Lemma processChannelPost_lookup_error
    (CaseRanges : list Go.CaseRange) (has_monitor has_feed : bool)
    (env : Env) (w : World) (msg : TgMessage) (e : error) :
  ChannelStore.GetChannel env (disk w) (Go.itoa (ChatID msg)) = Err e ->
  Modular.processChannelPost env w (Some msg) = w /\
  Flat.processChannelPost CaseRanges has_monitor has_feed env w (Some msg) = w.
Proof.
  intros H. unfold Modular.processChannelPost, Flat.processChannelPost.
  by rewrite H.
Qed.

(** C4. A post for a channel that is not in the store, or whose channel is
    not active, is a silent no-op in both handlers: the world after the call
    is the world before it, so no message is written, the channel record
    (with its [LastUpdate]) is untouched and nothing is logged; the handlers
    have no error result. *)
Theorem C4_unknown_or_inactive_channel_is_noop
    (CaseRanges : list Go.CaseRange) (has_monitor has_feed : bool)
    (env : Env) (w : World) (msg : TgMessage) :
  (channels_dir (disk w) !! channel_file (Go.itoa (ChatID msg)) = None \/
   exists channel,
     ChannelStore.GetChannel env (disk w) (Go.itoa (ChatID msg)) = Ok channel /\
     IsActive channel = false) ->
  Modular.processChannelPost env w (Some msg) = w /\
  Flat.processChannelPost CaseRanges has_monitor has_feed env w (Some msg) = w.
Proof.
  intros [Habs | [channel [Hc Hin]]].
  - eapply processChannelPost_lookup_error. by apply GetChannel_absent.
  - unfold Modular.processChannelPost, Flat.processChannelPost.
    by rewrite Hc, Hin.
Qed.

Lemma C4_inactive_channel_witness :
  Modular.processChannelPost (no_faults 1000) (mkWorld paused_disk []) (Some sample_post)
    = mkWorld paused_disk [] /\
  Flat.processChannelPost Go.CaseRanges_Latin_Cyrillic true true (no_faults 1000)
    (mkWorld paused_disk []) (Some sample_post) = mkWorld paused_disk [].
Proof.
  apply (C4_unknown_or_inactive_channel_is_noop Go.CaseRanges_Latin_Cyrillic true true
           (no_faults 1000) (mkWorld paused_disk []) sample_post).
  right. exists paused_channel. split; [vm_compute; reflexivity | reflexivity].
Defined.

(** The flat handler never writes to the channel store. *)
Lemma Flat_processChannelPost_channels
    (CaseRanges : list Go.CaseRange) (has_monitor has_feed : bool)
    (env : Env) (w : World) (msg : option TgMessage) :
  channels_dir (disk (Flat.processChannelPost CaseRanges has_monitor has_feed env w msg))
    = channels_dir (disk w).
Proof.
  unfold Flat.processChannelPost.
  destruct msg as [msg|]; [|done].
  destruct (ChannelStore.GetChannel _ _ _) as [channel|e]; [|done].
  destruct (negb (IsActive channel)); [done|].
  destruct has_monitor; [|done].
  destruct (negb (BotHandler.passesFilters _ _ _)); [done|].
  match goal with
  | |- context [MessageStore.SaveMessage ?e ?d ?m] =>
    pose proof (SaveMessage_channels e d m) as Hch;
    destruct (MessageStore.SaveMessage e d m) as [[err|] d1]
  end; simpl in *; [done|].
  destruct has_feed; simpl; done.
Qed.

(** On the modular path, when the filters pass and the message is saved,
    the channel handed to [SaveChannel] carries the ingestion time as
    [LastUpdate]; if that save goes through, the stored channel record is
    this channel. *)
Lemma Modular_ProcessMessage_updates_LastUpdate
    (env : Env) (w : World) (channel : Channel) (msgText : string)
    (msgDate msgID : Z) (author : string) (media : list Media) (link : string) :
  let message :=
    mkMessage msgID (ID channel) (Title channel) msgText (time_Unix msgDate)
      author media link in
  let saved := MessageStore.SaveMessage env (disk w) message in
  let touched := Modular.set_LastUpdate channel (time_Now env) in
  let r := Modular.ProcessMessage env w channel msgText msgDate msgID author media link in
  ChannelService.passesFilters channel msgText = true ->
  saved.1 = None ->
  LastUpdate touched = time_Now env /\
  ((ChannelStore.SaveChannel env saved.2 touched).1 = None ->
     r.1 = None /\
     channels_dir (disk r.2) !! channel_file (ID channel) = Some (RegularFile (Some touched)) /\
     (read_fails env (filepath_Join "channels" (channel_file (ID channel))) = false ->
      ChannelStore.GetChannel env (disk r.2) (ID channel) = Ok touched)).
Proof.
  intros message saved touched r P S. subst r. unfold Modular.ProcessMessage.
  fold message. fold saved. fold touched. rewrite P. simpl.
  destruct saved as [[e|] d1]; simpl in *; [done|].
  split; [done|].
  pose proof (SaveChannel_success env d1 touched) as Hs.
  destruct (ChannelStore.SaveChannel env d1 touched) as [[e|] d2]; simpl in *; [done|].
  intros _. rewrite (Hs eq_refl). simpl.
  assert (Hl : <[channel_file (ID channel) := RegularFile (Some touched)]> (channels_dir d1)
                 !! channel_file (ID channel) = Some (RegularFile (Some touched)))
    by apply lookup_insert_eq.
  split; [done|]. split; [exact Hl|].
  intros Hr. unfold ChannelStore.GetChannel. simpl.
  change (ID touched) with (ID channel). by rewrite Hl, Hr.
Qed.

(** C5 (evaluation at the failing input). The sample post arrives for the
    active sample channel, which has no filters, and nothing fails.  The
    flat [BotHandler.processChannelPost] saves the message and leaves the
    channel record as it was: its [LastUpdate] is still 0, not the
    ingestion time 1000.  The modular handler, given the same post in the
    same state, saves the message and then the channel with [LastUpdate]
    set to 1000. *)
Theorem C5_flat_path_keeps_LastUpdate :
  let env := no_faults 1000 in
  let w := mkWorld test_disk [] in
  let flat :=
    Flat.processChannelPost Go.CaseRanges_Latin_Cyrillic true true env w (Some sample_post) in
  let modular := Modular.processChannelPost env w (Some sample_post) in
  ChannelStore.GetChannel env (disk w) (Go.itoa (ChatID sample_post)) = Ok test_channel /\
  IsActive test_channel = true /\
  BotHandler.passesFilters Go.CaseRanges_Latin_Cyrillic test_channel sample_post = true /\
  time_Now env = 1000 /\
  stored_message (disk flat) "42" 8 = Some (RegularFile (Some sample_post_message)) /\
  ChannelStore.GetChannel env (disk flat) "42" = Ok test_channel /\
  LastUpdate test_channel = 0 /\
  stored_message (disk modular) "42" 8 = Some (RegularFile (Some sample_post_message)) /\
  ChannelStore.GetChannel env (disk modular) "42"
    = Ok (Modular.set_LastUpdate test_channel 1000) /\
  LastUpdate (Modular.set_LastUpdate test_channel 1000) = 1000.
Proof. repeat split; vm_compute; reflexivity. Qed.

(** ** The two filter implementations side by side *)

Lemma toLower_is_lower_ascii (s : string) :
  ChannelService.toLower s = Go.lower_ascii s.
Proof. induction s as [|c s IH]; simpl; [done | by rewrite IH]. Qed.

Lemma ToLower_ascii (CaseRanges : list Go.CaseRange) (s : string) :
  Go.isASCII s = true -> Go.ToLower CaseRanges s = ChannelService.toLower s.
Proof. intros H. unfold Go.ToLower. rewrite H. symmetry. apply toLower_is_lower_ascii. Qed.

Lemma toLower_length (s : string) :
  String.length (ChannelService.toLower s) = String.length s.
Proof. induction s as [|c s IH]; simpl; [done | by rewrite IH]. Qed.

Lemma HasPrefix_substring (t s : string) :
  Go.HasPrefix t s = String.eqb (String.substring 0 (String.length s) t) s.
Proof.
  revert t. induction s as [|p s IH]; intros t; simpl.
  - by destruct t.
  - destruct t as [|c t]; simpl; [done|]. rewrite IH.
    by destruct (Ascii.eqb c p).
Qed.

Lemma HasPrefix_refl (s : string) : Go.HasPrefix s s = true.
Proof. induction s as [|c s IH]; simpl; [done|]. by rewrite Ascii.eqb_refl. Qed.

Lemma Contains_refl (s : string) : Go.Contains s s = true.
Proof. destruct s; simpl; [done|]. by rewrite Ascii.eqb_refl, HasPrefix_refl. Qed.

Lemma Contains_too_long (t s : string) :
  (String.length t < String.length s)%nat -> Go.Contains t s = false.
Proof.
  intros H. destruct (Go.Contains t s) eqn:E; [|done].
  apply Contains_spec in E as (pre & suf & ->).
  rewrite !length_app_string in H. lia.
Qed.

Lemma containsSubstring_loop_shift (c : ascii) (t s : string) (i k : nat) :
  ChannelService.containsSubstring_loop (String c t) s (S i) k =
  ChannelService.containsSubstring_loop t s i k.
Proof.
  revert i. induction k as [|k IH]; intros i; simpl; [done|].
  rewrite IH. unfold Go.slice.
  replace (S (i + String.length s) - S i)%nat with (i + String.length s - i)%nat by lia.
  done.
Qed.

Lemma containsSubstring_loop_Contains (t s : string) :
  ChannelService.containsSubstring_loop t s 0
    (Z.to_nat (Go.len t - Go.len s + 1)) = Go.Contains t s.
Proof.
  unfold Go.len. induction t as [|c t IH].
  - destruct s as [|p s]; simpl; [done|].
    replace (Z.to_nat _) with 0%nat by lia. done.
  - destruct (le_lt_dec (String.length s) (String.length (String c t))) as [Hle|Hgt].
    + replace (Z.to_nat _) with
        (S (Z.to_nat (Z.of_nat (String.length t) - Z.of_nat (String.length s) + 1)))
        by (simpl in *; lia).
      cbn [ChannelService.containsSubstring_loop Go.Contains].
      rewrite containsSubstring_loop_shift, IH, HasPrefix_substring.
      unfold Go.slice. rewrite Nat.add_0_l, Nat.sub_0_r.
      by destruct (String.eqb _ s).
    + rewrite (Contains_too_long _ _ Hgt).
      replace (Z.to_nat _) with 0%nat by (simpl in *; lia). done.
Qed.

Lemma containsSubstring_Contains (text substr : string) :
  ChannelService.containsSubstring text substr =
  Go.Contains (ChannelService.toLower text) (ChannelService.toLower substr).
Proof. apply containsSubstring_loop_Contains. Qed.

(** On ASCII input the two keyword tests agree. *)
Lemma contains_containsKeyword_ascii (CaseRanges : list Go.CaseRange)
    (text keyword : string) :
  Go.isASCII text = true -> Go.isASCII keyword = true ->
  ChannelService.contains text keyword =
  BotHandler.containsKeyword CaseRanges text keyword.
Proof.
  intros Ht Hk. unfold ChannelService.contains, BotHandler.containsKeyword.
  rewrite !ToLower_ascii, containsSubstring_Contains by done.
  unfold Go.len.
  destruct keyword as [|p kw]; [done|].
  change (Z.of_nat (String.length (String p kw)) =? 0) with false.
  change (0 <? Z.of_nat (String.length (String p kw))) with true.
  cbn [andb].
  destruct (Z.leb_spec (Z.of_nat (String.length (String p kw)))
              (Z.of_nat (String.length text))) as [Hle|Hgt]; cbn [andb].
  - destruct (String.eqb_spec text (String p kw)) as [->|_]; [|done].
    by rewrite Contains_refl.
  - symmetry. apply Contains_too_long. rewrite !toLower_length. lia.
Qed.

Lemma any_keyword_ContainsBy_ascii (CaseRanges : list Go.CaseRange)
    (text : string) (keywords : list string) :
  Go.isASCII text = true ->
  Forall (fun keyword => Go.isASCII keyword = true) keywords ->
  ChannelService.any_keyword text keywords =
  BotHandler.lo_ContainsBy keywords
    (fun keyword => BotHandler.containsKeyword CaseRanges text keyword).
Proof.
  intros Ht Hk. unfold BotHandler.lo_ContainsBy.
  induction Hk as [|keyword rest Hkw _ IH]; simpl; [done|].
  rewrite (contains_containsKeyword_ascii CaseRanges) by done.
  rewrite IH. by destruct (BotHandler.containsKeyword _ _ _).
Qed.

(** When the text and all keywords are ASCII, the flat and the modular
    filter evaluation return the same verdict. *)
Lemma passesFilters_agree_on_ascii (CaseRanges : list Go.CaseRange)
    (channel : Channel) (msg : TgMessage) :
  Go.isASCII (BotHandler.filter_text msg) = true ->
  ascii_keywords (Filters channel) ->
  BotHandler.passesFilters CaseRanges channel msg =
  ChannelService.passesFilters channel (BotHandler.filter_text msg).
Proof.
  intros Ht Hk. unfold BotHandler.passesFilters, ChannelService.passesFilters.
  destruct (List.length (Filters channel) =? 0)%nat; [done|].
  induction Hk as [|f rest Hf _ IH]; simpl; [done|].
  rewrite (any_keyword_ContainsBy_ascii CaseRanges) by done.
  by rewrite IH.
Qed.

Example passesFilters_agree_on_ascii_ex :
  let channel :=
    mkChannel "42" "c" "T" 1 0
      [mkFilter FilterTypeKeywords ["Tech"] true;
       mkFilter FilterTypeExcludeKeywords ["spam"] true] 0 true in
  let msg := mkTgMessage 1 42 "new TECH release" "" 0 None [] None None None in
  BotHandler.passesFilters Go.CaseRanges_Latin_Cyrillic channel msg = true /\
  ChannelService.passesFilters channel "new TECH release" = true.
Proof. split; reflexivity. Qed.

(** Whatever the case table, if it lower-cases the post and the keyword as
    Unicode prescribes, the flat handler lets the post through. *)
Lemma flat_accepts_news_post (CaseRanges : list Go.CaseRange) :
  Go.ToLower CaseRanges "Новости дня" = "новости дня" ->
  Go.ToLower CaseRanges "новости" = "новости" ->
  BotHandler.passesFilters CaseRanges news_channel news_post = true.
Proof.
  intros Ht Hk.
  unfold BotHandler.passesFilters, news_channel, news_post, news_filter.
  cbn [Filters List.length Nat.eqb BotHandler.passesFilters_loop Enabled negb
       Type_ Keywords BotHandler.lo_ContainsBy existsb].
  change (BotHandler.filter_text _) with "Новости дня".
  unfold BotHandler.containsKeyword.
  change (Go.len "новости" =? 0) with false. cbv iota.
  rewrite Ht, Hk. reflexivity.
Qed.

(** C7 (evaluation at the failing input). The channel admits posts that
    contain the keyword "новости"; the post "Новости дня" contains it up to
    letter case.  The flat handler, which folds case with [strings.ToLower],
    lets the post through; the channel service, whose [toLower] only maps
    the bytes 'A'..'Z', rejects it. *)
Theorem C7_filters_disagree_on_cyrillic :
  BotHandler.filter_text news_post = "Новости дня" /\
  Go.ToLower Go.CaseRanges_Latin_Cyrillic "Новости дня" = "новости дня" /\
  ChannelService.toLower "Новости дня" = "Новости дня" /\
  BotHandler.passesFilters Go.CaseRanges_Latin_Cyrillic news_channel news_post = true /\
  ChannelService.passesFilters news_channel (BotHandler.filter_text news_post) = false.
Proof. repeat split; vm_compute; reflexivity. Qed.
(** * Further properties *)

(** ** Keyword filters of the channel service *)

(** [contains] holds exactly for a non-empty keyword that occurs in the
    text once the bytes 'A'..'Z' of both are lower-cased; the comparison
    [text == keyword] and the length guard add nothing to that. *)
Theorem contains_spec (text keyword : string) :
  ChannelService.contains text keyword = true <->
  keyword <> "" /\
  exists pre suf,
    ChannelService.toLower text = pre +:+ ChannelService.toLower keyword +:+ suf.
Proof.
  unfold ChannelService.contains. rewrite containsSubstring_Contains.
  rewrite !andb_true_iff, orb_true_iff, <- Contains_spec.
  split.
  - intros [[Hk _] [Heq | Hc]].
    + split; [intros ->; by compute in Hk|].
      apply String.eqb_eq in Heq as ->. apply Contains_refl.
    + split; [intros ->; by compute in Hk | done].
  - intros [Hne Hc]. split; [split|by right].
    + destruct keyword; [done|]. reflexivity.
    + apply Z.leb_le. unfold Go.len.
      destruct (le_lt_dec (String.length keyword) (String.length text)) as [H|H]; [lia|].
      rewrite Contains_too_long in Hc; [done|]. by rewrite !toLower_length.
Qed.

Lemma any_keyword_exists (text : string) (keywords : list string) :
  ChannelService.any_keyword text keywords = true <->
  exists keyword, In keyword keywords /\ ChannelService.contains text keyword = true.
Proof.
  induction keywords as [|k rest IH]; simpl.
  - split; [done | by intros (? & [] & _)].
  - destruct (ChannelService.contains text k) eqn:E.
    + split; [intros _; exists k; auto | done].
    + rewrite IH. split.
      * intros (k' & Hin & Hk). exists k'. auto.
      * intros (k' & [<-|Hin] & Hk); [congruence|]. by exists k'.
Qed.

Lemma any_keyword_none (text : string) (keywords : list string) :
  ChannelService.any_keyword text keywords = false <->
  forall keyword, In keyword keywords -> ChannelService.contains text keyword = false.
Proof.
  rewrite <- not_true_iff_false, any_keyword_exists. split.
  - intros Hn k Hin. destruct (ChannelService.contains text k) eqn:E; [|done].
    exfalso. apply Hn. by exists k.
  - intros Hall (k & Hin & Hk). rewrite (Hall k Hin) in Hk. done.
Qed.

Lemma Service_loop_admits (text : string) (filters : list Filter) :
  ChannelService.passesFilters_loop filters text = true <->
  Forall (filter_admits (ChannelService.contains text)) filters.
Proof.
  induction filters as [|f rest IH]; simpl; [by split; [constructor|]|].
  rewrite Forall_cons, <- IH. clear IH. unfold filter_admits.
  unfold FilterTypeKeywords, FilterTypeExcludeKeywords.
  destruct (Enabled f); simpl; [|by intuition].
  destruct (String.eqb_spec (Type_ f) "keywords") as [Hk|Hk].
  { destruct (ChannelService.any_keyword text (Keywords f)) eqn:A; simpl.
    - apply any_keyword_exists in A. split; [|tauto].
      intros Hr. split; [|done]. intros _. split; [done|]. rewrite Hk. done.
    - split; [done|]. intros [Hf _]. destruct (Hf eq_refl) as [Hex _].
      specialize (Hex Hk). apply any_keyword_exists in Hex. congruence. }
  destruct (String.eqb_spec (Type_ f) "exclude_keywords") as [Hx|Hx].
  { destruct (ChannelService.any_keyword text (Keywords f)) eqn:A; simpl.
    - split; [done|]. intros [Hf _]. destruct (Hf eq_refl) as [_ Hall].
      specialize (Hall Hx). apply (proj2 (any_keyword_none _ _)) in Hall. congruence.
    - pose proof (proj1 (any_keyword_none _ _) A) as Hnone. split; [|tauto].
      intros Hr. split; [|done]. intros _. split; [done|]. intros _. exact Hnone. }
  split; [|tauto]. intros Hr. split; [|done]. intros _. split; done.
Qed.

Lemma Service_passesFilters_all_admit (channel : Channel) (text : string) :
  ChannelService.passesFilters channel text = true <->
  Forall (filter_admits (ChannelService.contains text)) (Filters channel).
Proof.
  unfold ChannelService.passesFilters.
  destruct (Filters channel) as [|f rest] eqn:E; [by split; [constructor|]|].
  change ((List.length (f :: rest) =? 0)%nat) with false. cbv iota.
  apply Service_loop_admits.
Qed.

(** [Service.passesFilters] lets a text through exactly when every filter
    of the channel admits it: each enabled include filter has a keyword
    contained in the text and no enabled exclude filter has one. *)
Theorem Service_passesFilters_spec (channel : Channel) (text : string) :
  ChannelService.passesFilters channel text = true <->
  Forall (filter_admits (ChannelService.contains text)) (Filters channel).
Proof. exact (Service_passesFilters_all_admit channel text). Qed.

Lemma BotHandler_loop_admits (CaseRanges : list Go.CaseRange) (text : string)
    (filters : list Filter) :
  BotHandler.passesFilters_loop CaseRanges filters text = true <->
  Forall (filter_admits (BotHandler.containsKeyword CaseRanges text)) filters.
Proof.
  induction filters as [|f rest IH]; simpl; [by split; [constructor|]|].
  rewrite Forall_cons, <- IH. clear IH. unfold filter_admits, BotHandler.lo_ContainsBy.
  unfold FilterTypeKeywords, FilterTypeExcludeKeywords.
  destruct (Enabled f); simpl; [|by intuition].
  destruct (String.eqb_spec (Type_ f) "keywords") as [Hk|Hk].
  { destruct (existsb _ (Keywords f)) eqn:A; simpl.
    - apply existsb_exists in A. split; [|tauto].
      intros Hr. split; [|done]. intros _. split; [done|]. rewrite Hk. done.
    - split; [done|]. intros [Hf _]. destruct (Hf eq_refl) as [Hex _].
      specialize (Hex Hk).
      assert (existsb (fun keyword => BotHandler.containsKeyword CaseRanges text keyword)
                (Keywords f) = true) by (apply existsb_exists; exact Hex).
      congruence. }
  destruct (String.eqb_spec (Type_ f) "exclude_keywords") as [Hx|Hx].
  { destruct (existsb _ (Keywords f)) eqn:A; simpl.
    - split; [done|]. intros [Hf _]. destruct (Hf eq_refl) as [_ Hall].
      apply existsb_exists in A as (k & Hin & Hm). rewrite (Hall Hx k Hin) in Hm. done.
    - split; [|tauto]. intros Hr. split; [|done]. intros _. split; [done|].
      intros _ k Hin. destruct (BotHandler.containsKeyword CaseRanges text k) eqn:E; [|done].
      assert (existsb (fun keyword => BotHandler.containsKeyword CaseRanges text keyword)
                (Keywords f) = true) by (apply existsb_exists; by exists k).
      congruence. }
  split; [|tauto]. intros Hr. split; [|done]. intros _. split; done.
Qed.

Lemma BotHandler_passesFilters_admits (CaseRanges : list Go.CaseRange)
    (channel : Channel) (msg : TgMessage) :
  BotHandler.passesFilters CaseRanges channel msg = true <->
  Forall (filter_admits (BotHandler.containsKeyword CaseRanges (BotHandler.filter_text msg)))
    (Filters channel).
Proof.
  unfold BotHandler.passesFilters.
  destruct (Filters channel) as [|f rest] eqn:E; [by split; [constructor|]|].
  change ((List.length (f :: rest) =? 0)%nat) with false. cbv iota.
  apply BotHandler_loop_admits.
Qed.

(** The verdict does not depend on the order of a channel's filters, in
    either implementation. *)
Theorem passesFilters_order_irrelevant (CaseRanges : list Go.CaseRange)
    (channel channel' : Channel) (msg : TgMessage) (text : string) :
  Filters channel ≡ₚ Filters channel' ->
  ChannelService.passesFilters channel text = ChannelService.passesFilters channel' text /\
  BotHandler.passesFilters CaseRanges channel msg =
    BotHandler.passesFilters CaseRanges channel' msg.
Proof.
  intros Hp. split; apply eq_true_iff_eq.
  - rewrite !Service_passesFilters_all_admit. by rewrite Hp.
  - rewrite !BotHandler_passesFilters_admits. by rewrite Hp.
Qed.

Lemma passesFilters_order_witness :
  let c1 := set_Filters test_channel
              [mkFilter FilterTypeKeywords ["tech"] true;
               mkFilter FilterTypeExcludeKeywords ["spam"] true] in
  let c2 := set_Filters test_channel
              [mkFilter FilterTypeExcludeKeywords ["spam"] true;
               mkFilter FilterTypeKeywords ["tech"] true] in
  ChannelService.passesFilters c1 "tech spam" = ChannelService.passesFilters c2 "tech spam" /\
  BotHandler.passesFilters Go.CaseRanges_Latin_Cyrillic c1 sample_post =
    BotHandler.passesFilters Go.CaseRanges_Latin_Cyrillic c2 sample_post.
Proof.
  apply passesFilters_order_irrelevant. simpl. apply Permutation_swap.
Defined.

(** Filters only restrict: a text that passes a channel's filters also
    passes any sub-list of them, so adding a filter never admits a message
    that was rejected before. *)
Theorem passesFilters_more_filters_reject_more (CaseRanges : list Go.CaseRange)
    (channel : Channel) (kept : list Filter) (msg : TgMessage) (text : string) :
  kept ⊆ Filters channel ->
  (ChannelService.passesFilters channel text = true ->
   ChannelService.passesFilters (set_Filters channel kept) text = true) /\
  (BotHandler.passesFilters CaseRanges channel msg = true ->
   BotHandler.passesFilters CaseRanges (set_Filters channel kept) msg = true).
Proof.
  intros Hsub. rewrite !Service_passesFilters_all_admit, !BotHandler_passesFilters_admits.
  simpl. rewrite !Forall_forall. split; intros H f Hin; apply H, Hsub, Hin.
Qed.

Lemma passesFilters_more_filters_witness :
  let channel := set_Filters test_channel
              [mkFilter FilterTypeKeywords ["hello"] true;
               mkFilter FilterTypeExcludeKeywords ["spam"] true] in
  let kept := [mkFilter FilterTypeExcludeKeywords ["spam"] true] in
  (ChannelService.passesFilters channel "hello" = true ->
   ChannelService.passesFilters (set_Filters channel kept) "hello" = true) /\
  (BotHandler.passesFilters Go.CaseRanges_Latin_Cyrillic channel sample_post = true ->
   BotHandler.passesFilters Go.CaseRanges_Latin_Cyrillic (set_Filters channel kept)
     sample_post = true).
Proof.
  apply passesFilters_more_filters_reject_more.
  simpl. intros f Hf. apply elem_of_cons in Hf as [->|Hf]; [right; left|].
  by apply elem_of_nil in Hf.
Defined.

(** ** The channel store *)

Lemma filepath_Ext_json (s : string) : filepath_Ext (s +:+ ".json") = ".json".
Proof.
  induction s as [|c s IH]; [reflexivity|].
  change (String c s +:+ ".json") with (String c (s +:+ ".json")).
  cbn [filepath_Ext]. by rewrite IH.
Qed.

Lemma channel_file_inj (a b : string) : channel_file a = channel_file b -> a = b.
Proof. apply string_app_inj_r. Qed.

(** Save and look-up round trip, for channel ids that are file names: a
    channel that has been saved is what [GetChannel] returns for its id
    (unless the read fails); the records of all other ids and all messages
    are as before. *)
Theorem SaveChannel_GetChannel (env env' : Env) (d : Disk) (channel : Channel) :
  path_element (ID channel) = true ->
  (ChannelStore.SaveChannel env d channel).1 = None ->
  let d' := (ChannelStore.SaveChannel env d channel).2 in
  (read_fails env' (filepath_Join "channels" (channel_file (ID channel))) = false ->
   ChannelStore.GetChannel env' d' (ID channel) = Ok channel) /\
  (forall channelID, path_element channelID = true -> channelID <> ID channel ->
   ChannelStore.GetChannel env' d' channelID = ChannelStore.GetChannel env' d channelID) /\
  messages_dir d' = messages_dir d.
Proof.
  intros _ Hok d'. subst d'. rewrite (SaveChannel_success _ _ _ Hok).
  unfold ChannelStore.GetChannel. simpl. split; [|split; [|done]].
  - intros Hr. by rewrite lookup_insert_eq, Hr.
  - intros channelID _ Hne. rewrite lookup_insert_ne; [done|].
    intros E. by apply channel_file_inj in E.
Qed.

Lemma SaveChannel_GetChannel_witness :
  ChannelStore.GetChannel (no_faults 0)
    (ChannelStore.SaveChannel (no_faults 0) test_disk paused_channel).2 "42"
  = Ok paused_channel.
Proof.
  apply (SaveChannel_GetChannel (no_faults 0) (no_faults 0) test_disk paused_channel);
    reflexivity.
Defined.

Lemma DeleteChannel_cases (remove_fails : string -> bool) (env : Env) (d : Disk)
    (channelID : string) :
  let r := ChannelRepo.DeleteChannel remove_fails d channelID in
  (r.1 = None <->
     is_Some (channels_dir d !! channel_file channelID) /\
     remove_fails (filepath_Join "channels" (channel_file channelID)) = false) /\
  (is_Some r.1 -> r.2 = d) /\
  (r.1 = None ->
     ChannelStore.GetChannel env r.2 channelID = Err ErrChannelNotFound /\
     (forall other, other <> channelID ->
        ChannelStore.GetChannel env r.2 other = ChannelStore.GetChannel env d other) /\
     messages_dir r.2 = messages_dir d).
Proof.
  unfold ChannelRepo.DeleteChannel.
  destruct (channels_dir d !! channel_file channelID) as [e|] eqn:L; simpl.
  2:{ split; [|split; [done|done]]. split; [done|]. by intros [[? ?] _]. }
  destruct (remove_fails _) eqn:F; simpl.
  { split; [|split; [done|done]]. split; [done|by intros [_ ?]]. }
  split; [by split; [eauto|]|]. split; [by intros [? ?]|]. intros _.
  unfold ChannelStore.GetChannel. simpl. rewrite lookup_delete_eq.
  split; [done|]. split; [|done].
  intros other Hne. rewrite lookup_delete_ne; [done|].
  intros E. by apply channel_file_inj in E.
Qed.

(** [DeleteChannel], for channel ids that are file names, fails, changing
    nothing, when the channel is not in the store or the removal fails.
    When it succeeds the channel is no longer found, the other channels are
    as before, and the messages of the deleted channel stay on disk. *)
Theorem DeleteChannel_spec (remove_fails : string -> bool) (env : Env) (d : Disk)
    (channelID : string) :
  path_element channelID = true ->
  let r := ChannelRepo.DeleteChannel remove_fails d channelID in
  (r.1 = None <->
     is_Some (channels_dir d !! channel_file channelID) /\
     remove_fails (filepath_Join "channels" (channel_file channelID)) = false) /\
  (is_Some r.1 -> r.2 = d) /\
  (r.1 = None ->
     ChannelStore.GetChannel env r.2 channelID = Err ErrChannelNotFound /\
     (forall other, path_element other = true -> other <> channelID ->
        ChannelStore.GetChannel env r.2 other = ChannelStore.GetChannel env d other) /\
     messages_dir r.2 = messages_dir d).
Proof.
  intros _ r. destruct (DeleteChannel_cases remove_fails env d channelID) as (A & B & C).
  split; [exact A|]. split; [exact B|]. intros H. destruct (C H) as (X & Y & Z).
  split; [exact X|]. split; [|exact Z]. intros other _. apply Y.
Qed.

Lemma DeleteChannel_witness :
  ChannelStore.GetChannel (no_faults 0)
    (ChannelRepo.DeleteChannel (fun _ => false) test_disk "42").2 "42"
  = Err ErrChannelNotFound.
Proof.
  apply (proj2 (proj2 (DeleteChannel_spec (fun _ => false) (no_faults 0) test_disk "42"
                         eq_refl))).
  reflexivity.
Defined.

Lemma lo_FilterMap_omap {A B} (f : A -> option B) (l : list A) :
  lo_FilterMap l (fun a _ => f a) = omap f l.
Proof.
  unfold lo_FilterMap. generalize 0%nat.
  induction l as [|a l IH]; intros i; csimpl; [done|].
  rewrite IH. by destruct (f a).
Qed.

Lemma omap_length_le {A B} (f : A -> option B) (l : list A) :
  (length (omap f l) <= length l)%nat.
Proof. induction l as [|a l IH]; csimpl; [done|]. destruct (f a); csimpl; lia. Qed.

(** [GetAllChannels] fails only when the directory cannot be read.
    Otherwise it lists exactly the channels held by readable, well-formed
    [.json] files of the directory: directories, other files and corrupt
    records are skipped without an error. *)
Theorem GetAllChannels_spec (env : Env) (d : Disk) :
  (readdir_fails env "channels" = true ->
   exists e, ChannelRepo.GetAllChannels env d = Err e) /\
  (readdir_fails env "channels" = false ->
   exists listed,
     ChannelRepo.GetAllChannels env d = Ok listed /\
     (length listed <= size (channels_dir d))%nat /\
     forall channel,
       channel ∈ listed <->
       exists name,
         channels_dir d !! name = Some (RegularFile (Some channel)) /\
         filepath_Ext name = ".json" /\
         read_fails env (filepath_Join "channels" name) = false).
Proof.
  unfold ChannelRepo.GetAllChannels. split; intros ->; [by eexists|].
  eexists. split; [reflexivity|].
  change (ChannelRepo.load_entry env) with
    (fun (a : string * DirEntry Channel) (_ : nat) => ChannelRepo.load_entry env a 0%nat).
  rewrite lo_FilterMap_omap. split.
  - etrans; [apply omap_length_le|].
    unfold ReadDir. rewrite merge_sort_Permutation, length_map_to_list. done.
  - intros channel. rewrite list_elem_of_omap. split.
    + intros ([name entry] & Hin & Hload).
      unfold ReadDir in Hin. rewrite merge_sort_Permutation in Hin.
      apply elem_of_map_to_list in Hin.
      unfold ChannelRepo.load_entry in Hload. simpl in Hload.
      destruct entry as [decoded|]; [|done].
      destruct (String.eqb_spec (filepath_Ext name) ".json") as [He|]; [|done].
      simpl in Hload. destruct (read_fails env _) eqn:Hr; [done|].
      subst decoded. by exists name.
    + intros (name & Hl & He & Hr). exists (name, RegularFile (Some channel)).
      split.
      * unfold ReadDir. rewrite merge_sort_Permutation. by apply elem_of_map_to_list.
      * unfold ChannelRepo.load_entry. simpl. by rewrite He, Hr.
Qed.

Lemma GetAllChannels_witness :
  exists listed,
    ChannelRepo.GetAllChannels (no_faults 0) test_disk = Ok listed /\
    (length listed <= size (channels_dir test_disk))%nat /\
    forall channel,
      channel ∈ listed <->
      exists name,
        channels_dir test_disk !! name = Some (RegularFile (Some channel)) /\
        filepath_Ext name = ".json" /\
        read_fails (no_faults 0) (filepath_Join "channels" name) = false.
Proof.
  apply (proj2 (GetAllChannels_spec (no_faults 0) test_disk)). reflexivity.
Defined.

(** ** The channel monitor *)

Lemma Start_loop_elem (channels : gset string) (stored : list Channel) (channelID : string) :
  channelID ∈ Monitor.Start_loop channels stored <->
  channelID ∈ channels \/
  exists ch, ch ∈ stored /\ IsActive ch = true /\ ID ch = channelID.
Proof.
  revert channels. induction stored as [|ch rest IH]; intros channels; simpl.
  - split; [by left|]. intros [H|(ch & Hin & _)]; [done|]. by apply elem_of_nil in Hin.
  - destruct (IsActive ch) eqn:Ha; rewrite IH; unfold Monitor.AddChannel.
    + rewrite elem_of_union, elem_of_singleton. split.
      * intros [[->|H]|(c & Hin & Hc)]; [right; exists ch; split; [left|done] | by left |].
        right. exists c. split; [by right|done].
      * intros [H|(c & Hin & Hc & Hid)]; [by left; right|].
        apply elem_of_cons in Hin as [->|Hin]; [by left; left|].
        right. by exists c.
    + split.
      * intros [H|(c & Hin & Hc)]; [by left|]. right. exists c. split; [by right|done].
      * intros [H|(c & Hin & Hc & Hid)]; [by left|].
        apply elem_of_cons in Hin as [->|Hin]; [congruence|]. right. by exists c.
Qed.

(** [Start] up to its return.  It launches the monitoring loop in every
    case and writes nothing to the store itself (the sweeps of the loop it
    has launched do, see [fetchChannelMessages]).  When the channels can be
    listed, the active set handed to the loop holds what it held before
    and the ids of the stored channels that are active, and nothing else;
    an inactive channel is not added.  When they cannot, the set is
    unchanged and the failure is logged. *)
Theorem Start_loads_active_channels (env : Env) (w : World) (channels : gset string) :
  let r := Monitor.Start env w channels in
  r.2 = [Monitor.monitorLoop] /\
  disk r.1.1 = disk w /\
  (forall e, ChannelRepo.GetAllChannels env (disk w) = Err e ->
     r.1.2 = channels /\
     log r.1.1 = log w ++ [(LevelError, "Failed to load channels")]) /\
  (forall stored, ChannelRepo.GetAllChannels env (disk w) = Ok stored ->
     r.1.1 = w /\
     forall channelID,
       channelID ∈ r.1.2 <->
       channelID ∈ channels \/
       exists ch, ch ∈ stored /\ IsActive ch = true /\ ID ch = channelID).
Proof.
  unfold Monitor.Start.
  destruct (ChannelRepo.GetAllChannels env (disk w)) as [stored|e]; simpl.
  - split; [done|]. split; [done|]. split; [done|]. intros ? [= <-]. split; [done|].
    intros channelID. apply Start_loop_elem.
  - split; [done|]. split; [done|]. split; [done|]. done.
Qed.

(** Once a channel has been deleted, posts that arrive for it are dropped
    by both handlers: the world stays as it is. *)
Theorem deleted_channel_posts_are_dropped
    (CaseRanges : list Go.CaseRange) (has_monitor has_feed : bool)
    (remove_fails : string -> bool) (env : Env) (w : World) (msg : TgMessage) :
  let r := ChannelRepo.DeleteChannel remove_fails (disk w) (Go.itoa (ChatID msg)) in
  r.1 = None ->
  let w' := mkWorld r.2 (log w) in
  Modular.processChannelPost env w' (Some msg) = w' /\
  Flat.processChannelPost CaseRanges has_monitor has_feed env w' (Some msg) = w'.
Proof.
  intros r Hok w'.
  destruct (DeleteChannel_cases remove_fails env (disk w) (Go.itoa (ChatID msg)))
    as (_ & _ & Hs).
  destruct (Hs Hok) as (Hg & _).
  by apply (processChannelPost_lookup_error _ _ _ _ w' msg ErrChannelNotFound).
Qed.

Lemma deleted_channel_posts_witness :
  let w' := mkWorld (ChannelRepo.DeleteChannel (fun _ => false) test_disk "42").2 [] in
  Modular.processChannelPost (no_faults 5) w' (Some sample_post) = w' /\
  Flat.processChannelPost Go.CaseRanges_Latin_Cyrillic true true (no_faults 5) w'
    (Some sample_post) = w'.
Proof.
  apply (deleted_channel_posts_are_dropped Go.CaseRanges_Latin_Cyrillic true true
           (fun _ => false) (no_faults 5) (mkWorld test_disk []) sample_post).
  reflexivity.
Defined.

Lemma fetchChannelMessages_cases (has_bot : bool) (env : Env) (w : World)
    (channelID : string) :
  let r := Monitor.fetchChannelMessages has_bot env w channelID in
  (is_Some r.1 <->
     has_bot = false \/ exists e, ChannelStore.GetChannel env (disk w) channelID = Err e) /\
  (is_Some r.1 -> r.2 = w) /\
  messages_dir (disk r.2) = messages_dir (disk w) /\
  (forall channel,
     has_bot = true ->
     ChannelStore.GetChannel env (disk w) channelID = Ok channel ->
     let touched := Modular.set_LastUpdate channel (time_Now env) in
     (IsActive channel = false -> r.2 = w) /\
     (IsActive channel = true ->
        (channels_dir (disk r.2) = channels_dir (disk w) \/
         channels_dir (disk r.2) =
           <[channel_file (ID channel) := RegularFile None]> (channels_dir (disk w)) \/
         channels_dir (disk r.2) =
           <[channel_file (ID channel) := RegularFile (Some touched)]> (channels_dir (disk w))) /\
        ((ChannelStore.SaveChannel env (disk w) touched).1 = None ->
         channels_dir (disk r.2) =
           <[channel_file (ID channel) := RegularFile (Some touched)]> (channels_dir (disk w))))).
Proof.
  unfold Monitor.fetchChannelMessages.
  destruct has_bot; simpl.
  2:{ split; [by split; [left|eauto]|]. split; [done|]. split; [done|]. by intros. }
  destruct (ChannelStore.GetChannel env (disk w) channelID) as [channel|e] eqn:G; simpl.
  2:{ split; [by split; [right; eauto|eauto]|]. split; [done|]. split; [done|]. by intros. }
  destruct (IsActive channel) eqn:A; simpl.
  2:{ split; [split; [intros [? ?]; discriminate | intros [?|[? ?]]; discriminate]|].
      split; [done|]. split; [done|]. intros c _ [= <-]. rewrite A. by split. }
  pose proof (SaveChannel_messages env (disk w)
                (Modular.set_LastUpdate channel (time_Now env))) as Hm.
  pose proof (SaveChannel_success env (disk w)
                (Modular.set_LastUpdate channel (time_Now env))) as Hs.
  pose proof (SaveChannel_failure env (disk w)
                (Modular.set_LastUpdate channel (time_Now env))) as Hf.
  destruct (ChannelStore.SaveChannel env (disk w)
              (Modular.set_LastUpdate channel (time_Now env))) as [[e|] d2] eqn:S;
    simpl in *.
  - split; [split; [intros [? ?]; discriminate | intros [?|[? ?]]; discriminate]|].
    split; [by intros [? ?]|]. split; [done|]. intros c _ [= <-]. rewrite A, ?S. simpl.
    split; [done|]. intros _. split; [|done].
    destruct (Hf e eq_refl) as [->|[_ [->| ->]]]; simpl; auto.
  - split; [split; [intros [? ?]; discriminate | intros [?|[? ?]]; discriminate]|].
    split; [by intros [? ?]|]. split; [done|]. intros c _ [= <-]. rewrite A, ?S. simpl.
    split; [done|]. intros _. rewrite (Hs eq_refl). simpl. split; [by right; right|done].
Qed.

(** One sweep unit.  It returns an error, and changes nothing, exactly when
    the bot is not set or the channel cannot be loaded.  It never touches a
    message.  For an inactive channel it changes nothing at all; for an
    active one the store of channels is left in one of three states: as it
    was, with the channel's file cut short by a write that failed (it no
    longer parses), or with the channel's file holding the channel with
    [LastUpdate] set to the current time, which is the case whenever the
    save goes through. *)
Theorem fetchChannelMessages_spec (has_bot : bool) (env : Env) (w : World)
    (channelID : string) :
  let r := Monitor.fetchChannelMessages has_bot env w channelID in
  (is_Some r.1 <->
     has_bot = false \/ exists e, ChannelStore.GetChannel env (disk w) channelID = Err e) /\
  (is_Some r.1 -> r.2 = w) /\
  messages_dir (disk r.2) = messages_dir (disk w) /\
  (forall channel,
     has_bot = true ->
     ChannelStore.GetChannel env (disk w) channelID = Ok channel ->
     let touched := Modular.set_LastUpdate channel (time_Now env) in
     (IsActive channel = false -> r.2 = w) /\
     (IsActive channel = true ->
        (channels_dir (disk r.2) = channels_dir (disk w) \/
         channels_dir (disk r.2) =
           <[channel_file (ID channel) := RegularFile None]> (channels_dir (disk w)) \/
         channels_dir (disk r.2) =
           <[channel_file (ID channel) := RegularFile (Some touched)]> (channels_dir (disk w))) /\
        ((ChannelStore.SaveChannel env (disk w) touched).1 = None ->
         channels_dir (disk r.2) =
           <[channel_file (ID channel) := RegularFile (Some touched)]> (channels_dir (disk w))))).
Proof. exact (fetchChannelMessages_cases has_bot env w channelID). Qed.

Lemma fetchChannelMessages_witness :
  let r := Monitor.fetchChannelMessages true (no_faults 77) (mkWorld test_disk []) "42" in
  channels_dir (disk r.2) =
    <[channel_file "42" := RegularFile (Some (Modular.set_LastUpdate test_channel 77))]>
      (channels_dir test_disk).
Proof.
  pose proof (fetchChannelMessages_spec true (no_faults 77) (mkWorld test_disk []) "42")
    as (_ & _ & _ & H).
  destruct (H test_channel eq_refl eq_refl) as (_ & Ha).
  exact (proj2 (Ha eq_refl) eq_refl).
Defined.

Lemma GetChannel_Ok_inv (env : Env) (d : Disk) (channelID : string) (channel : Channel) :
  ChannelStore.GetChannel env d channelID = Ok channel <->
  channels_dir d !! channel_file channelID = Some (RegularFile (Some channel)) /\
  read_fails env (filepath_Join "channels" (channel_file channelID)) = false.
Proof.
  unfold ChannelStore.GetChannel.
  destruct (channels_dir d !! channel_file channelID) as [[[c|]|]|];
    try (split; [done | by intros [? ?]]);
    destruct (read_fails env _); split; try done; try (by intros [? ?]).
  - by intros [= ->].
  - by intros [[= ->] _].
Qed.

Lemma GenerateFeed_depends_on (env : Env) (d d' : Disk) (channelID baseURL : string) :
  channels_dir d' !! channel_file channelID = channels_dir d !! channel_file channelID ->
  messages_dir d' !! channelID = messages_dir d !! channelID ->
  FeedService.GenerateFeed env d' channelID baseURL =
  FeedService.GenerateFeed env d channelID baseURL.
Proof.
  intros Hc Hm.
  unfold FeedService.GenerateFeed, ChannelStore.GetChannel, MessageStore.GetMessages.
  by rewrite Hc, Hm.
Qed.

(** A sweep changes no feed entry.  For channel ids that are file names
    and a swept channel that is stored under its own id: the feed of every
    other channel is generated after the sweep unit exactly as before; the
    feed of the swept channel, when it is still generated, has the entries
    and the metadata it had before, only its [Updated] time may have moved
    to the time of the sweep; and it is still generated whenever the
    sweep's save of the channel goes through.  (A save that fails half way
    leaves a record that does not parse, and then no feed.) *)
Theorem sweep_keeps_feed_entries (has_bot : bool) (env env' : Env) (w : World)
    (channelID feedID baseURL : string) (channel : Channel) (feed : Feed) :
  path_element channelID = true ->
  path_element feedID = true ->
  ChannelStore.GetChannel env (disk w) channelID = Ok channel ->
  ID channel = channelID ->
  FeedService.GenerateFeed env' (disk w) feedID baseURL = Ok feed ->
  let w' := (Monitor.fetchChannelMessages has_bot env w channelID).2 in
  (feedID <> channelID ->
     FeedService.GenerateFeed env' (disk w') feedID baseURL = Ok feed) /\
  (forall feed',
     FeedService.GenerateFeed env' (disk w') feedID baseURL = Ok feed' ->
     exists updated,
       feed' = mkFeed (FeedTitle feed) (FeedLink feed) (FeedDescription feed)
                 (FeedAuthor feed) (FeedCreated feed) updated (Items feed) /\
       (updated = FeedUpdated feed \/ (feedID = channelID /\ updated = time_Now env))) /\
  ((ChannelStore.SaveChannel env (disk w)
      (Modular.set_LastUpdate channel (time_Now env))).1 = None ->
   exists feed', FeedService.GenerateFeed env' (disk w') feedID baseURL = Ok feed').
Proof.
  intros _ _ G Hid F w'.
  pose proof (fetchChannelMessages_cases has_bot env w channelID) as (_ & Herr & Hm & Hc).
  fold w' in Herr, Hm, Hc.
  assert (Hsame : channels_dir (disk w') !! channel_file feedID
                  = channels_dir (disk w) !! channel_file feedID ->
    FeedService.GenerateFeed env' (disk w') feedID baseURL = Ok feed).
  { intros Hch. rewrite <- F. apply GenerateFeed_depends_on; [done|by rewrite Hm]. }
  assert (Hall : FeedService.GenerateFeed env' (disk w') feedID baseURL = Ok feed ->
    (feedID <> channelID ->
       FeedService.GenerateFeed env' (disk w') feedID baseURL = Ok feed) /\
    (forall feed',
       FeedService.GenerateFeed env' (disk w') feedID baseURL = Ok feed' ->
       exists updated,
         feed' = mkFeed (FeedTitle feed) (FeedLink feed) (FeedDescription feed)
                   (FeedAuthor feed) (FeedCreated feed) updated (Items feed) /\
         (updated = FeedUpdated feed \/ (feedID = channelID /\ updated = time_Now env))) /\
    ((ChannelStore.SaveChannel env (disk w)
        (Modular.set_LastUpdate channel (time_Now env))).1 = None ->
     exists feed', FeedService.GenerateFeed env' (disk w') feedID baseURL = Ok feed')).
  { intros E. split; [done|]. split; [|by eauto].
    intros feed' E'. rewrite E in E'. injection E' as <-.
    exists (FeedUpdated feed). split; [by destruct feed|by left]. }
  destruct has_bot.
  2:{ apply Hall, Hsame. unfold w', Monitor.fetchChannelMessages. done. }
  destruct (Hc channel eq_refl G) as [Hina Hact].
  destruct (IsActive channel) eqn:A; [|apply Hall, Hsame; by rewrite Hina].
  destruct (Hact eq_refl) as [Hch Hok]. rewrite Hid in Hch, Hok.
  destruct (decide (feedID = channelID)) as [->|Hne].
  2:{ apply Hall, Hsame.
      assert (Hf : channel_file channelID <> channel_file feedID)
        by (intros E; by apply channel_file_inj in E).
      destruct Hch as [->|[->| ->]]; [done| |]; by rewrite lookup_insert_ne. }
  destruct Hch as [Hch|[Hch|Hch]].
  - apply Hall, Hsame. by rewrite Hch.
  - assert (G' : exists e, ChannelStore.GetChannel env' (disk w') channelID = Err e).
    { unfold ChannelStore.GetChannel. rewrite Hch, lookup_insert_eq.
      destruct (read_fails env' _); eauto. }
    destruct G' as [e G'].
    split; [done|]. split.
    + intros feed'. unfold FeedService.GenerateFeed. by rewrite G'.
    + intros S. specialize (Hok S). rewrite Hch in Hok.
      apply (f_equal (fun m => m !! channel_file channelID)) in Hok.
      rewrite !lookup_insert_eq in Hok. discriminate.
  - split; [done|].
    revert F. unfold FeedService.GenerateFeed.
    destruct (ChannelStore.GetChannel env' (disk w) channelID) as [c0|] eqn:G0; [|done].
    destruct (MessageStore.GetMessages env' (disk w) channelID 50) as [msgs|] eqn:M; [|done].
    intros [= <-]. simpl.
    assert (M' : MessageStore.GetMessages env' (disk w') channelID 50 = Ok msgs).
    { revert M. unfold MessageStore.GetMessages. by rewrite Hm. }
    rewrite M'.
    apply GetChannel_Ok_inv in G0 as [L0 R0]. apply GetChannel_Ok_inv in G as [L R].
    rewrite L in L0. injection L0 as <-.
    assert (G' : ChannelStore.GetChannel env' (disk w') channelID
                 = Ok (Modular.set_LastUpdate channel (time_Now env))).
    { apply GetChannel_Ok_inv. split; [|done]. rewrite Hch. apply lookup_insert_eq. }
    rewrite G'. simpl. split; [|by eauto].
    intros feed' [= <-]. eexists. split; [reflexivity|]. by right.
Qed.

Lemma sweep_keeps_feed_entries_witness :
  let w' := (Monitor.fetchChannelMessages true (no_faults 77) (mkWorld test_disk []) "42").2 in
  exists feed',
    FeedService.GenerateFeed (no_faults 0) (disk w') "42" "http://localhost:8080" = Ok feed'.
Proof.
  refine (proj2 (proj2
    (sweep_keeps_feed_entries true (no_faults 77) (no_faults 0) (mkWorld test_disk [])
       "42" "42" "http://localhost:8080" test_channel
       (mkFeed "Test Channel - RSS Feed" "http://localhost:8080/rss/42"
          "RSS feed for Telegram channel: Test Channel" "testchannel" 0 0
          [FeedService.messageToFeedItem test_message "http://localhost:8080"])
       _ _ _ _ _)) _).
  - reflexivity.
  - reflexivity.
  - vm_compute. reflexivity.
  - reflexivity.
  - vm_compute. reflexivity.
  - vm_compute. reflexivity.
Defined.

(** ** More on the message store *)

Lemma readable_Some (env : Env) (msgDir : string) (e : string * DirEntry Message)
    (m : Message) :
  readable env msgDir e = Some m <->
  e.2 = RegularFile (Some m) /\ filepath_Ext e.1 = ".json" /\
  read_fails env (filepath_Join msgDir e.1) = false.
Proof.
  unfold readable. destruct e as [name [decoded|]]; simpl.
  - destruct (String.eqb_spec (filepath_Ext name) ".json") as [E|E]; simpl.
    + destruct (read_fails env _); [intuition congruence|].
      split; [intros ->; done | intros ([= ->] & _ & _); done].
    + intuition congruence.
  - intuition congruence.
Qed.

Lemma elem_of_ReadDir {A} (dir : gmap string (DirEntry A)) (name : string) (v : DirEntry A) :
  (name, v) ∈ ReadDir dir <-> dir !! name = Some v.
Proof.
  destruct (ReadDir_sorted dir) as [_ P]. rewrite P. apply elem_of_map_to_list.
Qed.

Lemma rev_reverse_elem {A} (x : A) (l : list A) : x ∈ l <-> x ∈ rev l.
Proof. rewrite !list_elem_of_In. apply in_rev. Qed.

Lemma ReadDir_length {A} (dir : gmap string (DirEntry A)) :
  List.length (ReadDir dir) = size dir.
Proof.
  destruct (ReadDir_sorted dir) as [_ P]. rewrite P. apply length_map_to_list.
Qed.

Lemma ReadDir_NoDup_names {A} (dir : gmap string (DirEntry A)) :
  NoDup (ReadDir dir).*1.
Proof.
  destruct (ReadDir_sorted dir) as [_ P]. rewrite P. apply NoDup_fst_map_to_list.
Qed.

Lemma GetMessages_listed (env : Env) (d : Disk) (channelID : string)
    (limit : Z) (messages : list Message) :
  MessageStore.GetMessages env d channelID limit = Ok messages ->
  let msgDir := filepath_Join "messages" channelID in
  let listed m := exists name,
    message_files d channelID !! name = Some (RegularFile (Some m)) /\
    filepath_Ext name = ".json" /\
    read_fails env (filepath_Join msgDir name) = false in
  Z.of_nat (List.length messages) <= Z.max 0 limit /\
  (forall m, m ∈ messages -> listed m) /\
  (Z.of_nat (size (message_files d channelID)) <= limit ->
   forall m, listed m -> m ∈ messages).
Proof.
  intros G msgDir listed.
  split; [by apply (GetMessages_at_most_limit env d channelID)|].
  unfold listed, message_files. clear listed.
  destruct (messages_dir d !! channelID) as [files|] eqn:F.
  - unfold MessageStore.GetMessages in G. rewrite F in G.
    destruct (readdir_fails env _) eqn:R; [discriminate|].
    rewrite GetMessages_loop_spec in G. simpl in G. rewrite Z.sub_0_r in G.
    injection G as <-. simpl. split.
    + intros m Hm. apply elem_of_take in Hm as (i & Hm & _).
      apply list_elem_of_lookup_2 in Hm.
      apply list_elem_of_omap in Hm as ([name v] & Hin & Hr).
      apply readable_Some in Hr as (Hv & Hext & Hread). simpl in *. subst v.
      rewrite <- rev_reverse_elem in Hin. apply elem_of_ReadDir in Hin.
      by exists name.
    + intros Hsize m (name & Hf & Hext & Hread).
      rewrite take_ge.
      * apply list_elem_of_omap. exists (name, RegularFile (Some m)). split.
        -- rewrite <- rev_reverse_elem. by apply elem_of_ReadDir.
        -- by apply readable_Some.
      * etrans; [apply omap_length_le|]. rewrite length_rev, ReadDir_length. lia.
  - unfold MessageStore.GetMessages in G. rewrite F in G. injection G as <-. simpl. split.
    + intros m Hm. by apply elem_of_nil in Hm.
    + intros _ m (name & Hf & _). by rewrite lookup_empty in Hf.
Qed.

(** What [GetMessages] returns: only messages decoded from readable [.json]
    files of the channel's directory, never more than [limit]; and all of
    them once [limit] covers the directory. *)
Theorem GetMessages_lists_readable_files (env : Env) (d : Disk) (channelID : string)
    (limit : Z) (messages : list Message) :
  MessageStore.GetMessages env d channelID limit = Ok messages ->
  let msgDir := filepath_Join "messages" channelID in
  let listed m := exists name,
    message_files d channelID !! name = Some (RegularFile (Some m)) /\
    filepath_Ext name = ".json" /\
    read_fails env (filepath_Join msgDir name) = false in
  Z.of_nat (List.length messages) <= Z.max 0 limit /\
  (forall m, m ∈ messages -> listed m) /\
  (Z.of_nat (size (message_files d channelID)) <= limit ->
   forall m, listed m -> m ∈ messages).
Proof. exact (GetMessages_listed env d channelID limit messages). Qed.

Lemma GetMessages_lists_readable_files_witness :
  exists messages,
    MessageStore.GetMessages (no_faults 0) test_disk "42" 50 = Ok messages /\
    Z.of_nat (List.length messages) <= 50.
Proof.
  eexists. split; [reflexivity|].
  pose proof (GetMessages_lists_readable_files (no_faults 0) test_disk "42" 50 _ eq_refl) as H.
  exact (proj1 H).
Defined.

Lemma SaveMessage_cases (env : Env) (d : Disk) (m : Message) :
  (MessageStore.SaveMessage env d m).2 = d \/
  (MessageStore.SaveMessage env d m).2 = with_message_dir d (ChannelID m) \/
  (MessageStore.SaveMessage env d m).2 = with_damaged_message d m \/
  (MessageStore.SaveMessage env d m).2 = with_message d m.
Proof.
  destruct ((MessageStore.SaveMessage env d m).1) as [e|] eqn:E.
  - assert (Hn : ~ save_message_succeeds env d m).
    { rewrite <- SaveMessage_succeeds_iff. congruence. }
    destruct (SaveMessage_failure _ _ _ Hn) as [?|[?|[_ [?|?]]]]; auto.
  - apply SaveMessage_succeeds_iff in E.
    right; right; right. by rewrite (SaveMessage_success _ _ _ E).
Qed.

Lemma well_keyed_with_message_dir (d : Disk) (channelID : string) :
  well_keyed d -> well_keyed (with_message_dir d channelID).
Proof.
  intros W c files name message. unfold with_message_dir, message_files. simpl.
  destruct (decide (c = channelID)) as [->|Hc].
  - rewrite lookup_insert_eq. intros [= <-].
    destruct (messages_dir d !! channelID) as [files|] eqn:F; simpl.
    + by apply W.
    + by rewrite lookup_empty.
  - rewrite lookup_insert_ne by done. apply W.
Qed.

Lemma well_keyed_with_message (d : Disk) (m : Message) :
  well_keyed d -> well_keyed (with_message d m).
Proof.
  intros W c files name message. unfold with_message, message_files. simpl.
  destruct (decide (c = ChannelID m)) as [->|Hc].
  - rewrite lookup_insert_eq. intros [= <-].
    destruct (decide (name = message_file (MsgID m))) as [->|Hn].
    + rewrite lookup_insert_eq. by intros [= <-].
    + rewrite lookup_insert_ne by done.
      destruct (messages_dir d !! ChannelID m) as [files|] eqn:F; simpl.
      * by apply W.
      * by rewrite lookup_empty.
  - rewrite lookup_insert_ne by done. apply W.
Qed.

Lemma well_keyed_with_damaged_message (d : Disk) (m : Message) :
  well_keyed d -> well_keyed (with_damaged_message d m).
Proof.
  intros W c files name message. unfold with_damaged_message, message_files. simpl.
  destruct (decide (c = ChannelID m)) as [->|Hc].
  - rewrite lookup_insert_eq. intros [= <-].
    destruct (decide (name = message_file (MsgID m))) as [->|Hn].
    + rewrite lookup_insert_eq. by intros [= ?].
    + rewrite lookup_insert_ne by done.
      destruct (messages_dir d !! ChannelID m) as [files|] eqn:F; simpl.
      * by apply W.
      * by rewrite lookup_empty.
  - rewrite lookup_insert_ne by done. apply W.
Qed.

(** The store stays consistent under [SaveMessage], whether the save goes
    through or fails half-way. *)
Lemma well_keyed_SaveMessage (env : Env) (d : Disk) (m : Message) :
  well_keyed d -> well_keyed (MessageStore.SaveMessage env d m).2.
Proof.
  intros W. destruct (SaveMessage_cases env d m) as [-> | [-> | [-> | ->]]].
  - done.
  - by apply well_keyed_with_message_dir.
  - by apply well_keyed_with_damaged_message.
  - by apply well_keyed_with_message.
Qed.

Lemma well_keyed_test_disk : well_keyed test_disk.
Proof.
  intros c files name message. unfold test_disk. simpl.
  intros Hc Hf. apply lookup_singleton_Some in Hc as [<- <-].
  apply lookup_singleton_Some in Hf as [<- [= <-]]. done.
Qed.

Lemma omap_NoDup {A B} (f : A -> option B) (l : list A) :
  (forall x y z, x ∈ l -> y ∈ l -> f x = Some z -> f y = Some z -> x = y) ->
  NoDup l -> NoDup (omap f l).
Proof.
  induction l as [|a l IH]; intros Hinj Hnd; csimpl; [constructor|].
  apply NoDup_cons in Hnd as [Ha Hnd].
  assert (IH' : NoDup (omap f l)).
  { apply IH; [|done]. intros x y z Hx Hy. apply Hinj; by right. }
  destruct (f a) as [b|] eqn:Fa; [|done].
  apply NoDup_cons. split; [|done].
  intros Hb. apply list_elem_of_omap in Hb as (a' & Ha' & Fa').
  assert (a = a'); [|by subst].
  apply (Hinj a a' b); [by left | by right | done | done].
Qed.

Lemma string_app_inj_l (p a b : string) : p +:+ a = p +:+ b -> a = b.
Proof. induction p as [|c p IH]; simpl; [done|]. intros [= H]. by apply IH. Qed.

Lemma NoDup_take {A} (n : nat) (l : list A) : NoDup l -> NoDup (take n l).
Proof.
  intros H. rewrite <- (take_drop n l) in H. by apply NoDup_app in H as [H _].
Qed.

(** In a consistent store, the entries of a feed carry pairwise different
    ids, and each id names the channel of the feed. *)
Theorem feed_item_ids_distinct (env : Env) (d : Disk) (channelID baseURL : string)
    (feed : Feed) :
  well_keyed d ->
  FeedService.GenerateFeed env d channelID baseURL = Ok feed ->
  NoDup (map ItemId (Items feed)) /\
  Forall (fun item => Go.HasPrefix (ItemId item) (channelID +:+ "-") = true) (Items feed).
Proof.
  intros W G. apply GenerateFeed_items in G as (messages & G & -> & _).
  assert (Hstored : forall m, m ∈ messages ->
            exists files, messages_dir d !! channelID = Some files /\
              files !! message_file (MsgID m) = Some (RegularFile (Some m)) /\
              ChannelID m = channelID).
  { intros m Hm.
    destruct (GetMessages_listed env d channelID 50 messages G)
      as (_ & S & _).
    destruct (S m Hm) as (name & Hf & _). unfold message_files in Hf.
    destruct (messages_dir d !! channelID) as [files|] eqn:F; simpl in Hf;
      [|by rewrite lookup_empty in Hf].
    destruct (W channelID files name m F Hf) as [Hc ->]. by exists files. }
  split.
  - rewrite map_map. apply NoDup_fmap_2_strong.
    + intros m1 m2 H1 H2 E. simpl in E.
      destruct (Hstored m1 H1) as (f1 & F1 & S1 & C1).
      destruct (Hstored m2 H2) as (f2 & F2 & S2 & C2).
      rewrite C1, C2 in E. apply string_app_inj_l in E. simpl in E.
      injection E as E. apply itoa_inj in E. congruence.
    + unfold MessageStore.GetMessages in G.
      destruct (messages_dir d !! channelID) as [files|] eqn:F;
        [|injection G as <-; constructor].
      destruct (readdir_fails env _); [discriminate|].
      rewrite GetMessages_loop_spec in G. injection G as <-. simpl.
      apply NoDup_take, omap_NoDup.
      * intros [n1 v1] [n2 v2] z H1 H2 R1 R2.
        apply readable_Some in R1 as (E1 & _), R2 as (E2 & _). simpl in *. subst.
        apply rev_reverse_elem, elem_of_ReadDir in H1, H2.
        destruct (W channelID files n1 z F H1) as [_ ->].
        destruct (W channelID files n2 z F H2) as [_ ->]. done.
      * assert (N : NoDup (rev (ReadDir files)).*1).
        { rewrite <- (Permutation_rev (ReadDir files)). apply ReadDir_NoDup_names. }
        by apply NoDup_fmap_1 in N.
  - apply Forall_forall. intros item Hin. apply list_elem_of_fmap in Hin as (m & -> & Hm).
    destruct (Hstored m Hm) as (_ & _ & _ & <-). simpl.
    apply HasPrefix_spec. exists (Go.itoa (MsgID m)). by rewrite string_app_assoc.
Qed.

Lemma feed_item_ids_distinct_witness :
  exists feed,
    FeedService.GenerateFeed (no_faults 0) (with_message test_disk sample_post_message)
      "42" "http://localhost:8080" = Ok feed /\
    map ItemId (Items feed) = ["42-8"; "42-1"] /\
    NoDup (map ItemId (Items feed)).
Proof.
  eexists. split; [vm_compute; reflexivity|]. split; [vm_compute; reflexivity|].
  refine (proj1 (feed_item_ids_distinct (no_faults 0)
                   (with_message test_disk sample_post_message)
                   "42" "http://localhost:8080" _ _ _)).
  - apply well_keyed_with_message, well_keyed_test_disk.
  - vm_compute. reflexivity.
Defined.

Lemma SaveMessage_GetMessages (env env' : Env) (d : Disk) (m : Message) (limit : Z) :
  (MessageStore.SaveMessage env d m).1 = None ->
  let d' := (MessageStore.SaveMessage env d m).2 in
  let msgDir := filepath_Join "messages" (ChannelID m) in
  readdir_fails env' msgDir = false ->
  read_fails env' (filepath_Join msgDir (message_file (MsgID m))) = false ->
  Z.of_nat (size (message_files d' (ChannelID m))) <= limit ->
  exists messages,
    MessageStore.GetMessages env' d' (ChannelID m) limit = Ok messages /\ m ∈ messages.
Proof.
  intros S d' msgDir Hdir Hread Hsize.
  apply SaveMessage_succeeds_iff in S.
  pose proof (SaveMessage_stored env d m S) as St. fold d' in St.
  unfold stored_message in St.
  destruct (MessageStore.GetMessages env' d' (ChannelID m) limit) as [messages|e] eqn:G.
  - exists messages. split; [done|].
    destruct (GetMessages_listed env' d' (ChannelID m) limit messages G)
      as (_ & _ & C).
    apply (C Hsize). exists (message_file (MsgID m)).
    split; [done|]. split; [apply filepath_Ext_json | done].
  - exfalso. unfold MessageStore.GetMessages in G. fold msgDir in G. rewrite Hdir in G.
    by destruct (messages_dir d' !! ChannelID m).
Qed.

(** A message that has just been saved is listed, provided its file can be
    read back and [limit] covers the channel's directory. *)
Theorem saved_message_is_listed (env env' : Env) (d : Disk) (m : Message) (limit : Z) :
  (MessageStore.SaveMessage env d m).1 = None ->
  let d' := (MessageStore.SaveMessage env d m).2 in
  let msgDir := filepath_Join "messages" (ChannelID m) in
  readdir_fails env' msgDir = false ->
  read_fails env' (filepath_Join msgDir (message_file (MsgID m))) = false ->
  Z.of_nat (size (message_files d' (ChannelID m))) <= limit ->
  exists messages,
    MessageStore.GetMessages env' d' (ChannelID m) limit = Ok messages /\ m ∈ messages.
Proof. exact (SaveMessage_GetMessages env env' d m limit). Qed.

Lemma saved_message_is_listed_witness :
  exists messages,
    MessageStore.GetMessages (no_faults 0)
      (MessageStore.SaveMessage (no_faults 0) test_disk post7_first).2 "42" 50 = Ok messages /\
    post7_first ∈ messages.
Proof.
  apply (saved_message_is_listed (no_faults 0) (no_faults 0) test_disk post7_first 50).
  - reflexivity.
  - reflexivity.
  - reflexivity.
  - vm_compute. discriminate.
Defined.

Lemma GetRecentMessages_loop_spec (env : Env) (msgDir : string)
    (entries : list (string * DirEntry Message)) (since : Time) (messages : list Message) :
  MessageRepo.GetRecentMessages_loop env msgDir entries since messages =
  messages ++ List.filter (fun m => since <? Date m) (omap (readable env msgDir) entries).
Proof.
  revert messages.
  induction entries as [|[name entry] rest IH]; intros messages; simpl.
  - by rewrite app_nil_r.
  - unfold readable at 1. simpl.
    destruct entry as [decoded|]; [|apply IH].
    destruct (negb _); [apply IH|].
    destruct (read_fails env _); [apply IH|].
    destruct decoded as [message|]; [|apply IH]. simpl.
    destruct (since <? Date message); [|apply IH].
    rewrite IH. by rewrite <- app_assoc.
Qed.

Lemma omap_rev {A B} (f : A -> option B) (l : list A) :
  omap f (rev l) = rev (omap f l).
Proof.
  induction l as [|a l IH]; [done|]. simpl rev. rewrite omap_app, IH. csimpl.
  destruct (f a); simpl; [done | by rewrite app_nil_r].
Qed.

(** [GetRecentMessages] fails exactly when [GetMessages] does; otherwise it
    returns, oldest file name first, the messages dated after [since] among
    those an unlimited [GetMessages] lists. *)
Theorem GetRecentMessages_spec (env : Env) (d : Disk) (channelID : string)
    (since : Time) (limit : Z) :
  Z.of_nat (size (message_files d channelID)) <= limit ->
  match MessageStore.GetMessages env d channelID limit with
  | Ok all =>
    MessageRepo.GetRecentMessages env d channelID since =
      Ok (List.filter (fun m => since <? Date m) (rev all))
  | Err err => MessageRepo.GetRecentMessages env d channelID since = Err err
  end.
Proof.
  unfold MessageStore.GetMessages, MessageRepo.GetRecentMessages, message_files.
  destruct (messages_dir d !! channelID) as [files|]; simpl; [|done].
  intros Hsize. destruct (readdir_fails env _); [done|].
  rewrite GetMessages_loop_spec, GetRecentMessages_loop_spec. simpl.
  rewrite take_ge.
  - by rewrite omap_rev, rev_involutive.
  - etrans; [apply omap_length_le|]. rewrite length_rev, ReadDir_length. lia.
Qed.

Lemma GetRecentMessages_witness :
  MessageRepo.GetRecentMessages (no_faults 0) test_disk "42" (-1) = Ok [test_message] /\
  MessageRepo.GetRecentMessages (no_faults 0) test_disk "42" 0 = Ok [].
Proof.
  split.
  - apply (GetRecentMessages_spec (no_faults 0) test_disk "42" (-1) 50).
    vm_compute. discriminate.
  - apply (GetRecentMessages_spec (no_faults 0) test_disk "42" 0 50).
    vm_compute. discriminate.
Defined.

(** ** Ingestion, from the post to the feed *)

Lemma Modular_processChannelPost_accepts (env : Env) (w : World) (msg : TgMessage)
    (channel : Channel) :
  ChannelStore.GetChannel env (disk w) (Go.itoa (ChatID msg)) = Ok channel ->
  IsActive channel = true ->
  ChannelService.passesFilters channel (BotHandler.filter_text msg) = true ->
  let saved := MessageStore.SaveMessage env (disk w) (modular_message channel msg) in
  let touched := Modular.set_LastUpdate channel (time_Now env) in
  disk (Modular.processChannelPost env w (Some msg)) =
    match saved.1 with
    | Some _ => saved.2
    | None => (ChannelStore.SaveChannel env saved.2 touched).2
    end.
Proof.
  intros G A P saved touched. unfold Modular.processChannelPost.
  rewrite G, A. simpl. unfold Modular.ProcessMessage.
  change (if String.eqb (TgText msg) "" && negb (String.eqb (TgCaption msg) "")
          then TgCaption msg else TgText msg) with (BotHandler.filter_text msg).
  rewrite P. simpl. fold (modular_message channel msg). fold saved. fold touched.
  destruct saved as [[e|] d1]; simpl; [done|].
  by destruct (ChannelStore.SaveChannel env d1 touched) as [[e|] d2].
Qed.

Lemma SaveChannel_cases (env : Env) (d : Disk) (channel : Channel) :
  (ChannelStore.SaveChannel env d channel).2 = d \/
  (ChannelStore.SaveChannel env d channel).2 =
    mkDisk (<[channel_file (ID channel) := RegularFile None]> (channels_dir d))
           (messages_dir d) \/
  (ChannelStore.SaveChannel env d channel).2 =
    mkDisk (<[channel_file (ID channel) := RegularFile (Some channel)]> (channels_dir d))
           (messages_dir d).
Proof.
  destruct ((ChannelStore.SaveChannel env d channel).1) as [e|] eqn:E.
  - destruct (SaveChannel_failure _ _ _ e E) as [?|[_ [?|?]]]; auto.
  - right; right. by apply SaveChannel_success.
Qed.

(** A post that the modular handler accepts and saves is in the channel's
    next feed: when the store holds the active channel under its own id,
    the filters pass, the save of the message goes through, the save of the
    channel that follows has not left the channel's record cut short, the
    files can be read back and the channel's directory holds at most 50
    entries, the feed has the entry built from the post. *)
Theorem accepted_post_appears_in_feed (env env' : Env) (w : World) (msg : TgMessage)
    (channel : Channel) (baseURL : string) :
  let channelID := Go.itoa (ChatID msg) in
  let message := modular_message channel msg in
  let w' := Modular.processChannelPost env w (Some msg) in
  let msgDir := filepath_Join "messages" channelID in
  ChannelStore.GetChannel env (disk w) channelID = Ok channel ->
  ID channel = channelID ->
  IsActive channel = true ->
  ChannelService.passesFilters channel (BotHandler.filter_text msg) = true ->
  (MessageStore.SaveMessage env (disk w) message).1 = None ->
  channels_dir (disk w') !! channel_file channelID <> Some (RegularFile None) ->
  read_fails env' (filepath_Join "channels" (channel_file channelID)) = false ->
  readdir_fails env' msgDir = false ->
  read_fails env' (filepath_Join msgDir (message_file (TgID msg))) = false ->
  (size (message_files (disk w') channelID) <= 50)%nat ->
  exists feed,
    FeedService.GenerateFeed env' (disk w') channelID baseURL = Ok feed /\
    FeedService.messageToFeedItem message baseURL ∈ Items feed.
Proof.
  intros channelID message w' msgDir G Hid A P S Hrec Rc Rd Rm Hsize.
  pose proof (Modular_processChannelPost_accepts env w msg channel G A P) as D.
  fold message in D. fold w' in D. simpl in D. rewrite S in D.
  set (d1 := (MessageStore.SaveMessage env (disk w) message).2) in *.
  set (touched := Modular.set_LastUpdate channel (time_Now env)) in *.
  assert (M : messages_dir (disk w') = messages_dir d1).
  { rewrite D. apply SaveChannel_messages. }
  assert (Hc : ChannelID message = channelID) by (simpl; done).
  (* the listing *)
  assert (L : exists messages,
            MessageStore.GetMessages env' d1 channelID 50 = Ok messages /\
            message ∈ messages).
  { rewrite <- Hc.
    apply (SaveMessage_GetMessages env env' (disk w) message 50 S).
    - by rewrite Hc.
    - rewrite Hc. exact Rm.
    - fold d1. rewrite Hc. unfold message_files in *. rewrite <- M. lia. }
  destruct L as (messages & L & Hin).
  assert (L' : MessageStore.GetMessages env' (disk w') channelID 50 = Ok messages).
  { unfold MessageStore.GetMessages in *. by rewrite M. }
  (* the channel *)
  assert (C : exists c, ChannelStore.GetChannel env' (disk w') channelID = Ok c).
  { apply GetChannel_Ok_inv in G as [G _].
    assert (G1 : channels_dir d1 !! channel_file channelID
                 = Some (RegularFile (Some channel))).
    { unfold d1. by rewrite SaveMessage_channels. }
    rewrite D in Hrec |- *.
    destruct (SaveChannel_cases env d1 touched) as [E | [E | E]];
      rewrite E in Hrec |- *.
    - exists channel. by apply GetChannel_Ok_inv.
    - exfalso. apply Hrec. simpl.
      change (ID touched) with (ID channel). rewrite Hid.
      by rewrite lookup_insert_eq.
    - exists touched. apply GetChannel_Ok_inv. simpl.
      change (ID touched) with (ID channel). rewrite Hid.
      by rewrite lookup_insert_eq. }
  destruct C as (c & C).
  unfold FeedService.GenerateFeed. rewrite C, L'. eexists. split; [done|]. simpl.
  apply list_elem_of_fmap. by exists message.
Qed.

Lemma accepted_post_appears_in_feed_witness :
  exists feed,
    FeedService.GenerateFeed (no_faults 0)
      (disk (Modular.processChannelPost (no_faults 1000) (mkWorld test_disk [])
               (Some sample_post))) "42" "http://localhost:8080" = Ok feed /\
    FeedService.messageToFeedItem sample_post_message "http://localhost:8080" ∈ Items feed.
Proof.
  apply (accepted_post_appears_in_feed (no_faults 1000) (no_faults 0)
           (mkWorld test_disk []) sample_post test_channel "http://localhost:8080");
    try reflexivity.
  - vm_compute. discriminate.
  - vm_compute. lia.
Defined.

(** A post that the filters reject reaches no store.  The flat handler
    returns without a trace; the modular handler, whose [ProcessMessage]
    reports no error for a rejected post, still logs it as a new message. *)
Theorem rejected_post_is_not_stored (CaseRanges : list Go.CaseRange)
    (has_feed : bool) (env : Env) (w : World) (msg : TgMessage) (channel : Channel) :
  ChannelStore.GetChannel env (disk w) (Go.itoa (ChatID msg)) = Ok channel ->
  IsActive channel = true ->
  (ChannelService.passesFilters channel (BotHandler.filter_text msg) = false ->
   Modular.processChannelPost env w (Some msg) =
     slog LevelInfo "New message from channel" w) /\
  (BotHandler.passesFilters CaseRanges channel msg = false ->
   Flat.processChannelPost CaseRanges true has_feed env w (Some msg) = w).
Proof.
  intros G A. split; intros P.
  - unfold Modular.processChannelPost. rewrite G, A. simpl.
    unfold Modular.ProcessMessage.
    change (if String.eqb (TgText msg) "" && negb (String.eqb (TgCaption msg) "")
            then TgCaption msg else TgText msg) with (BotHandler.filter_text msg).
    by rewrite P.
  - unfold Flat.processChannelPost. by rewrite G, A, P.
Qed.

Lemma rejected_post_witness :
  Modular.processChannelPost (no_faults 0)
    (mkWorld {| channels_dir := {[ "42.json" := RegularFile (Some news_channel) ]};
                messages_dir := ∅ |} []) (Some sample_post) =
  mkWorld {| channels_dir := {[ "42.json" := RegularFile (Some news_channel) ]};
             messages_dir := ∅ |} [(LevelInfo, "New message from channel")].
Proof.
  apply (rejected_post_is_not_stored Go.CaseRanges_Latin_Cyrillic true (no_faults 0)
           (mkWorld {| channels_dir := {[ "42.json" := RegularFile (Some news_channel) ]};
                       messages_dir := ∅ |} []) sample_post news_channel);
    reflexivity.
Defined.

Lemma Flat_processChannelPost_accepts (CaseRanges : list Go.CaseRange) (has_feed : bool)
    (env : Env) (w : World) (msg : TgMessage) (channel : Channel) :
  ChannelStore.GetChannel env (disk w) (Go.itoa (ChatID msg)) = Ok channel ->
  IsActive channel = true ->
  BotHandler.passesFilters CaseRanges channel msg = true ->
  disk (Flat.processChannelPost CaseRanges true has_feed env w (Some msg)) =
    (MessageStore.SaveMessage env (disk w) (flat_message channel msg)).2.
Proof.
  intros G A P. unfold Flat.processChannelPost. rewrite G, A, P. simpl.
  fold (flat_message channel msg).
  destruct (MessageStore.SaveMessage env (disk w) (flat_message channel msg))
    as [[e|] d1]; simpl; [done|].
  by destruct has_feed.
Qed.

(** A post with a caption and no text (a photo, say).  Both handlers match
    the filters against the caption.  The modular handler stores the
    caption as the text of the message; the flat handler stores the empty
    text, so its feed entry has an empty title and the description of a
    post without text. *)
Theorem caption_only_post (CaseRanges : list Go.CaseRange) (has_feed : bool)
    (env : Env) (w : World) (msg : TgMessage) (channel : Channel) (baseURL : string) :
  let channelID := Go.itoa (ChatID msg) in
  ChannelStore.GetChannel env (disk w) channelID = Ok channel ->
  ID channel = channelID ->
  IsActive channel = true ->
  TgText msg = "" -> TgCaption msg <> "" ->
  ChannelService.passesFilters channel (TgCaption msg) = true ->
  BotHandler.passesFilters CaseRanges channel msg = true ->
  (MessageStore.SaveMessage env (disk w) (modular_message channel msg)).1 = None ->
  (MessageStore.SaveMessage env (disk w) (flat_message channel msg)).1 = None ->
  let stored_by_modular :=
    stored_message (disk (Modular.processChannelPost env w (Some msg)))
      channelID (TgID msg) in
  let stored_by_flat :=
    stored_message (disk (Flat.processChannelPost CaseRanges true has_feed env w (Some msg)))
      channelID (TgID msg) in
  stored_by_modular = Some (RegularFile (Some (modular_message channel msg))) /\
  Text (modular_message channel msg) = TgCaption msg /\
  stored_by_flat = Some (RegularFile (Some (flat_message channel msg))) /\
  Text (flat_message channel msg) = "" /\
  ItemTitle (FeedService.messageToFeedItem (flat_message channel msg) baseURL) = "" /\
  Go.HasPrefix
    (ItemDescription (FeedService.messageToFeedItem (flat_message channel msg) baseURL))
    "No text content" = true.
Proof.
  intros channelID G Hid A Ht Hc Pm Pf Sm Sf sm sf.
  assert (Ft : BotHandler.filter_text msg = TgCaption msg).
  { unfold BotHandler.filter_text. rewrite Ht. simpl.
    by destruct (String.eqb_spec (TgCaption msg) ""). }
  split; [|split; [|split; [|split; [|split]]]].
  - subst sm. rewrite <- Ft in Pm.
    rewrite (Modular_processChannelPost_accepts env w msg channel G A Pm). simpl.
    rewrite Sm. unfold stored_message, message_files.
    rewrite SaveChannel_messages.
    apply SaveMessage_succeeds_iff in Sm.
    pose proof (SaveMessage_stored env (disk w) _ Sm) as St.
    unfold stored_message, message_files in St. simpl in St. by rewrite Hid in St.
  - simpl. exact Ft.
  - subst sf.
    rewrite (Flat_processChannelPost_accepts CaseRanges has_feed env w msg channel G A Pf).
    apply SaveMessage_succeeds_iff in Sf.
    exact (SaveMessage_stored env (disk w) _ Sf).
  - simpl. exact Ht.
  - simpl. rewrite Ht. reflexivity.
  - simpl. unfold FeedService.item_description. simpl. rewrite Ht. simpl.
    destruct (0 <? List.length (extractMedia msg))%nat; [|reflexivity].
    generalize (extractMedia msg). intros media.
    assert (Hp : forall media description,
              Go.HasPrefix description "No text content" = true ->
              Go.HasPrefix (FeedService.media_description description media)
                "No text content" = true).
    { clear. induction media as [|m rest IH]; intros description H; simpl; [done|].
      apply IH. apply HasPrefix_spec in H as (suf & ->).
      destruct (negb (String.eqb (MCaption m) "")); apply HasPrefix_spec;
        eexists; rewrite !string_app_assoc; reflexivity. }
    apply Hp. reflexivity.
Qed.

Lemma caption_only_post_witness :
  stored_message
    (disk (Modular.processChannelPost (no_faults 1000) (mkWorld test_disk [])
             (Some captioned_photo))) "42" 9
    = Some (RegularFile (Some (modular_message test_channel captioned_photo))) /\
  Text (modular_message test_channel captioned_photo) = "Sunset over the bay" /\
  stored_message
    (disk (Flat.processChannelPost Go.CaseRanges_Latin_Cyrillic true true (no_faults 1000)
             (mkWorld test_disk []) (Some captioned_photo))) "42" 9
    = Some (RegularFile (Some (flat_message test_channel captioned_photo))) /\
  Text (flat_message test_channel captioned_photo) = "" /\
  ItemTitle (FeedService.messageToFeedItem (flat_message test_channel captioned_photo) "") = "" /\
  Go.HasPrefix
    (ItemDescription (FeedService.messageToFeedItem (flat_message test_channel captioned_photo) ""))
    "No text content" = true.
Proof.
  apply (caption_only_post Go.CaseRanges_Latin_Cyrillic true (no_faults 1000)
           (mkWorld test_disk []) captioned_photo test_channel "");
    try reflexivity.
  discriminate.
Defined.

Lemma well_keyed_messages (d d' : Disk) :
  messages_dir d' = messages_dir d -> well_keyed d -> well_keyed d'.
Proof. unfold well_keyed. by intros ->. Qed.

Lemma Modular_ProcessMessage_disk (env : Env) (w : World) (channel : Channel)
    (msgText : string) (msgDate msgID : Z) (author : string) (media : list Media)
    (link : string) :
  let message :=
    mkMessage msgID (ID channel) (Title channel) msgText (time_Unix msgDate)
      author media link in
  let d1 := (MessageStore.SaveMessage env (disk w) message).2 in
  let d' := disk (Modular.ProcessMessage env w channel msgText msgDate msgID
                    author media link).2 in
  d' = disk w \/ d' = d1 \/
  d' = (ChannelStore.SaveChannel env d1 (Modular.set_LastUpdate channel (time_Now env))).2.
Proof.
  intros message d1 d'. subst d' d1. unfold Modular.ProcessMessage. fold message.
  destruct (negb _); [by left|].
  destruct (MessageStore.SaveMessage env (disk w) message) as [[e|] d1]; simpl;
    [by right; left|].
  right; right.
  by destruct (ChannelStore.SaveChannel env d1 _) as [[e|] d2].
Qed.

Lemma Modular_processChannelPost_disk (env : Env) (w : World) (msg : TgMessage) :
  let d' := disk (Modular.processChannelPost env w (Some msg)) in
  d' = disk w \/
  exists channel message,
    ChannelStore.GetChannel env (disk w) (Go.itoa (ChatID msg)) = Ok channel /\
    ChannelID message = ID channel /\
    let d1 := (MessageStore.SaveMessage env (disk w) message).2 in
    (d' = d1 \/
     d' = (ChannelStore.SaveChannel env d1
             (Modular.set_LastUpdate channel (time_Now env))).2).
Proof.
  simpl. unfold Modular.processChannelPost.
  destruct (ChannelStore.GetChannel env (disk w) _) as [channel|e] eqn:G; [|by left].
  destruct (negb (IsActive channel)); [by left|].
  match goal with
  | |- context [Modular.ProcessMessage ?e ?w ?c ?t ?dt ?i ?a ?m ?l] =>
    pose proof (Modular_ProcessMessage_disk e w c t dt i a m l) as H;
    destruct (Modular.ProcessMessage e w c t dt i a m l) as [[err|] w1]
  end; simpl in *;
    (destruct H as [H | H]; [by left | right; eexists channel, _; split; [done|];
                                        split; [|exact H]; done]).
Qed.

Lemma Flat_processChannelPost_disk (CaseRanges : list Go.CaseRange)
    (has_monitor has_feed : bool) (env : Env) (w : World) (msg : TgMessage) :
  let d' := disk (Flat.processChannelPost CaseRanges has_monitor has_feed env w (Some msg)) in
  d' = disk w \/
  exists message,
    ChannelID message = Go.itoa (ChatID msg) /\
    d' = (MessageStore.SaveMessage env (disk w) message).2.
Proof.
  simpl. unfold Flat.processChannelPost.
  destruct (ChannelStore.GetChannel env (disk w) _) as [channel|e] eqn:G; [|by left].
  destruct (negb (IsActive channel)); [by left|].
  destruct has_monitor; [|by left].
  destruct (negb _); [by left|].
  right. exists (flat_message channel msg). split; [done|].
  fold (flat_message channel msg).
  destruct (MessageStore.SaveMessage env (disk w) (flat_message channel msg))
    as [[e|] d1]; simpl; [done | by destruct has_feed].
Qed.

(** Neither handler nor the monitor's sweep breaks the consistency of the
    message store: whatever post arrives and whatever fails on the way,
    every message file still sits in the directory of its channel id under
    the name of its sequence id. *)
Theorem ingestion_keeps_store_consistent (CaseRanges : list Go.CaseRange)
    (has_monitor has_feed has_bot : bool) (env : Env) (w : World)
    (msg : option TgMessage) (channelID : string) :
  well_keyed (disk w) ->
  well_keyed (disk (Modular.processChannelPost env w msg)) /\
  well_keyed (disk (Flat.processChannelPost CaseRanges has_monitor has_feed env w msg)) /\
  well_keyed (disk (Monitor.fetchChannelMessages has_bot env w channelID).2).
Proof.
  intros W. split; [|split].
  - destruct msg as [msg|]; [|done].
    destruct (Modular_processChannelPost_disk env w msg)
      as [-> | (channel & message & _ & _ & [-> | ->])].
    + done.
    + by apply well_keyed_SaveMessage.
    + eapply well_keyed_messages; [apply SaveChannel_messages|].
      by apply well_keyed_SaveMessage.
  - destruct msg as [msg|]; [|done].
    destruct (Flat_processChannelPost_disk CaseRanges has_monitor has_feed env w msg)
      as [-> | (message & _ & ->)]; [done|].
    by apply well_keyed_SaveMessage.
  - eapply well_keyed_messages; [|exact W].
    unfold Monitor.fetchChannelMessages.
    destruct has_bot; [|done].
    destruct (ChannelStore.GetChannel env (disk w) channelID) as [channel|e]; [|done].
    destruct (negb (IsActive channel)); [done|]. simpl.
    match goal with
    | |- context [ChannelStore.SaveChannel ?e ?d ?c] =>
      pose proof (SaveChannel_messages e d c) as H;
      destruct (ChannelStore.SaveChannel e d c) as [[err|] d2]
    end; simpl in *; done.
Qed.

Lemma ingestion_keeps_store_consistent_witness :
  well_keyed (disk (Modular.processChannelPost (no_faults 1000) (mkWorld test_disk [])
                      (Some sample_post))).
Proof.
  apply (ingestion_keeps_store_consistent Go.CaseRanges_Latin_Cyrillic true true true
           (no_faults 1000) (mkWorld test_disk []) (Some sample_post) "42").
  apply well_keyed_test_disk.
Defined.

Lemma SaveMessage_other_dirs (env : Env) (d : Disk) (m : Message) (channelID : string) :
  channelID <> ChannelID m ->
  messages_dir (MessageStore.SaveMessage env d m).2 !! channelID =
  messages_dir d !! channelID.
Proof.
  intros Hc. unfold MessageStore.SaveMessage.
  destruct (mkdir_fails env _); [done|].
  destruct (marshal_message_fails env m); simpl.
  - by rewrite lookup_insert_ne.
  - destruct (WriteFile _ _ _ _ _); simpl. by rewrite lookup_insert_ne.
Qed.

Lemma SaveChannel_other_files (env : Env) (d : Disk) (channel : Channel)
    (channelID : string) :
  channelID <> ID channel ->
  channels_dir (ChannelStore.SaveChannel env d channel).2 !! channel_file channelID =
  channels_dir d !! channel_file channelID.
Proof.
  intros Hc. destruct (SaveChannel_cases env d channel) as [-> | [-> | ->]]; [done| |];
    simpl; (rewrite lookup_insert_ne; [done|]); intros E; by apply channel_file_inj in E.
Qed.

(** A post to one channel never changes the feed of another: whatever the
    handler does with the post, the feed of every channel (named by an id
    that is a file name) other than the one the post is filed under is
    generated exactly as before.  (The modular handler files under the id
    in the stored channel record, the flat handler under the chat id.) *)
Theorem post_leaves_other_feeds (CaseRanges : list Go.CaseRange)
    (has_monitor has_feed : bool) (env env' : Env) (w : World) (msg : TgMessage)
    (other baseURL : string) :
  path_element other = true ->
  (other <> Go.itoa (ChatID msg) ->
   FeedService.GenerateFeed env'
     (disk (Flat.processChannelPost CaseRanges has_monitor has_feed env w (Some msg)))
     other baseURL
   = FeedService.GenerateFeed env' (disk w) other baseURL) /\
  ((forall channel,
      ChannelStore.GetChannel env (disk w) (Go.itoa (ChatID msg)) = Ok channel ->
      other <> ID channel) ->
   FeedService.GenerateFeed env' (disk (Modular.processChannelPost env w (Some msg)))
     other baseURL
   = FeedService.GenerateFeed env' (disk w) other baseURL).
Proof.
  intros _. split.
  - intros Hne.
    destruct (Flat_processChannelPost_disk CaseRanges has_monitor has_feed env w msg)
      as [-> | (message & Hc & ->)]; [done|].
    apply GenerateFeed_depends_on.
    + by rewrite SaveMessage_channels.
    + apply SaveMessage_other_dirs. by rewrite Hc.
  - intros Hne.
    destruct (Modular_processChannelPost_disk env w msg)
      as [-> | (channel & message & G & Hc & [-> | ->])]; [done | |].
    + apply GenerateFeed_depends_on.
      * by rewrite SaveMessage_channels.
      * apply SaveMessage_other_dirs. rewrite Hc. by apply Hne.
    + apply GenerateFeed_depends_on.
      * rewrite SaveChannel_other_files by exact (Hne channel G).
        by rewrite SaveMessage_channels.
      * rewrite SaveChannel_messages.
        apply SaveMessage_other_dirs. rewrite Hc. by apply Hne.
Qed.

Lemma post_leaves_other_feeds_witness :
  exists feed,
    FeedService.GenerateFeed (no_faults 0) two_channel_disk "43" "http://localhost:8080"
      = Ok feed /\
    map ItemId (Items feed) = ["43-5"] /\
    stored_message
      (disk (Modular.processChannelPost (no_faults 1000) (mkWorld two_channel_disk [])
               (Some sample_post))) "42" 8
      = Some (RegularFile (Some sample_post_message)) /\
    FeedService.GenerateFeed (no_faults 0)
      (disk (Modular.processChannelPost (no_faults 1000) (mkWorld two_channel_disk [])
               (Some sample_post))) "43" "http://localhost:8080"
      = Ok feed.
Proof.
  eexists. split; [vm_compute; reflexivity|]. split; [vm_compute; reflexivity|].
  split; [vm_compute; reflexivity|].
  etrans.
  - apply (post_leaves_other_feeds Go.CaseRanges_Latin_Cyrillic true true
             (no_faults 1000) (no_faults 0) (mkWorld two_channel_disk []) sample_post
             "43" "http://localhost:8080" eq_refl).
    intros channel G. vm_compute in G. injection G as <-. discriminate.
  - vm_compute. reflexivity.
Defined.

(** ** The command handlers *)

Lemma existsb_eqb_elem (x : Z) (l : list Z) :
  existsb (fun id => id =? x) l = true <-> x ∈ l.
Proof.
  rewrite existsb_exists. split.
  - intros (y & Hin & E). apply Z.eqb_eq in E as ->. by apply list_elem_of_In.
  - intros Hin. exists x. split; [by apply list_elem_of_In | apply Z.eqb_refl].
Qed.

Lemma Flat_checkAuthorization_allow_list (AllowedUsers : list Z) (h : Host) (b : Bot)
    (userID : Z) :
  AllowedUsers <> [] ->
  FlatBot.checkAuthorization AllowedUsers h b userID = true <-> userID ∈ AllowedUsers.
Proof.
  intros Hne. unfold FlatBot.checkAuthorization.
  destruct AllowedUsers as [|a l]; [done|]. simpl (0 <? _)%nat. cbv iota.
  apply existsb_eqb_elem.
Qed.

Lemma Modular_checkAuthorization_spec (AllowedUsers : list Z) (h : Host) (b : Bot)
    (userID : Z) :
  ModularBot.checkAuthorization AllowedUsers h b userID = true <->
  AllowedUsers = [] \/ userID ∈ AllowedUsers.
Proof.
  unfold ModularBot.checkAuthorization, ModularBot.IsAuthorized.
  destruct AllowedUsers as [|a l]; simpl (_ =? _)%nat; cbv iota.
  - split; [by left | done].
  - rewrite existsb_eqb_elem. split; [by right | by intros [?|?]].
Qed.

(** With a non-empty allow-list, a caller who is not on it changes nothing
    through any command of either package: the store, the log, the user
    directory and the monitor's set are as before, and the only effect is
    the refusal sent to the caller's chat. *)
Theorem outsider_commands_change_nothing (AllowedUsers : list Z)
    (SaveUser : Host -> gmap string (DirEntry User) -> User ->
                option error * gmap string (DirEntry User))
    (h : Host) (b : Bot) (update : Update) :
  AllowedUsers <> [] ->
  FromID update ∉ AllowedUsers ->
  let refused := SendMessage (UpdateChatID update) unauthorized b in
  let turned_away :=
    SendMessage (UpdateChatID update)
      (Plain "❌ You are not authorized to use this bot.") b in
  FlatBot.handleAddChannel AllowedUsers h b update = refused /\
  FlatBot.handleRemoveChannel AllowedUsers h b update = refused /\
  FlatBot.handleAddFilter AllowedUsers h b update = refused /\
  FlatBot.handleRemoveFilter AllowedUsers h b update = refused /\
  FlatBot.handleStart AllowedUsers h b update = turned_away /\
  ModularBot.handleAddChannel AllowedUsers h b update = refused /\
  ModularBot.handleRemoveChannel AllowedUsers h b update = refused /\
  ModularBot.handleAddFilter AllowedUsers h b update = refused /\
  ModularBot.handleRemoveFilter AllowedUsers h b update = refused /\
  ModularBot.handleStart AllowedUsers SaveUser h b update = turned_away.
Proof.
  intros Hne Hout refused turned_away.
  assert (F : FlatBot.checkAuthorization AllowedUsers h b (FromID update) = false).
  { apply not_true_is_false. by rewrite Flat_checkAuthorization_allow_list. }
  assert (M : ModularBot.checkAuthorization AllowedUsers h b (FromID update) = false).
  { apply not_true_is_false. rewrite Modular_checkAuthorization_spec. by intros [?|?]. }
  assert (L : (List.length AllowedUsers =? 0)%nat = false).
  { by destruct AllowedUsers. }
  unfold FlatBot.handleAddChannel, FlatBot.handleRemoveChannel, FlatBot.handleAddFilter,
    FlatBot.handleRemoveFilter, FlatBot.handleStart,
    ModularBot.handleAddChannel, ModularBot.handleRemoveChannel,
    ModularBot.handleAddFilter, ModularBot.handleRemoveFilter, ModularBot.handleStart,
    Commands.handleAddChannel, Commands.handleAddFilter, Commands.handleRemoveFilter.
  rewrite F, M, L. simpl. by repeat split.
Qed.

Lemma outsider_commands_witness :
  ModularBot.handleAddFilter [7] (test_host 0) test_bot (mkUpdate 8 "eve" 8 "/addfilter 42 spam")
  = SendMessage 8 unauthorized test_bot.
Proof.
  assert (N : (8 : Z) ∉ [7 : Z]).
  { intros H. apply elem_of_cons in H as [H|H]; [discriminate | by apply elem_of_nil in H]. }
  exact (proj1 (proj2 (proj2 (proj2 (proj2 (proj2 (proj2 (proj2
    (outsider_commands_change_nothing [7] SaveUser_refused (test_host 0) test_bot
       (mkUpdate 8 "eve" 8 "/addfilter 42 spam") ltac:(discriminate) N))))))))).
Defined.

(** In the modular package [handleStart] registers nobody: whatever the
    allow-list and whoever calls, the user directory, the store, the log and
    the monitor's set are left as they were.  [IsAuthorized] lets every
    caller in when the allow-list is empty, so the branch that would save
    the caller as an administrator is never reached; with an empty
    allow-list every caller may run every command. *)
Theorem Modular_start_registers_nobody (AllowedUsers : list Z)
    (SaveUser : Host -> gmap string (DirEntry User) -> User ->
                option error * gmap string (DirEntry User))
    (h : Host) (b : Bot) (update : Update) :
  let b' := ModularBot.handleStart AllowedUsers SaveUser h b update in
  users_dir b' = users_dir b /\ world b' = world b /\ monitored b' = monitored b /\
  (AllowedUsers = [] ->
   forall userID, ModularBot.checkAuthorization AllowedUsers h b userID = true).
Proof.
  simpl. unfold ModularBot.handleStart, ModularBot.checkAuthorization,
    ModularBot.IsAuthorized.
  destruct AllowedUsers as [|a l]; simpl (_ =? _)%nat; cbv iota.
  - simpl. done.
  - destruct (negb _); simpl; repeat split; done.
Qed.

Lemma GetUser_inr (h : Host) (users : gmap string (DirEntry User)) (userID : Z) (user : User) :
  users !! UserStore.user_file userID = Some (RegularFile (Some user)) ->
  read_fails (host_env h) (filepath_Join "users" (UserStore.user_file userID)) = false ->
  UserStore.GetUser h users userID = inr user.
Proof. intros L R. unfold UserStore.GetUser. by rewrite L, R. Qed.

(** In the flat package with an empty allow-list, [/start] registers any
    caller who is not yet known: the caller is saved with the administrator
    flag and is authorized from then on.  (Nothing ties this to the first
    caller.)  The store and the monitor's set are not touched. *)
Theorem Flat_start_registers_any_caller (h : Host) (b : Bot) (update : Update) :
  let user := mkUser (FromID update) (FromUsername update) (time_Now (host_env h)) true in
  let path := filepath_Join "users" (UserStore.user_file (FromID update)) in
  let b' := FlatBot.handleStart [] h b update in
  FlatBot.checkAuthorization [] h b (FromID update) = false ->
  users_dir b !! UserStore.user_file (FromID update) <> Some Directory ->
  marshal_user_fails h user = false ->
  write_fails (host_env h) path = false ->
  read_fails (host_env h) path = false ->
  UserStore.GetUser h (users_dir b') (FromID update) = inr user /\
  FlatBot.checkAuthorization [] h b' (FromID update) = true /\
  world b' = world b /\ monitored b' = monitored b /\
  sent b' = sent b ++ [(UpdateChatID update, Plain welcome_text)].
Proof.
  intros user path b' A Hd Hm Hw Hr.
  assert (U : users_dir b' =
              <[UserStore.user_file (FromID update) := RegularFile (Some user)]> (users_dir b)
              /\ world b' = world b /\ monitored b' = monitored b /\
              sent b' = sent b ++ [(UpdateChatID update, Plain welcome_text)]).
  { subst b'. unfold FlatBot.handleStart. rewrite A. simpl.
    unfold UserStore.SaveUser. fold user. rewrite Hm.
    unfold WriteFile. simpl. fold path. rewrite Hw.
    destruct (users_dir b !! UserStore.user_file (FromID update)) as [[o|]|]; done. }
  destruct U as (U & W & M & S).
  assert (G : UserStore.GetUser h (users_dir b') (FromID update) = inr user).
  { apply GetUser_inr; [|done]. rewrite U. apply lookup_insert_eq. }
  split; [done|]. split; [|done].
  unfold FlatBot.checkAuthorization. simpl. by rewrite G.
Qed.

Lemma Flat_start_witness :
  FlatBot.checkAuthorization [] (test_host 5)
    (FlatBot.handleStart [] (test_host 5) test_bot (mkUpdate 8 "eve" 8 "/start")) 8 = true.
Proof.
  apply (Flat_start_registers_any_caller (test_host 5) test_bot (mkUpdate 8 "eve" 8 "/start"));
    try reflexivity.
  vm_compute. discriminate.
Defined.







Lemma SaveChannel_goes_through (env : Env) (d : Disk) (channel : Channel)
    (old : option Channel) :
  channels_dir d !! channel_file (ID channel) = Some (RegularFile old) ->
  marshal_channel_fails env channel = false ->
  write_fails env (filepath_Join "channels" (channel_file (ID channel))) = false ->
  ChannelStore.SaveChannel env d channel =
    (None, mkDisk (<[channel_file (ID channel) := RegularFile (Some channel)]> (channels_dir d))
                  (messages_dir d)).
Proof.
  intros L M W. unfold ChannelStore.SaveChannel, WriteFile. by rewrite M, L, W.
Qed.

(** Adding a filter and then removing the filter at the last position
    restores the store.  The channel is stored under its own id; both
    commands come from authorized callers and name the channel; the
    index given to [/removefilter] is the number of filters the channel
    has after [/addfilter]; the writes go through. *)
Theorem addfilter_then_removefilter_restores
    (checkAuthorization : Host -> Bot -> Z -> bool) (h1 h2 : Host) (b : Bot)
    (add remove : Update) (cmd1 cmd2 channelID keywords index : string)
    (rest1 rest2 : list string) (channel : Channel) :
  let b1 := Commands.handleAddFilter checkAuthorization h1 b add in
  let b2 := Commands.handleRemoveFilter checkAuthorization h2 b1 remove in
  let path := filepath_Join "channels" (channel_file channelID) in
  path_element channelID = true ->
  checkAuthorization h1 b (FromID add) = true ->
  checkAuthorization h2 b1 (FromID remove) = true ->
  GoStrings.Fields (UpdateText add) = cmd1 :: channelID :: keywords :: rest1 ->
  GoStrings.Fields (UpdateText remove) = cmd2 :: channelID :: index :: rest2 ->
  ChannelStore.GetChannel (host_env h1) (disk (world b)) channelID = Ok channel ->
  ID channel = channelID ->
  GoStrings.Atoi index = Some (Z.of_nat (List.length (Filters channel)) + 1) ->
  (forall c, marshal_channel_fails (host_env h1) c = false) ->
  (forall c, marshal_channel_fails (host_env h2) c = false) ->
  write_fails (host_env h1) path = false ->
  write_fails (host_env h2) path = false ->
  read_fails (host_env h2) path = false ->
  let added := mkFilter FilterTypeKeywords (GoStrings.Split keywords ",") true in
  ChannelStore.GetChannel (host_env h2) (disk (world b1)) channelID =
    Ok (set_Filters channel (Filters channel ++ [added])) /\
  disk (world b2) = disk (world b).
Proof.
  intros b1 b2 path _ A1 A2 F1 F2 G Hid I M1 M2 W1 W2 R2 added.
  subst path. subst channelID.
  pose proof (proj1 (GetChannel_Ok_inv _ _ _ _) G) as [L _].
  set (channel1 := set_Filters channel (Filters channel ++ [added])).
  assert (D1 : disk (world b1) =
               mkDisk (<[channel_file (ID channel) := RegularFile (Some channel1)]>
                         (channels_dir (disk (world b)))) (messages_dir (disk (world b)))).
  { subst b1. unfold Commands.handleAddFilter. rewrite A1, F1. simpl. rewrite G.
    fold added. fold channel1.
    by rewrite (SaveChannel_goes_through (host_env h1) (disk (world b)) channel1
                  (Some channel) L (M1 _) W1). }
  assert (G1 : ChannelStore.GetChannel (host_env h2) (disk (world b1)) (ID channel)
               = Ok channel1).
  { rewrite D1. apply GetChannel_Ok_inv. simpl. by rewrite lookup_insert_eq. }
  split; [exact G1|].
  subst b2. unfold Commands.handleRemoveFilter. rewrite A2, F2. simpl. rewrite I.
  destruct (Z.ltb_spec (Z.of_nat (List.length (Filters channel)) + 1) 1) as [?|_]; [lia|].
  rewrite G1.
  assert (Hlen : List.length (Filters channel1) = S (List.length (Filters channel))).
  { simpl. rewrite length_app. simpl. lia. }
  destruct (Z.ltb_spec (Z.of_nat (List.length (Filters channel1)))
              (Z.of_nat (List.length (Filters channel)) + 1)) as [?|_]; [lia|].
  assert (Hf : take (Z.to_nat (Z.of_nat (List.length (Filters channel)) + 1 - 1))
                 (Filters channel1) ++
               drop (Z.to_nat (Z.of_nat (List.length (Filters channel)) + 1))
                 (Filters channel1) = Filters channel).
  { replace (Z.to_nat (Z.of_nat (List.length (Filters channel)) + 1 - 1))
      with (List.length (Filters channel)) by lia.
    replace (Z.to_nat (Z.of_nat (List.length (Filters channel)) + 1))
      with (S (List.length (Filters channel))) by lia.
    simpl. rewrite take_app_length. rewrite drop_ge by (rewrite length_app; simpl; lia).
    apply app_nil_r. }
  rewrite Hf.
  assert (Hc : set_Filters channel1 (Filters channel) = channel) by (by destruct channel).
  rewrite Hc.
  assert (L1 : channels_dir (disk (world b1)) !! channel_file (ID channel)
               = Some (RegularFile (Some channel1))).
  { rewrite D1. simpl. by rewrite lookup_insert_eq. }
  rewrite (SaveChannel_goes_through (host_env h2) (disk (world b1)) channel
             (Some channel1) L1 (M2 _) W2).
  simpl. rewrite D1. simpl. rewrite insert_insert_eq.
  rewrite insert_id by done. by destruct (disk (world b)).
Qed.

Lemma addfilter_then_removefilter_witness :
  disk (world (Commands.handleRemoveFilter (fun _ _ _ => true) (test_host 2)
                 (Commands.handleAddFilter (fun _ _ _ => true) (test_host 1) test_bot
                    (mkUpdate 7 "ann" 7 "/addfilter 42 tech,programming"))
                 (mkUpdate 7 "ann" 7 "/removefilter 42 1")))
  = test_disk.
Proof.
  apply (addfilter_then_removefilter_restores (fun _ _ _ => true) (test_host 1) (test_host 2)
           test_bot (mkUpdate 7 "ann" 7 "/addfilter 42 tech,programming")
           (mkUpdate 7 "ann" 7 "/removefilter 42 1")
           "/addfilter" "/removefilter" "42" "tech,programming" "1" [] [] test_channel);
    reflexivity.
Defined.

Lemma keyword_filter_rejects (matches : string -> bool) (keywords : list string) :
  (forall keyword, keyword ∈ keywords -> matches keyword = false) ->
  ~ filter_admits matches (mkFilter FilterTypeKeywords keywords true).
Proof.
  intros Hnone Hadm. destruct (Hadm eq_refl) as [Hk _].
  destruct (Hk eq_refl) as (keyword & Hin & Hm).
  apply list_elem_of_In in Hin. rewrite (Hnone keyword Hin) in Hm. done.
Qed.

(** A filter added with [/addfilter] screens the posts that follow: once
    the command has gone through for a channel stored under its own id, a
    post of that channel whose text (or caption) contains none of the
    keywords is not stored, by either handler. *)
Theorem added_filter_screens_posts (CaseRanges : list Go.CaseRange)
    (checkAuthorization : Host -> Bot -> Z -> bool) (h : Host) (b : Bot)
    (update : Update) (cmd keywords : string) (rest : list string)
    (channel : Channel) (has_monitor has_feed : bool) (env : Env) (msg : TgMessage) :
  let channelID := Go.itoa (ChatID msg) in
  let path := filepath_Join "channels" (channel_file channelID) in
  let b' := Commands.handleAddFilter checkAuthorization h b update in
  checkAuthorization h b (FromID update) = true ->
  GoStrings.Fields (UpdateText update) = cmd :: channelID :: keywords :: rest ->
  ChannelStore.GetChannel (host_env h) (disk (world b)) channelID = Ok channel ->
  ID channel = channelID ->
  (forall c, marshal_channel_fails (host_env h) c = false) ->
  write_fails (host_env h) path = false ->
  ((forall keyword, keyword ∈ GoStrings.Split keywords "," ->
      ChannelService.contains (BotHandler.filter_text msg) keyword = false) ->
   disk (Modular.processChannelPost env (world b') (Some msg)) = disk (world b')) /\
  ((forall keyword, keyword ∈ GoStrings.Split keywords "," ->
      BotHandler.containsKeyword CaseRanges (BotHandler.filter_text msg) keyword = false) ->
   Flat.processChannelPost CaseRanges has_monitor has_feed env (world b') (Some msg)
     = world b').
Proof.
  intros channelID path b' A F G Hid M W. subst path.
  set (added := mkFilter FilterTypeKeywords (GoStrings.Split keywords ",") true).
  set (channel1 := set_Filters channel (Filters channel ++ [added])).
  pose proof (proj1 (GetChannel_Ok_inv _ _ _ _) G) as [L _].
  assert (D1 : disk (world b') =
               mkDisk (<[channel_file channelID := RegularFile (Some channel1)]>
                         (channels_dir (disk (world b)))) (messages_dir (disk (world b)))).
  { subst b'. unfold Commands.handleAddFilter. rewrite A, F. simpl.
    fold channelID. rewrite G. fold added. fold channel1.
    rewrite <- Hid in L, W.
    rewrite (SaveChannel_goes_through (host_env h) (disk (world b)) channel1
               (Some channel) L (M _) W). simpl. by rewrite Hid. }
  assert (G1 : forall c, ChannelStore.GetChannel env (disk (world b')) channelID = Ok c ->
                         c = channel1).
  { intros c Hc. apply GetChannel_Ok_inv in Hc as [Hc _]. rewrite D1 in Hc. simpl in Hc.
    rewrite lookup_insert_eq in Hc. congruence. }
  split; intros Hnone.
  - unfold Modular.processChannelPost. fold channelID.
    destruct (ChannelStore.GetChannel env (disk (world b')) channelID) as [c|e] eqn:Gc;
      [|done].
    rewrite (G1 c eq_refl).
    destruct (negb (IsActive channel1)); [done|].
    unfold Modular.ProcessMessage.
    change (if String.eqb (TgText msg) "" && negb (String.eqb (TgCaption msg) "")
            then TgCaption msg else TgText msg) with (BotHandler.filter_text msg).
    assert (P : ChannelService.passesFilters channel1 (BotHandler.filter_text msg) = false).
    { apply not_true_is_false. rewrite Service_passesFilters_all_admit. simpl.
      rewrite Forall_app, Forall_singleton. intros [_ Hadm].
      by apply (keyword_filter_rejects _ _ Hnone). }
    by rewrite P.
  - unfold Flat.processChannelPost. fold channelID.
    destruct (ChannelStore.GetChannel env (disk (world b')) channelID) as [c|e] eqn:Gc;
      [|done].
    rewrite (G1 c eq_refl).
    destruct (negb (IsActive channel1)); [done|].
    destruct has_monitor; [|done].
    assert (P : BotHandler.passesFilters CaseRanges channel1 msg = false).
    { apply not_true_is_false. rewrite BotHandler_passesFilters_admits. simpl.
      rewrite Forall_app, Forall_singleton. intros [_ Hadm].
      by apply (keyword_filter_rejects _ _ Hnone). }
    by rewrite P.
Qed.

Lemma added_filter_screens_posts_witness :
  disk (Modular.processChannelPost (no_faults 9)
          (world (Commands.handleAddFilter (fun _ _ _ => true) (test_host 1) test_bot
                    (mkUpdate 7 "ann" 7 "/addfilter 42 tech,programming")))
          (Some sample_post))
  = disk (world (Commands.handleAddFilter (fun _ _ _ => true) (test_host 1) test_bot
                   (mkUpdate 7 "ann" 7 "/addfilter 42 tech,programming"))).
Proof.
  apply (added_filter_screens_posts Go.CaseRanges_Latin_Cyrillic (fun _ _ _ => true)
           (test_host 1) test_bot (mkUpdate 7 "ann" 7 "/addfilter 42 tech,programming")
           "/addfilter" "tech,programming" [] test_channel true true (no_faults 9)
           sample_post); try reflexivity.
  intros keyword Hin. vm_compute in Hin.
  apply elem_of_cons in Hin as [-> | Hin]; [reflexivity|].
  apply elem_of_cons in Hin as [-> | Hin]; [reflexivity|].
  by apply elem_of_nil in Hin.
Defined.



(** [/removechannel] in the two packages, for an authorized caller who
    names a channel by an id that is a file name.  Both remove the
    channel's file and nothing else from the store (the channel's messages
    stay), and both fail, leaving the store alone, when there is no such
    file or the removal fails.  They differ in the monitor's set: the
    modular handler drops the id from it in every case, the flat handler
    only when the file has been removed. *)
Theorem removechannel_in_both_packages (AllowedUsers : list Z) (h : Host) (b : Bot)
    (update : Update) (cmd channelID : string) (rest : list string) :
  let flat := FlatBot.handleRemoveChannel AllowedUsers h b update in
  let modular := ModularBot.handleRemoveChannel AllowedUsers h b update in
  let removable :=
    is_Some (channels_dir (disk (world b)) !! channel_file channelID) /\
    remove_fails h (filepath_Join "channels" (channel_file channelID)) = false in
  path_element channelID = true ->
  FlatBot.checkAuthorization AllowedUsers h b (FromID update) = true ->
  ModularBot.checkAuthorization AllowedUsers h b (FromID update) = true ->
  GoStrings.Fields (UpdateText update) = cmd :: channelID :: rest ->
  disk (world flat) = disk (world modular) /\
  messages_dir (disk (world flat)) = messages_dir (disk (world b)) /\
  monitored modular = monitored b ∖ {[channelID]} /\
  (removable ->
   channels_dir (disk (world flat)) =
     delete (channel_file channelID) (channels_dir (disk (world b))) /\
   monitored flat = monitored b ∖ {[channelID]} /\
   sent flat = sent b ++ [(UpdateChatID update,
                           Plain ("✅ Channel " +:+ channelID +:+ " removed successfully!"))] /\
   sent modular = sent flat) /\
  (~ removable ->
   disk (world flat) = disk (world b) /\
   monitored flat = monitored b /\
   sent flat = sent b ++ [(UpdateChatID update,
                           WithError "❌ Failed to remove channel: " "")] /\
   sent modular = sent flat).
Proof.
  intros flat modular removable _ Af Am F.
  subst flat modular removable.
  unfold FlatBot.handleRemoveChannel, ModularBot.handleRemoveChannel, Monitor.DeleteChannel.
  rewrite Af, Am, F. simpl.
  unfold ChannelRepo.DeleteChannel, Monitor.RemoveChannel.
  destruct (channels_dir (disk (world b)) !! channel_file channelID) as [entry|] eqn:L;
    simpl.
  - destruct (remove_fails h _) eqn:R; simpl.
    + split; [done|]. split; [done|]. split; [done|]. split.
      * by intros [_ ?].
      * intros _. by destruct (disk (world b)).
    + split; [done|]. split; [done|]. split; [done|]. split.
      * done.
      * intros Hn. exfalso. apply Hn. by split; [eexists|].
  - split; [done|]. split; [done|]. split; [done|]. split.
    + by intros [[? ?] _].
    + intros _. by destruct (disk (world b)).
Qed.

Lemma removechannel_witness :
  monitored (ModularBot.handleRemoveChannel [7] (test_host 0)
               (with_monitored test_bot {[ "42"; "43" ]}) (mkUpdate 7 "ann" 7 "/removechannel 43"))
    = ({[ "42"; "43" ]} : gset string) ∖ {[ "43" ]} /\
  monitored (FlatBot.handleRemoveChannel [7] (test_host 0)
               (with_monitored test_bot {[ "42"; "43" ]}) (mkUpdate 7 "ann" 7 "/removechannel 43"))
    = {[ "42"; "43" ]}.
Proof.
  pose proof (removechannel_in_both_packages [7] (test_host 0)
                (with_monitored test_bot {[ "42"; "43" ]})
                (mkUpdate 7 "ann" 7 "/removechannel 43") "/removechannel" "43" []
                eq_refl eq_refl eq_refl eq_refl) as (_ & _ & Hm & _ & Hf).
  split; [exact Hm|].
  apply Hf. intros [[entry He] _]. vm_compute in He. discriminate.
Defined.

(** ** Escaping of plain text *)

Lemma string_of_runes_app (a b : list Z) :
  Go.string_of_runes (a ++ b) = Go.string_of_runes a +:+ Go.string_of_runes b.
Proof.
  induction a as [|r a IH]; simpl; [done|]. by rewrite IH, string_app_assoc.
Qed.

Lemma escapeHTML_cons_ascii (c : ascii) (r : string) :
  (Go.byte_val c <? Go.RuneSelf) = true ->
  FeedService.escapeHTML (String c r) =
  Go.string_of_runes (EscapeSpec.entity (Go.byte_val c)) +:+ FeedService.escapeHTML r.
Proof.
  intros H. rewrite !escapeHTML_spec. unfold Go.runes.
  change (Go.range_runes 0 (String c r))
    with (let '(rn, w) := Go.DecodeRuneInString (String c r) in
          rn :: Go.range_runes (pred w) r).
  unfold Go.DecodeRuneInString. rewrite H. simpl Nat.pred.
  unfold EscapeSpec.escaped. simpl flat_map. apply string_of_runes_app.
Qed.

Lemma escape_ascii_char (c : ascii) :
  (Go.byte_val c <? Go.RuneSelf) = true ->
  (special c = false ->
   Go.string_of_runes (EscapeSpec.entity (Go.byte_val c)) = String c "") /\
  (special c = true ->
   (1 < String.length (Go.string_of_runes (EscapeSpec.entity (Go.byte_val c))))%nat).
Proof.
  destruct c as [[] [] [] [] [] [] [] []]; vm_compute; intros H;
    first [discriminate H | split; intros E; first [discriminate E | reflexivity | lia]].
Qed.

Lemma escapeHTML_ascii_length (s : string) :
  Go.isASCII s = true ->
  (String.length s <= String.length (FeedService.escapeHTML s))%nat /\
  (has_special s = true ->
   (String.length s < String.length (FeedService.escapeHTML s))%nat) /\
  (has_special s = false -> FeedService.escapeHTML s = s).
Proof.
  induction s as [|c r IH]; simpl.
  - intros _. split; [done|]. split; [done|]. intros _. reflexivity.
  - intros H. apply andb_true_iff in H as [Hc Hr].
    destruct (IH Hr) as (Hle & Hlt & Hid).
    rewrite (escapeHTML_cons_ascii c r Hc), length_app_string.
    destruct (escape_ascii_char c Hc) as [Hplain Hspecial].
    destruct (special c) eqn:S; simpl.
    + specialize (Hspecial eq_refl). split; [lia|]. split; [intros _; lia | done].
    + rewrite (Hplain eq_refl). simpl. split; [lia|]. split.
      * intros E. specialize (Hlt E). lia.
      * intros E. by rewrite (Hid E).
Qed.

(** On ASCII text [escapeHTML] changes nothing but the five characters it
    replaces: text without any of them comes back as it is, text with one
    of them comes back longer. *)
Theorem escapeHTML_plain_text (s : string) :
  Go.isASCII s = true ->
  (FeedService.escapeHTML s = s <-> has_special s = false) /\
  (String.length s <= String.length (FeedService.escapeHTML s))%nat.
Proof.
  intros H. destruct (escapeHTML_ascii_length s H) as (Hle & Hlt & Hid).
  split; [|done]. split; [|done].
  intros E. destruct (has_special s); [|done].
  specialize (Hlt eq_refl). rewrite E in Hlt. lia.
Qed.

Lemma escapeHTML_plain_text_witness :
  FeedService.escapeHTML "Hello, world" = "Hello, world".
Proof.
  apply (escapeHTML_plain_text "Hello, world"); reflexivity.
Defined.

(** ** Feed entries: description and title *)

Lemma media_description_prefix (description : string) (media : list Media) :
  exists suffix, FeedService.media_description description media = description +:+ suffix.
Proof.
  revert description. induction media as [|m rest IH]; intros description; simpl.
  - exists "". by rewrite string_app_empty_r.
  - destruct (negb (String.eqb (MCaption m) ""));
      match goal with
      | |- context [FeedService.media_description ?d rest] =>
        destruct (IH d) as (suffix & ->)
      end; eexists; rewrite !string_app_assoc; reflexivity.
Qed.

Lemma string_app_nonempty (a b : string) : a <> "" -> a +:+ b <> "".
Proof. destruct a; [done|]. simpl. discriminate. Qed.

(** Every feed entry has a description: the text of the post, or the
    words [No text content] for a post without text, followed by the list
    of its media.  The title is empty exactly for a post without text. *)
Theorem feed_entry_description_and_title (msg : Message) (baseURL : string) :
  let item := FeedService.messageToFeedItem msg baseURL in
  ItemDescription item <> "" /\
  Go.HasPrefix (ItemDescription item)
    (if String.eqb (Text msg) "" then "No text content" else Text msg) = true /\
  (MediaList msg = [] ->
   ItemDescription item = if String.eqb (Text msg) "" then "No text content" else Text msg) /\
  (ItemTitle item = "" <-> Text msg = "").
Proof.
  simpl. unfold FeedService.item_description.
  set (description := if String.eqb (Text msg) "" then "No text content" else Text msg).
  assert (Hne : description <> "").
  { subst description. destruct (String.eqb_spec (Text msg) ""); [discriminate | done]. }
  split; [|split; [|split]].
  - destruct (0 <? List.length (MediaList msg))%nat; [|exact Hne].
    destruct (media_description_prefix
                (description +:+ FeedService.nl +:+ FeedService.nl +:+ "Media:" +:+
                 FeedService.nl) (MediaList msg)) as (suffix & ->).
    rewrite !string_app_assoc. apply string_app_nonempty, Hne.
  - destruct (0 <? List.length (MediaList msg))%nat; [|apply HasPrefix_refl].
    destruct (media_description_prefix
                (description +:+ FeedService.nl +:+ FeedService.nl +:+ "Media:" +:+
                 FeedService.nl) (MediaList msg)) as (suffix & ->).
    apply HasPrefix_spec. eexists. rewrite !string_app_assoc. reflexivity.
  - by intros ->.
  - unfold FeedService.truncate.
    destruct (Go.len (Text msg) <=? Z.of_nat 100) eqn:L; [done|].
    split.
    + intros E. destruct (Text msg) as [|c r]; [done|]. simpl in E. discriminate.
    + intros E. rewrite E in L. done.
Qed.

(** ** The HTTP endpoint *)

Lemma path_element_nonempty (name : string) :
  path_element name = true -> String.eqb name "" = false.
Proof. unfold path_element. by destruct (String.eqb name ""). Qed.

(** The feed endpoint answers a request that names a channel with 200 or
    with 500, never with 404, and never changes the store.  It answers 200
    exactly when the feed can be generated and rendered, and the body is
    then the rendered feed, whose link is built from the scheme and host
    of the request; a channel that is not in the store, or whose record
    cannot be read, gets 500. *)
Theorem feed_endpoint_answers_200_or_500 (ToRss : Feed -> option string)
    (env : Env) (w : World) (r : Request) :
  let channelID := PathValue_channelID r in
  let baseURL := HTTPServer.getScheme r +:+ "://" +:+ RequestHost r in
  let res := HTTPServer.handleRSSFeed ToRss env w r in
  path_element channelID = true ->
  disk res.2 = disk w /\
  (StatusCode res.1 = StatusOK \/ StatusCode res.1 = StatusInternalServerError) /\
  (StatusCode res.1 = StatusOK <->
   exists feed rss,
     FeedService.GenerateFeed env (disk w) channelID baseURL = Ok feed /\
     ToRss feed = Some rss /\ Body res.1 = rss /\ res.2 = w) /\
  (forall feed, FeedService.GenerateFeed env (disk w) channelID baseURL = Ok feed ->
     exists channel,
       ChannelStore.GetChannel env (disk w) channelID = Ok channel /\
       FeedLink feed = baseURL +:+ "/rss/" +:+ ID channel) /\
  (forall e, ChannelStore.GetChannel env (disk w) channelID = Err e ->
     StatusCode res.1 = StatusInternalServerError /\
     Body res.1 = "Failed to generate feed" +:+ FeedService.nl).
Proof.
  intros channelID baseURL res P. subst res. unfold HTTPServer.handleRSSFeed.
  fold channelID. rewrite (path_element_nonempty _ P). fold baseURL.
  unfold FeedService.GenerateFeed.
  destruct (ChannelStore.GetChannel env (disk w) channelID) as [channel|e] eqn:G.
  - destruct (MessageStore.GetMessages env (disk w) channelID 50) as [messages|e] eqn:L.
    + destruct (ToRss _) as [rss|] eqn:T; simpl.
      * split; [done|]. split; [by left|]. split.
        -- split; [intros _; eexists _, rss; by repeat split | done].
        -- split; [|done]. intros feed [= <-]. by exists channel.
      * split; [done|]. split; [by right|]. split.
        -- split; [done|]. intros (feed & rss & E & T' & _). injection E as <-.
           discriminate (eq_trans (eq_sym T') T).
        -- split; [|done]. intros feed [= <-]. by exists channel.
    + simpl. split; [done|]. split; [by right|]. split.
      * split; [done|]. by intros (feed & rss & ? & _).
      * split; [done|]. done.
  - simpl. split; [done|]. split; [by right|]. split.
    + split; [done|]. by intros (feed & rss & ? & _).
    + split; [done|]. intros e' _. done.
Qed.

Lemma feed_endpoint_witness :
  (HTTPServer.handleRSSFeed ToRss_link (no_faults 0) (mkWorld test_disk [])
     (mkRequest "42" false "https" "feeds.example.org")).1
  = mkResponse 200
      [("Content-Type", "application/rss+xml; charset=utf-8");
       ("Cache-Control", "public, max-age=300")]
      "https://feeds.example.org/rss/42" /\
  StatusCode (HTTPServer.handleRSSFeed ToRss_link (no_faults 0) (mkWorld test_disk [])
                (mkRequest "43" false "" "localhost:8080")).1 = 500.
Proof.
  split; [reflexivity|].
  apply (feed_endpoint_answers_200_or_500 ToRss_link (no_faults 0) (mkWorld test_disk [])
           (mkRequest "43" false "" "localhost:8080") eq_refl) with (e := ErrChannelNotFound).
  reflexivity.
Defined.
